(** * Agent-S2 browser tool: snapshot builder, serializer and command dispatcher

    A shallow embedding of [gui_agents/s2/core/browser_use.py]:
    - the page-side script [BUILD_DOM_TREE_JS] (classification of elements,
      structural locators, highlight-index assignment, text serialization,
      overlay removal), and
    - the Python class [BrowserUse] (the command dispatcher [execute]).

    The live document and the Playwright driver are the environment: what the
    host reports about an element (layout, hit-testing, listeners) is carried
    by the element, and every driver call is an operation on an abstract
    world that either returns or raises.  Host calls that the page script
    does not guard with [try] are taken to return.  Strings are ASCII. *)

From Stdlib Require Import ZArith String Ascii List Permutation.
From stdpp Require Import base option list list_numbers gmap strings pretty.

Local Open Scope string_scope.
Local Open Scope list_scope.
Local Open Scope Z_scope.

(** ** JavaScript and Python string primitives (ASCII) *)

(** [String.prototype.toLowerCase], on ASCII letters. *)
Definition ascii_toLowerCase (c : ascii) : ascii :=
  let n := N_of_ascii c in
  if ((65 <=? n) && (n <=? 90))%N then ascii_of_N (n + 32) else c.

Fixpoint toLowerCase (s : string) : string :=
  match s with
  | EmptyString => EmptyString
  | String c r => String (ascii_toLowerCase c) (toLowerCase r)
  end.

Fixpoint trimStart (s : string) : string :=
  match s with
  | String c r => if Ascii.is_space c then trimStart r else s
  | EmptyString => EmptyString
  end.

(** [String.prototype.trim]. *)
Definition trim (s : string) : string :=
  String.rev (trimStart (String.rev (trimStart s))).

Definition newline : ascii := "010"%char.

(** [s.replace(/\n+/g, ' ')]: every maximal run of newlines becomes one space. *)
Fixpoint replace_newline_runs (in_run : bool) (s : string) : string :=
  match s with
  | EmptyString => EmptyString
  | String c r =>
      if Ascii.eqb c newline
      then (if in_run then replace_newline_runs true r
            else String " "%char (replace_newline_runs true r))
      else String c (replace_newline_runs false r)
  end.

Definition collapse_newlines (s : string) : string := replace_newline_runs false s.

(** The one-character string holding a double quote. *)
Definition dquote : string := String (ascii_of_N 34) EmptyString.

(** [Array.prototype.join]. *)
Fixpoint join (sep : string) (parts : list string) : string :=
  match parts with
  | [] => ""
  | [x] => x
  | x :: rest => x +:+ sep +:+ join sep rest
  end.

(** JavaScript truthiness of a string-or-null value. *)
Definition truthy (v : option string) : bool :=
  match v with
  | Some s => negb (String.eqb s "")
  | None => false
  end.

(** ** The live document, as the page script observes it *)

(** Result of hit-testing an element's centre point and walking up from the
    hit element through [parentElement]. *)
Inductive HitTest :=
| HitThrows                    (* elementFromPoint raised *)
| HitNothing                   (* elementFromPoint returned null *)
| HitWalk (reached : bool).    (* the walk met the element, or did not *)

(** Lengths of the listener arrays reported by the DevTools-only
    [window.getEventListeners]. *)
Record ListenerTable := {
  lt_click : nat; lt_mousedown : nat; lt_mouseup : nat;
  lt_touchstart : nat; lt_touchend : nat
}.

Inductive ListenerProbe :=
| ProbeUnavailable                 (* window.getEventListeners is undefined *)
| ProbeReturns (t : option ListenerTable)  (* the call returned (null: falsy) *)
| ProbeThrows.                     (* the call raised *)

Record ElementData := {
  el_nodeName : string;                    (* nodeName (= tagName for elements) *)
  el_attributes : list (string * string);  (* in getAttributeNames order *)
  el_onclick : bool;                       (* element.onclick !== null *)
  el_onmousedown : bool;                   (* truthiness of the handler property *)
  el_onmouseup : bool;
  el_ontouchstart : bool;
  el_ontouchend : bool;
  el_listeners : ListenerProbe;
  el_draggable : bool;                     (* element.draggable *)
  el_offsetWidth : Z;
  el_offsetHeight : Z;
  el_visibility : string;                  (* computed style.visibility *)
  el_display : string;                     (* computed style.display *)
  el_in_window_document : bool;            (* ownerDocument === window.document *)
  el_root_is_shadow : bool;                (* getRootNode() instanceof ShadowRoot *)
  el_is_iframe : bool;                     (* instanceof HTMLIFrameElement *)
  el_hit : HitTest
}.

(** Geometry of a text node's range and the verdict of
    [parentElement?.checkVisibility] ([None]: no parent element).  Lengths
    are in layout units; only their order and zero-tests are used. *)
Record TextData := {
  tx_textContent : string;
  tx_rect_width : Z;
  tx_rect_height : Z;
  tx_rect_top : Z;
  tx_parent_checkVisibility : option bool
}.

(** What the parent node of an element is, as the script tells: the two
    [instanceof] tests of [getXPathTree] use the constructors of the window
    the script runs in. *)
Inductive ParentKind :=
| ParentElement      (* an element that is no instance of HTMLIFrameElement *)
| ParentIFrame       (* an instance of HTMLIFrameElement *)
| ParentShadowRoot   (* an instance of ShadowRoot *)
| ParentOther.       (* no element and no instance of ShadowRoot: a document,
                        a fragment, a shadow root of another window, no parent *)

(** One step of the walk of [getXPathTree]: the current element's node name,
    what its siblings are ([Some name] for an element, [None] otherwise;
    previous siblings nearest first) and what its parent is. *)
Record PathStep := {
  ps_nodeName : string;
  ps_previous : list (option string);
  ps_next : list (option string);
  ps_parent : ParentKind
}.

(** A DOM node: a text node, an element, or any other node (comment,
    processing instruction, ...).  An element carries the child nodes of its
    open shadow root if it has one, and, for a frame whose document can be
    reached, the body of that document: the walk of [getXPathTree] from the
    body and the body's child nodes. *)
#[warnings="-register-all"]
Inductive DomNode :=
| TextNode (t : TextData)
| OtherNode
| ElementNode (el : ElementData)
              (shadowRoot : option (list DomNode))
              (frameBody : option (list PathStep * list DomNode))
              (childNodes : list DomNode).

Definition getAttribute (el : ElementData) (name : string) : option string :=
  snd <$> List.find (λ kv, String.eqb (fst kv) name) (el_attributes el).

Definition hasAttribute (el : ElementData) (name : string) : bool :=
  bool_decide (is_Some (getAttribute el name)).

(** [a === 'literal'] for a string-or-null [a]. *)
Definition strict_eq (a : option string) (lit : string) : bool :=
  match a with Some s => String.eqb s lit | None => false end.

(** ** Element classifier *)

Definition leafElementDenyList : gset string :=
  list_to_set ["svg"; "script"; "style"; "link"; "meta"].

Definition isElementAccepted (el : ElementData) : bool :=
  negb (bool_decide (toLowerCase (el_nodeName el) ∈ leafElementDenyList)).

Definition interactiveElements : gset string :=
  list_to_set
    ["a"; "button"; "details"; "embed"; "input"; "label"; "menu"; "menuitem";
     "object"; "select"; "textarea"; "summary"].

Definition interactiveRoles : gset string :=
  list_to_set
    ["button"; "menu"; "menuitem"; "link"; "checkbox"; "radio"; "slider";
     "tab"; "tabpanel"; "textbox"; "combobox"; "grid"; "listbox"; "option";
     "progressbar"; "scrollbar"; "searchbox"; "switch"; "tree"; "treeitem";
     "spinbutton"; "tooltip"; "a-button-inner"; "a-dropdown-button"; "click";
     "menuitemcheckbox"; "menuitemradio"; "a-button-text"; "button-text";
     "button-icon"; "button-icon-only"; "button-text-icon-only"; "dropdown";
     "combobox"].

(** [set.has(v)] for a string-or-null [v]. *)
Definition set_has (s : gset string) (v : option string) : bool :=
  match v with Some x => bool_decide (x ∈ s) | None => false end.

Definition hasInteractiveRole (el : ElementData) : bool :=
  let tagName := toLowerCase (el_nodeName el) in
  let role := getAttribute el "role" in
  let ariaRole := getAttribute el "aria-role" in
  let tabIndex := getAttribute el "tabindex" in
  bool_decide (tagName ∈ interactiveElements)
  || set_has interactiveRoles role
  || set_has interactiveRoles ariaRole
  || (bool_decide (tabIndex ≠ None) && negb (strict_eq tabIndex "-1"))
  || strict_eq (getAttribute el "data-action") "a-dropdown-select"
  || strict_eq (getAttribute el "data-action") "a-dropdown-button".

Definition hasClickHandler (el : ElementData) : bool :=
  el_onclick el
  || bool_decide (getAttribute el "onclick" ≠ None)
  || hasAttribute el "ng-click"
  || hasAttribute el "@click"
  || hasAttribute el "v-on:click".

Definition emptyListeners : ListenerTable :=
  {| lt_click := 0; lt_mousedown := 0; lt_mouseup := 0;
     lt_touchstart := 0; lt_touchend := 0 |}.

Definition listener_of (handler : bool) : nat := if handler then 1%nat else 0%nat.

(** The local helper [getEventListeners] of [isInteractiveElement]. *)
Definition getEventListeners (el : ElementData) : ListenerTable :=
  match el_listeners el with
  | ProbeUnavailable => emptyListeners
  | ProbeReturns (Some t) => t
  | ProbeReturns None => emptyListeners
  | ProbeThrows =>
      {| lt_click := listener_of (el_onclick el);
         lt_mousedown := listener_of (el_onmousedown el);
         lt_mouseup := listener_of (el_onmouseup el);
         lt_touchstart := listener_of (el_ontouchstart el);
         lt_touchend := listener_of (el_ontouchend el) |}
  end.

Definition hasClickListeners (el : ElementData) : bool :=
  let listeners := getEventListeners el in
  (0 <? lt_click listeners)%nat
  || (0 <? lt_mousedown listeners)%nat
  || (0 <? lt_mouseup listeners)%nat
  || (0 <? lt_touchstart listeners)%nat
  || (0 <? lt_touchend listeners)%nat.

Definition hasAriaProps (el : ElementData) : bool :=
  hasAttribute el "aria-expanded"
  || hasAttribute el "aria-pressed"
  || hasAttribute el "aria-selected"
  || hasAttribute el "aria-checked".

Definition isDraggable (el : ElementData) : bool :=
  el_draggable el || strict_eq (getAttribute el "draggable") "true".

Definition isInteractiveElement (el : ElementData) : bool :=
  if hasInteractiveRole el then true
  else hasAriaProps el || hasClickHandler el || hasClickListeners el
       || isDraggable el.

Definition isElementVisible (el : ElementData) : bool :=
  (0 <? el_offsetWidth el)
  && (0 <? el_offsetHeight el)
  && negb (String.eqb (el_visibility el) "hidden")
  && negb (String.eqb (el_display el) "none").

Definition hit_verdict (h : HitTest) : bool :=
  match h with
  | HitThrows => true
  | HitNothing => false
  | HitWalk reached => reached
  end.

(** Both the shadow-root branch and the regular branch of [isTopElement]
    hit-test in the element's own root and give the same verdicts. *)
Definition isTopElement (el : ElementData) : bool :=
  if negb (el_in_window_document el) then true
  else if el_root_is_shadow el then hit_verdict (el_hit el)
  else hit_verdict (el_hit el).

Definition isTextNodeVisible (innerHeight : Z) (t : TextData) : bool :=
  negb (tx_rect_width t =? 0)
  && negb (tx_rect_height t =? 0)
  && (0 <=? tx_rect_top t)
  && (tx_rect_top t <=? innerHeight)
  && default false (tx_parent_checkVisibility t).

(** ** Structural locators *)

Definition is_boundary (k : ParentKind) : bool :=
  match k with
  | ParentShadowRoot | ParentIFrame => true
  | _ => false
  end.

(** The inner [while (sibling)] loop: previous element siblings with the
    current element's node name. *)
Fixpoint same_name_before (name : string) (previous : list (option string)) : Z :=
  match previous with
  | [] => 0
  | Some n :: rest =>
      (if String.eqb n name then 1 else 0) + same_name_before name rest
  | None :: rest => same_name_before name rest
  end.

Definition xpath_segment (step : PathStep) : string :=
  let index := same_name_before (ps_nodeName step) (ps_previous step) in
  let tagName := toLowerCase (ps_nodeName step) in
  let xpathIndex := if 0 <? index then "[" +:+ pretty (index + 1) +:+ "]" else "" in
  tagName +:+ xpathIndex.

(** The outer loop of [getXPathTree]; [walk] lists the element and its
    element ancestors, the element first.  The walk ends where the parent is
    not an element. *)
Fixpoint getXPathTree_segments (walk : list PathStep) (stopAtBoundary : bool)
    (segments : list string) : list string :=
  match walk with
  | [] => segments
  | step :: up =>
      if stopAtBoundary && is_boundary (ps_parent step) then segments
      else
        let segments := xpath_segment step :: segments in
        match ps_parent step with
        | ParentElement | ParentIFrame => getXPathTree_segments up stopAtBoundary segments
        | ParentShadowRoot | ParentOther => segments
        end
  end.

Definition getXPathTree (walk : list PathStep) (stopAtBoundary : bool) : string :=
  join "/" (getXPathTree_segments walk stopAtBoundary []).

(** ** Snapshot builder: [build_dom_tree] *)

(** The object literal [nodeData] of [buildDomTree]; fields that the script
    leaves undefined are [None] ([false] for [shadowRoot]). *)
Record NodeFields := {
  nd_tagName : option string;
  nd_attributes : gmap string string;
  nd_xpath : option string;
  nd_isInteractive : option bool;
  nd_isVisible : option bool;
  nd_isTopElement : option bool;
  nd_highlightIndex : option Z;
  nd_shadowRoot : bool
}.

(** What [buildDomTree] returns for a node that is kept; [children] holds a
    [None] for every child that was dropped ([map] keeps the nulls). *)
#[warnings="-register-all"]
Inductive NodeData :=
| NdText (text : string) (isVisible : bool)
| NdNode (fields : NodeFields) (children : list (option NodeData)).

(** The mutable state of one run of [build_dom_tree]: the counter
    [highlightIndex], [window.clickable_elements], and the boxes drawn so far
    in the overlay container (label, and whether a parent frame offsets it). *)
Record BuildState := {
  bs_highlightIndex : Z;
  bs_clickable_elements : gmap Z ElementData;
  bs_overlay : list (Z * bool)
}.

Definition initial_state : BuildState :=
  {| bs_highlightIndex := 0; bs_clickable_elements := ∅; bs_overlay := [] |}.

(** [highlightElement]: one box and one label are appended to the container. *)
Definition highlightElement (index : Z) (parentIframe : bool) (st : BuildState)
    : BuildState :=
  {| bs_highlightIndex := bs_highlightIndex st;
     bs_clickable_elements := bs_clickable_elements st;
     bs_overlay := bs_overlay st ++ [(index, parentIframe)] |}.

(** The block [nodeData.highlightIndex = highlightIndex++; ...]. *)
Definition assign_highlight (doHighlightElements : bool) (el : ElementData)
    (parentIframe : bool) (st : BuildState) : Z * BuildState :=
  let index := bs_highlightIndex st in
  let st := {| bs_highlightIndex := index + 1;
               bs_clickable_elements := <[index := el]> (bs_clickable_elements st);
               bs_overlay := bs_overlay st |} in
  (index, if doHighlightElements then highlightElement index parentIframe st else st).

Definition copy_attributes (el : ElementData) : gmap string string :=
  foldl (λ attrs name,
           match getAttribute el name with
           | Some v => <[name := v]> attrs
           | None => attrs
           end)
        ∅ (fst <$> el_attributes el).

Definition sibling_name (n : DomNode) : option string :=
  match n with
  | ElementNode el _ _ _ => Some (el_nodeName el)
  | _ => None
  end.

Definition child_kind (el_is_iframe : bool) : ParentKind :=
  if el_is_iframe then ParentIFrame else ParentElement.

(** What a shadow root is as a parent.  Below a frame ([parentIframe] is
    set) the nodes belong to the frame's window, whose shadow roots are no
    instances of the [ShadowRoot] of the window the script runs in. *)
Definition shadow_kind (parentIframe : bool) : ParentKind :=
  if parentIframe then ParentOther else ParentShadowRoot.

Section build_dom_tree.
Variable innerHeight : Z.
Variable doHighlightElements : bool.

(** The element case of [buildDomTree], from the classification on;
    [children nodes parent up previous parentIframe] is
    [Array.from(nodes).map(child => buildDomTree(child, parentIframe))]
    for the child nodes [nodes] of a node of kind [parent] whose own walk
    is [up]. *)
Definition buildElement
    (children : list DomNode → ParentKind → list PathStep →
                list (option string) → bool → BuildState →
                list (option NodeData) * BuildState)
    (el : ElementData) (shadowRoot : option (list DomNode))
    (frameBody : option (list PathStep * list DomNode))
    (childNodes : list DomNode) (walk : list PathStep) (parentIframe : bool)
    (st : BuildState) : option NodeData * BuildState :=
  let isInteractive := isInteractiveElement el in
  let isVisible := isElementVisible el in
  let isTop := isTopElement el in
  let '(highlightIndex, st) :=
    if isInteractive && isVisible && isTop
    then let '(index, st) :=
           assign_highlight doHighlightElements el parentIframe st in
         (Some index, st)
    else (None, st) in
  let fields :=
    {| nd_tagName := if truthy (Some (el_nodeName el))
                     then Some (toLowerCase (el_nodeName el)) else None;
       nd_attributes := copy_attributes el;
       nd_xpath := Some (getXPathTree walk true);
       nd_isInteractive := Some isInteractive;
       nd_isVisible := Some isVisible;
       nd_isTopElement := Some isTop;
       nd_highlightIndex := highlightIndex;
       nd_shadowRoot := bool_decide (is_Some shadowRoot) |} in
  let '(shadowChildren, st) :=
    match shadowRoot with
    | Some nodes =>
        children nodes (shadow_kind parentIframe) [] [] parentIframe st
    | None => ([], st)
    end in
  let '(lightChildren, st) :=
    if String.eqb (el_nodeName el) "IFRAME"
    then match frameBody with
         | Some (body_walk, nodes) =>
             children nodes ParentElement body_walk [] true st
         | None => ([], st)
         end
    else children childNodes (child_kind (el_is_iframe el)) walk []
                  parentIframe st in
  (Some (NdNode fields (shadowChildren ++ lightChildren)), st).

(** [buildDomTree(node, parentIframe)].  [walk] is the walk of
    [getXPathTree] from [node] (meaningful when [node] is an element):
    parent and sibling links of the live document, made explicit. *)
Fixpoint buildDomTree (node : DomNode) (walk : list PathStep)
    (parentIframe : bool) (st : BuildState) : option NodeData * BuildState :=
  let children :=
    fix children (nodes : list DomNode) (parent : ParentKind)
        (up : list PathStep) (previous : list (option string))
        (parentIframe : bool) (st : BuildState)
        : list (option NodeData) * BuildState :=
      match nodes with
      | [] => ([], st)
      | child :: rest =>
          let step := {| ps_nodeName := default "" (sibling_name child);
                         ps_previous := previous;
                         ps_next := sibling_name <$> rest;
                         ps_parent := parent |} in
          let '(data, st) := buildDomTree child (step :: up) parentIframe st in
          let '(others, st) :=
            children rest parent up (sibling_name child :: previous)
                     parentIframe st in
          (data :: others, st)
      end in
  match node with
  | TextNode t =>
      let textContent := trim (tx_textContent t) in
      if truthy (Some textContent) && isTextNodeVisible innerHeight t
      then (Some (NdText textContent true), st)
      else (None, st)
  | OtherNode =>
      (Some (NdNode {| nd_tagName := None; nd_attributes := ∅;
                       nd_xpath := None; nd_isInteractive := None;
                       nd_isVisible := None; nd_isTopElement := None;
                       nd_highlightIndex := None; nd_shadowRoot := false |}
                    []), st)
  | ElementNode el shadowRoot frameBody childNodes =>
      if negb (isElementAccepted el) then (None, st)
      else buildElement children el shadowRoot frameBody childNodes walk
                        parentIframe st
  end.
End build_dom_tree.

(** The window the script runs in: [window.innerHeight], [document.body]
    ([None] when the document has no body) and the walk of [getXPathTree]
    from the body. *)
Record Window := {
  win_innerHeight : Z;
  win_body : option DomNode;
  win_body_walk : list PathStep
}.

(** [build_dom_tree(doHighlightElements)]: the counter is reset, then
    [buildDomTree(document.body)]. *)
Definition build_dom_tree (w : Window) (doHighlightElements : bool)
    : option NodeData * BuildState :=
  match win_body w with
  | Some body =>
      buildDomTree (win_innerHeight w) doHighlightElements body
                   (win_body_walk w) false initial_state
  | None => (None, initial_state)
  end.

(** ** The element tree: [parse_node] *)

Record ElementFields := {
  en_tagName : option string;
  en_xpath : option string;
  en_highlightIndex : option Z;
  en_attributes : gmap string string;
  en_isVisible : bool;
  en_isInteractive : bool;
  en_isTopElement : bool;
  en_shadowRoot : bool
}.

(** The objects built by [parse_node].  The back-reference [parent] is not
    stored: the functions that follow it receive the chain of ancestors. *)
#[warnings="-register-all"]
Inductive ElementTree :=
| TextLeaf (text : string) (isVisible : bool)
| ElementBranch (fields : ElementFields) (children : list ElementTree).

Definition parse_fields (f : NodeFields) : ElementFields :=
  {| en_tagName := nd_tagName f;
     en_xpath := nd_xpath f;
     en_highlightIndex := nd_highlightIndex f;
     en_attributes := nd_attributes f;
     en_isVisible := default false (nd_isVisible f);
     en_isInteractive := default false (nd_isInteractive f);
     en_isTopElement := default false (nd_isTopElement f);
     en_shadowRoot := nd_shadowRoot f |}.

Fixpoint parse_node_data (node_data : NodeData) : ElementTree :=
  match node_data with
  | NdText text isVisible => TextLeaf text isVisible
  | NdNode f children =>
      ElementBranch (parse_fields f)
        ((fix each (l : list (option NodeData)) : list ElementTree :=
            match l with
            | [] => []
            | Some child :: rest => parse_node_data child :: each rest
            | None :: rest => each rest
            end) children)
  end.

(** [parse_node(node_data, parent)]; [None] is the [undefined] returned for
    a null [node_data]. *)
Definition parse_node (node_data : option NodeData) : option ElementTree :=
  parse_node_data <$> node_data.

(** ** Selector index: [create_selector_map] *)

Module SelectorMap.
Fixpoint process_node (node : ElementTree) (selector_map : gmap Z ElementTree)
    : gmap Z ElementTree :=
  match node with
  | TextLeaf _ _ => selector_map
  | ElementBranch f children =>
      if truthy (en_tagName f) then
        let selector_map :=
          match en_highlightIndex f with
          | Some i => <[i := node]> selector_map
          | None => selector_map
          end in
        foldl (λ m child, process_node child m) selector_map children
      else selector_map
  end.
End SelectorMap.

Definition create_selector_map (element_tree : ElementTree) : gmap Z ElementTree :=
  SelectorMap.process_node element_tree ∅.

(** ** Text serialization: [clickable_elements_to_string] *)

Definition defaultIncludeAttributes : list string :=
  ["id"; "title"; "type"; "name"; "role"; "class"; "tabindex"; "aria-label";
   "placeholder"; "value"; "alt"; "aria-expanded"].

Module Serializer.
(** [collect_text(node)] inside
    [get_all_text_till_next_clickable_element(element_node)]; the result is
    what the call pushes on [text_parts].  [is_element_node] tells whether
    [node] is [element_node] itself (the test [node != element_node]). *)
Fixpoint collect_text (is_element_node : bool) (node : ElementTree) : list string :=
  match node with
  | TextLeaf text _ => if truthy (Some text) then [text] else []
  | ElementBranch f children =>
      if truthy (en_tagName f) && negb is_element_node
         && bool_decide (en_highlightIndex f ≠ None)
      then []
      else if truthy (en_tagName f)
      then flat_map (collect_text false) children
      else []
  end.

Definition get_all_text_till_next_clickable_element (element_node : ElementTree)
    : string :=
  collapse_newlines (trim (join (String newline "") (collect_text true element_node))).

(** [has_parent_with_highlight_index(node)]: the loop over [node.parent],
    [current.parent], ...; [ancestors] is that chain, the parent first. *)
Fixpoint has_parent_with_highlight_index (ancestors : list ElementFields) : bool :=
  match ancestors with
  | [] => false
  | current :: up =>
      if bool_decide (en_highlightIndex current ≠ None) then true
      else has_parent_with_highlight_index up
  end.

Definition attributes_str (includeAttributes : list string) (f : ElementFields)
    : string :=
  collapse_newlines
    (foldl (λ acc key,
              let value := en_attributes f !! key in
              if truthy (Some key) && truthy value
              then acc +:+ " " +:+ key +:+ "=" +:+ dquote +:+ default "" value +:+ dquote
              else acc)
           "" includeAttributes).

(** JavaScript renders a null [tagName] in a template as [null]. *)
Definition show_tag (tagName : option string) : string := default "null" tagName.

Definition indexed_line (includeAttributes : list string) (f : ElementFields)
    (index : Z) (text : string) : string :=
  "[" +:+ pretty index +:+ "]:<" +:+ show_tag (en_tagName f)
      +:+ attributes_str includeAttributes f +:+ ">" +:+ text
      +:+ "</" +:+ show_tag (en_tagName f) +:+ ">".

Definition bare_line (text : string) : string := "[]:" +:+ text.

(** [process_node(node, depth)]; the result is what the call pushes on
    [formatted_text]. *)
Fixpoint process_node (includeAttributes : list string)
    (ancestors : list ElementFields) (node : ElementTree) : list string :=
  match node with
  | ElementBranch f children =>
      (match en_highlightIndex f with
       | Some index =>
           [indexed_line includeAttributes f index
                         (get_all_text_till_next_clickable_element node)]
       | None => []
       end)
      ++ flat_map (process_node includeAttributes (f :: ancestors)) children
  | TextLeaf text _ =>
      if negb (has_parent_with_highlight_index ancestors)
      then [bare_line text] else []
  end.
End Serializer.

Definition clickable_elements_to_string (element_tree : ElementTree)
    (includeAttributes : option (list string)) : string :=
  let includeAttributes := default defaultIncludeAttributes includeAttributes in
  join (String newline "") (Serializer.process_node includeAttributes [] element_tree).

(** ** [get_clickable_elements] *)

(** A script either returns or throws. *)
Inductive Completion (A : Type) :=
| Returns (a : A)
| Throws (message : string).
Arguments Returns {A} a.
Arguments Throws {A} message.

Record ClickableElements := {
  element_str : string;
  selector_map : gmap Z ElementTree
}.

(** With no body, [parse_node] returns [undefined] and [create_selector_map]
    throws on [node.tagName]. *)
Definition get_clickable_elements (w : Window) (doHighlightElements : bool)
    (includeAttributes : option (list string))
    : Completion ClickableElements * BuildState :=
  let '(page_tree, st) := build_dom_tree w doHighlightElements in
  match parse_node page_tree with
  | Some element_tree =>
      (Returns {| element_str := clickable_elements_to_string element_tree includeAttributes;
                  selector_map := create_selector_map element_tree |}, st)
  | None => (Throws "Cannot read properties of undefined (reading 'tagName')", st)
  end.

(** ** Overlay removal: [remove_highlight] *)

(** A position in a list of sibling nodes and below: child indices. *)
Abbreviation position := (list nat).

Definition has_id (id : string) (node : DomNode) : bool :=
  match node with
  | ElementNode el _ _ _ => strict_eq (getAttribute el "id") id
  | _ => false
  end.

(** [document.getElementById(id)] over the document's child nodes: the first
    element in tree order whose id matches, as its position.  Shadow trees and
    framed documents are not searched. *)
Fixpoint find_by_id (id : string) (node : DomNode) : option position :=
  if has_id id node then Some []
  else match node with
       | ElementNode _ _ _ childNodes =>
           (fix among (nodes : list DomNode) (i : nat) : option position :=
              match nodes with
              | [] => None
              | child :: rest =>
                  match find_by_id id child with
                  | Some p => Some (i :: p)
                  | None => among rest (S i)
                  end
              end) childNodes 0%nat
       | _ => None
       end.

Fixpoint find_among (id : string) (nodes : list DomNode) (i : nat) : option position :=
  match nodes with
  | [] => None
  | child :: rest =>
      match find_by_id id child with
      | Some p => Some (i :: p)
      | None => find_among id rest (S i)
      end
  end.

Definition getElementById (document : list DomNode) (id : string) : option position :=
  find_among id document 0%nat.

Definition with_childNodes (f : list DomNode → list DomNode) (node : DomNode) : DomNode :=
  match node with
  | ElementNode el shadowRoot frameBody childNodes =>
      ElementNode el shadowRoot frameBody (f childNodes)
  | _ => node
  end.

(** [node.remove()] for the node at position [p]. *)
Fixpoint remove_at (p : position) (nodes : list DomNode) : list DomNode :=
  match p with
  | [] => nodes
  | [i] => delete i nodes
  | i :: p' => alter (with_childNodes (remove_at p')) i nodes
  end.

Definition highlight_container_id : string := "playwright-highlight-container".

Definition remove_highlight (document : list DomNode) : list DomNode :=
  match getElementById document highlight_container_id with
  | Some highlight => remove_at highlight document
  | None => document
  end.

(** ** The Python side: values, driver and session *)

#[warnings="-register-all"]
Inductive PyVal :=
| VNone
| VBool (b : bool)
| VInt (z : Z)
| VStr (s : string)
| VList (items : list PyVal)
| VDict (items : list (string * PyVal)).

(** Python truthiness ([if result:], [not x]). *)
Definition py_truthy (v : PyVal) : bool :=
  match v with
  | VNone => false
  | VBool b => b
  | VInt z => negb (z =? 0)
  | VStr s => negb (String.eqb s "")
  | VList items => match items with [] => false | _ => true end
  | VDict items => match items with [] => false | _ => true end
  end.

(** A key of [context["selector_map"]]: the comment in [execute] allows an
    index as int or str. *)
Inductive PyKey :=
| KInt (z : Z)
| KStr (s : string).

Global Instance PyKey_eq_dec : EqDecision PyKey.
Proof. solve_decision. Defined.

Global Instance PyKey_countable : Countable PyKey :=
  inj_countable'
    (λ k, match k with KInt z => inl z | KStr s => inr s end)
    (λ x, match x with inl z => KInt z | inr s => KStr s end)
    (λ k, match k with KInt _ => eq_refl | KStr _ => eq_refl end).

(** [str(params["index"])]. *)
Definition py_str_key (k : PyKey) : string :=
  match k with
  | KInt z => pretty z
  | KStr s => s
  end.

(** An entry of the selector map: a dict, read at ["xpath"]. *)
Abbreviation Mapping := (gmap string PyVal).
Abbreviation SelectorIndex := (gmap PyKey (gmap string PyVal)).

(** The request object. *)
Record Params := {
  p_action : option string;
  p_index : option PyKey;
  p_text : option string
}.

(** The response object. *)
Abbreviation Response := (gmap string PyVal).

Inductive Outcome (A : Type) :=
| Ok (a : A)
| Raise (message : string).
Arguments Ok {A} a.
Arguments Raise {A} message.

(** The scripts handed to [page.evaluate]. *)
Inductive Script :=
| HasDomBuilder          (* () => !!window.get_clickable_elements *)
| InjectDomBuilder       (* BUILD_DOM_TREE_JS *)
| GetHighlightElement    (* () => window.get_highlight_element() *)
| RemoveHighlight        (* guarded window.remove_highlight() *)
| ExtractContent         (* the script of extract_html_content *)
| DropdownOptions        (* the script of get_dropdown_options *)
| SelectOption.          (* the script of select_dropdown_option *)

Inductive Button := LeftButton | RightButton.

(** What [window.get_clickable_elements(true)] comes back as: a dict that may
    hold ["selector_map"] and ["element_str"]. *)
Record ElementResult := {
  er_selector_map : option (gmap PyKey (gmap string PyVal));
  er_element_str : option PyVal
}.

(** The Playwright driver and the Python runtime.  Every call may change the
    world and either returns or raises; [selector] arguments are the value
    [x] of the f-string [xpath={x}]. *)
Class Driver := {
  World : Type;
  Page : Type;
  ElementHandle : Type;
  Bytes : Type;
  drv_new_page : World → Outcome Page * World;
  drv_goto : Page → string → World → Outcome unit * World;
  drv_wait_for_load_state : Page → World → Outcome unit * World;
  drv_title : Page → World → Outcome string * World;
  drv_url : Page → World → string;
  drv_query_selector : Page → PyVal → World → Outcome (option ElementHandle) * World;
  drv_fill : ElementHandle → string → World → Outcome unit * World;
  drv_click : ElementHandle → Button → World → Outcome unit * World;
  drv_dblclick : ElementHandle → World → Outcome unit * World;
  drv_eval_on_selector : Page → PyVal → World → Outcome PyVal * World;
  drv_evaluate_handle : Page → World → Outcome PyVal * World;
  drv_evaluate : Page → Script → list PyVal → World → Outcome PyVal * World;
  drv_get_clickable_elements : Page → World → Outcome ElementResult * World;
  drv_screenshot : Page → World → Outcome Bytes * World;
  rt_b64encode : Bytes → string
}.

(** [self.current_page], [context.get("selector_map")] and the world. *)
Record Session `{Driver} := {
  current_page : option Page;
  ctx_selector_map : option (gmap PyKey (gmap string PyVal));
  world : World
}.

(** ** The command dispatcher: [BrowserUse.execute] *)

Section dispatcher.
Context `{Driver}.

(** Computations of the dispatcher: they read and change the session and
    return or raise.  Whatever was changed before a raise stays changed. *)
Definition Exec (A : Type) : Type := Session → Outcome A * Session.

Global Instance Exec_ret : MRet Exec := λ A a s, (Ok a, s).
Global Instance Exec_bind : MBind Exec := λ A B k m s,
  match m s with
  | (Ok a, s') => k a s'
  | (Raise message, s') => (Raise message, s')
  end.

Definition raise {A} (message : string) : Exec A := λ s, (Raise message, s).

Definition set_world (s : Session) (w : World) : Session :=
  {| current_page := current_page s;
     ctx_selector_map := ctx_selector_map s;
     world := w |}.

(** A driver call. *)
Definition call {A} (op : World → Outcome A * World) : Exec A := λ s,
  let '(r, w) := op (world s) in (r, set_world s w).

(** The attribute [page.url]. *)
Definition page_url (page : Page) : Exec string := λ s,
  (Ok (drv_url page (world s)), s).

Definition get_current_page : Exec (option Page) := λ s, (Ok (current_page s), s).
Definition get_selector_map : Exec (option (gmap PyKey (gmap string PyVal))) :=
  λ s, (Ok (ctx_selector_map s), s).
Definition set_current_page (page : Page) : Exec unit := λ s,
  (Ok (), {| current_page := Some page;
             ctx_selector_map := ctx_selector_map s;
             world := world s |}).
Definition set_selector_map (m : gmap PyKey (gmap string PyVal)) : Exec unit := λ s,
  (Ok (), {| current_page := current_page s;
             ctx_selector_map := Some m;
             world := world s |}).

(** [params["key"]] guarded by [if "key" not in params: raise Exception(message)]. *)
Definition required {A} (field : option A) (message : string) : Exec A :=
  match field with
  | Some v => mret v
  | None => raise message
  end.

(** [page.method(...)] where [page] may be [None]: the attribute lookup
    raises AttributeError. *)
Definition method_of (page : option Page) (method : string) : Exec Page :=
  match page with
  | Some p => mret p
  | None => raise ("'NoneType' object has no attribute '" +:+ method +:+ "'")
  end.

(** [asyncio.sleep]: time is not part of the model. *)
Definition sleep : Exec unit := mret ().

Definition _ensure_page : Exec Page :=
  current ← get_current_page;
  match current with
  | Some page => mret page
  | None => raise "No page open; call open_url first."
  end.

Definition _inject_dom_builder : Exec unit :=
  page ← _ensure_page;
  present ← call (drv_evaluate page HasDomBuilder []);
  if negb (py_truthy present) then
    window ← call (drv_evaluate_handle page);
    _ ← call (drv_evaluate page InjectDomBuilder [window]);
    _ ← call (drv_evaluate page GetHighlightElement []);
    mret ()
  else mret ().

Definition open_url (url : string) : Exec Page :=
  page ← call drv_new_page;
  _ ← call (drv_goto page url);
  _ ← call (drv_wait_for_load_state page);
  _ ← set_current_page page;
  mret page.

Definition get_element (page : option Page) (xpath : PyVal)
    : Exec (option ElementHandle) :=
  if negb (py_truthy xpath) then mret None
  else
    p ← method_of page "query_selector";
    call (drv_query_selector p xpath).

Definition extract_html_content (page : option Page) : Exec PyVal :=
  p ← method_of page "evaluate";
  call (drv_evaluate p ExtractContent []).

Definition get_dropdown_options (page : option Page) (xpath : PyVal) : Exec PyVal :=
  p ← method_of page "evaluate";
  call (drv_evaluate p DropdownOptions [xpath]).

Definition select_dropdown_option (page : option Page) (xpath : PyVal)
    (text : string) : Exec PyVal :=
  p ← method_of page "evaluate";
  call (drv_evaluate p SelectOption [xpath; VStr text]).

(** Truthiness of [context.get("selector_map")] and of a looked-up entry. *)
Definition dict_truthy {K} `{Countable K} {V} (d : option (gmap K V)) : bool :=
  match d with
  | Some m => negb (bool_decide (m = ∅))
  | None => false
  end.

(** [a or b] on looked-up entries. *)
Definition py_or (a b : option (gmap string PyVal)) : option (gmap string PyVal) :=
  if dict_truthy a then a else b.

(** The index resolution at the head of [execute]; the result is
    [selector_xpath]. *)
Definition resolve_index (params : Params) : Exec PyVal :=
  selector_map ← get_selector_map;
  match p_index params with
  | Some index =>
      if dict_truthy selector_map then
        let selector_map := default ∅ selector_map in
        let mapping :=
          py_or (selector_map !! KStr (py_str_key index)) (selector_map !! index) in
        let selector_xpath :=
          if dict_truthy mapping
          then default VNone (mapping ≫= (λ m, m !! "xpath"))
          else VNone in
        if negb (py_truthy selector_xpath)
        then raise "Element does not exist"
        else mret selector_xpath
      else mret VNone
  | None => mret VNone
  end.

Definition invalid_parameters : string :=
  "Invalid parameters. Expected an object with an " +:+ dquote +:+ "action"
    +:+ dquote +:+ " property.".

Definition invalid_action (action : string) : string :=
  "Invalid action: " +:+ dquote +:+ action +:+ dquote +:+ " is not recognized.".

Definition click_like (action : string) : bool :=
  bool_decide (action ∈ ["click"; "right_click"; "double_click"]).

(** The body of the [try] of [execute] up to the final [if result:]; the
    value is [result]. *)
Definition execute_action (params : Params) : Exec PyVal :=
  action ← required (p_action params) invalid_parameters;
  page ← get_current_page;
  selector_xpath ← resolve_index params;
  if String.eqb action "open_url" then
    url ← required (p_text params) "text (url) parameter is required";
    page ← open_url url;
    title ← call (drv_title page);
    url ← page_url page;
    mret (VDict [("title", VStr title);
                 ("url", VStr url);
                 ("success", VBool true)])
  else if String.eqb action "input_text" then
    _ ← required (p_index params) "index parameter is required";
    text ← required (p_text params) "text parameter is required";
    element ← get_element page selector_xpath;
    result ← match element with
             | Some element =>
                 _ ← call (drv_fill element "");
                 _ ← call (drv_fill element text);
                 mret (VBool true)
             | None => mret (VBool false)
             end;
    _ ← sleep;
    mret result
  else if click_like action then
    _ ← required (p_index params) "index parameter is required";
    element ← get_element page selector_xpath;
    result ← match element with
             | Some element =>
                 _ ← (if String.eqb action "click"
                      then call (drv_click element LeftButton)
                      else if String.eqb action "right_click"
                      then call (drv_click element RightButton)
                      else if String.eqb action "double_click"
                      then call (drv_dblclick element)
                      else mret ());
                 mret (VBool true)
             | None => mret (VBool false)
             end;
    _ ← sleep;
    mret result
  else if String.eqb action "scroll_to" then
    _ ← required (p_index params) "index parameter is required";
    p ← method_of page "eval_on_selector";
    res ← call (drv_eval_on_selector p selector_xpath);
    _ ← sleep;
    mret res
  else if String.eqb action "extract_content" then
    content ← extract_html_content page;
    p ← method_of page "title";
    title ← call (drv_title p);
    url ← page_url p;
    mret (VDict [("title", VStr title);
                 ("url", VStr url);
                 ("content", content)])
  else if String.eqb action "get_dropdown_options" then
    _ ← required (p_index params) "index parameter is required";
    get_dropdown_options page selector_xpath
  else if String.eqb action "select_dropdown_option" then
    _ ← required (p_index params) "index parameter is required";
    text ← required (p_text params) "text parameter is required";
    select_dropdown_option page selector_xpath text
  else if String.eqb action "screenshot_extract_element" then
    _ ← sleep;
    _ ← _inject_dom_builder;
    _ ← sleep;
    p ← method_of page "evaluate";
    element_result ← call (drv_get_clickable_elements p);
    _ ← set_selector_map (default ∅ (er_selector_map element_result));
    screenshot_bytes ← call (drv_screenshot p);
    let base64_img := rt_b64encode screenshot_bytes in
    let image := VDict [("type", VStr "base64");
                        ("media_type", VStr "image/jpeg");
                        ("data", VStr base64_img)] in
    _ ← call (drv_evaluate p RemoveHighlight []);
    mret (VDict [("image", image);
                 ("text", default (VStr "") (er_element_str element_result))])
  else raise (invalid_action action).

(** The dict display with [**result]: later keys replace earlier ones. *)
Definition dict_display (items : list (string * PyVal)) : gmap string PyVal :=
  foldl (λ m kv, <[kv.1 := kv.2]> m) ∅ items.

(** The tail of the [try]: [if result: ... else: return {"success": False}]. *)
Definition respond (result : PyVal) : gmap string PyVal :=
  if py_truthy result then
    match result with
    | VDict items => dict_display (("success", VBool true) :: items)
    | _ => dict_display [("success", VBool true); ("result", result)]
    end
  else dict_display [("success", VBool false)].

(** [execute(context, params)]: the [try] and its [except Exception]. *)
Definition execute (params : Params) (s : Session) : gmap string PyVal * Session :=
  match execute_action params s with
  | (Ok result, s') => (respond result, s')
  | (Raise message, s') =>
      (dict_display [("success", VBool false); ("error", VStr message)], s')
  end.
End dispatcher.

(** ** Further functions of the repository

    The functions of [browser_use.py] that the development above does not
    reach, and [distribute_tasks] of [run_multienv.py].  The page script is
    read as the JavaScript text that the Python literal spells: an escape in
    the literal stands for the JavaScript escape it spells. *)

(** *** The page script: [get_highlight_element] and the palette *)

(** [get_highlight_element(highlightIndex)].  [clickable_elements] is
    [window.clickable_elements], which is undefined ([None]) until
    [get_clickable_elements] has been called; [highlightIndex] is [None] when
    the argument is left out.  A key that is not in the object reads as
    [undefined] ([None]). *)
Definition get_highlight_element (clickable_elements : option (gmap Z ElementData))
    (highlightIndex : option Z) : Completion (option ElementData) :=
  match clickable_elements with
  | Some elements => Returns (highlightIndex ≫= (elements !!.))
  | None =>
      Throws ("Cannot read properties of undefined (reading '"
              +:+ from_option pretty "undefined" highlightIndex +:+ "')")
  end.

(** The palette of [highlightElement]. *)
Definition colors : list string :=
  ["#FF0000"; "#00FF00"; "#0000FF"; "#FFA500"; "#800080"; "#008080";
   "#FF69B4"; "#4B0082"; "#FF4500"; "#2E8B57"; "#DC143C"; "#4682B4"].

(** [colors[index % colors.length]]: the remainder has the sign of [index],
    and a position outside the array reads as [undefined] ([None]). *)
Definition baseColor (index : Z) : option string :=
  let colorIndex := Z.rem index (Z.of_nat (length colors)) in
  if colorIndex <? 0 then None else colors !! Z.to_nat colorIndex.

(** *** The page scripts of the Python side

    The scripts that [get_dropdown_options], [select_dropdown_option] and
    [extract_html_content] hand to [page.evaluate], as functions of what the
    document gives them. *)

(** [String.prototype.toUpperCase], on ASCII letters. *)
Definition ascii_toUpperCase (c : ascii) : ascii :=
  let n := N_of_ascii c in
  if ((97 <=? n) && (n <=? 122))%N then ascii_of_N (n - 32) else c.

Fixpoint toUpperCase (s : string) : string :=
  match s with
  | EmptyString => EmptyString
  | String c r => String (ascii_toUpperCase c) (toUpperCase r)
  end.

(** The values the scripts return. *)
#[warnings="-register-all"]
Inductive JsVal :=
| JsNull
| JsUndefined
| JsBool (b : bool)
| JsNumber (z : Z)
| JsString (s : string)
| JsArray (items : list JsVal)
| JsObject (fields : list (string * JsVal)).

(** An [option] element: [index], [text] and [value]. *)
Record OptionData := {
  opt_index : Z;
  opt_text : string;
  opt_value : string
}.

(** The node that [document.evaluate] finds for the locator, as the scripts
    read it; [options] and [name] are [None] where the node has no such
    property. *)
Record SelectData := {
  sel_tagName : string;
  sel_options : option (list OptionData);
  sel_id : string;
  sel_name : option string
}.

(** What [Array.from(undefined)] throws. *)
Definition not_iterable : string :=
  "undefined is not iterable (cannot read property Symbol(Symbol.iterator))".

Definition option_entry (opt : OptionData) : JsVal :=
  JsObject [("index", JsNumber (opt_index opt));
            ("text", JsString (trim (opt_text opt)));
            ("value", JsString (opt_value opt))].

(** The script of [get_dropdown_options]; [select] is the node found for
    the locator, [None] when there is none. *)
Definition get_dropdown_options_script (select : option SelectData)
    : Completion JsVal :=
  match select with
  | None => Returns JsNull
  | Some select =>
      match sel_options select with
      | Some options =>
          Returns (JsObject [("options", JsArray (option_entry <$> options));
                             ("id", JsString (sel_id select));
                             ("name", from_option JsString JsUndefined
                                        (sel_name select))])
      | None => Throws not_iterable
      end
  end.

Definition select_not_found : JsVal :=
  JsObject [("success", JsBool false);
            ("error", JsString "Select not found or invalid element type")].

(** The script of [select_dropdown_option].  Beside the value returned, the
    result holds the value assigned to [select.value] before the [change]
    event is dispatched, [None] when nothing is assigned. *)
Definition select_dropdown_option_script (select : option SelectData)
    (text : string) : Completion (JsVal * option string) :=
  match select with
  | None => Returns (select_not_found, None)
  | Some select =>
      if negb (String.eqb (toUpperCase (sel_tagName select)) "SELECT")
      then Returns (select_not_found, None)
      else
        match sel_options select with
        | None => Throws not_iterable
        | Some options =>
            match List.find (λ opt, String.eqb (trim (opt_text opt)) text) options with
            | None =>
                Returns
                  (JsObject
                     [("success", JsBool false);
                      ("error", JsString "Option not found");
                      ("availableOptions",
                       JsArray ((λ o, JsString (trim (opt_text o))) <$> options))],
                   None)
            | Some option =>
                Returns
                  (JsObject
                     [("success", JsBool true);
                      ("selectedValue", JsString (opt_value option));
                      ("selectedText", JsString (trim (opt_text option)))],
                   Some (opt_value option))
            end
        end
  end.

(** [s.replace(/c+/g, c)] for a character [c]: every maximal run of [c]
    becomes one [c]. *)
Fixpoint squeeze_runs (c : ascii) (in_run : bool) (s : string) : string :=
  match s with
  | EmptyString => EmptyString
  | String a r =>
      if Ascii.eqb a c
      then (if in_run then squeeze_runs c true r
            else String c (squeeze_runs c true r))
      else String a (squeeze_runs c false r)
  end.

Definition squeeze (c : ascii) (s : string) : string := squeeze_runs c false s.

(** The [main] element: its [innerText] and the [innerText] of each
    [article] below it. *)
Record MainData := {
  main_innerText : string;
  main_articles : list string
}.

(** The document as the script of [extract_html_content] reads it: the
    first [main] below the body, the [innerText] of each [article] below the
    body, and the [innerText] of the body. *)
Record ContentPage := {
  page_main : option MainData;
  page_articles : list string;
  page_innerText : string
}.

(** The loop [articles.forEach(article => { content += ... })]. *)
Definition append_articles (content : string) (articles : list string) : string :=
  foldl (λ content article, content +:+ trim article +:+ String newline "")
        content articles.

(** The script of [extract_html_content]. *)
Definition extract_html_content_script (page : ContentPage) : string :=
  let content := "" in
  let content :=
    match page_main page with
    | Some main =>
        if (0 <? length (main_articles main))%nat
        then append_articles content (main_articles main)
        else content +:+ trim (main_innerText main)
    | None =>
        if (0 <? length (page_articles page))%nat
        then append_articles content (page_articles page)
        else content
    end in
  let content := trim content in
  let content := if negb (truthy (Some content)) then page_innerText page
                 else content in
  trim (squeeze " " (squeeze newline content)).

(** *** Shutting down: [destroy] *)

(** The message of the AttributeError raised by a method call on [None]. *)
Definition attribute_error (method : string) : string :=
  "'NoneType' object has no attribute '" +:+ method +:+ "'".

(** The browser side of the driver: closing a browser and stopping
    Playwright. *)
Class Launcher `{Driver} := {
  Playwright : Type;
  Browser : Type;
  BrowserContext : Type;
  drv_close : Browser → World → Outcome unit * World;
  drv_stop : Playwright → World → Outcome unit * World
}.

(** [self.browser], [self.browser_context] and [self.playwright]. *)
Record Handles `{Launcher} := {
  browser : option Browser;
  browser_context : option BrowserContext;
  playwright : option Playwright
}.

Section shutdown.
Context `{Launcher}.

(** [destroy(context)].  The exception of a driver call goes to the caller,
    with what was changed before it. *)
Definition destroy (h : Handles) (s : Session)
    : Outcome unit * (Handles * Session) :=
  let s := {| current_page := current_page s;
              ctx_selector_map := None;
              world := world s |} in
  match browser h with
  | Some b =>
      match drv_close b (world s) with
      | (Ok _, w) =>
          let h := {| browser := None; browser_context := None;
                      playwright := playwright h |} in
          let s := {| current_page := None; ctx_selector_map := None;
                      world := w |} in
          match playwright h with
          | Some p =>
              let '(r, w) := drv_stop p (world s) in
              (r, (h, set_world s w))
          | None => (Raise (attribute_error "stop"), (h, s))
          end
      | (Raise message, w) => (Raise message, (h, set_world s w))
      end
  | None => (Ok (), (h, s))
  end.
End shutdown.

(** *** Task distribution: [distribute_tasks] of [run_multienv.py]

    A dict is the list of its entries in insertion order; its keys are
    pairwise distinct.  List lengths are far below 2^53, where the float
    quotient of [len(all_tasks) / num_envs] rounds up to the ceiling of the
    exact quotient. *)

Abbreviation TaskTable := (list (string * list string)).

(** The loop that flattens [test_all_meta] into [all_tasks]. *)
Definition all_tasks_of (test_all_meta : TaskTable) : list (string * string) :=
  entry ← test_all_meta; pair entry.1 <$> entry.2.

(** [math.ceil(a / b)] for integers [a] and [b], [b] not zero. *)
Definition ceil_div (a b : Z) : Z := - (- a / b).

(** [l[start:stop]]: a negative index counts from the end, and indices are
    clamped to the list. *)
Definition py_index (len i : Z) : Z :=
  if i <? 0 then Z.max (i + len) 0 else Z.min i len.

Definition py_slice {A} (l : list A) (start stop : Z) : list A :=
  let len := Z.of_nat (length l) in
  take (Z.to_nat (py_index len stop - py_index len start))
       (drop (Z.to_nat (py_index len start)) l).

(** The body of the inner loop of [distribute_tasks]: the domain gets an
    empty list if it is not yet a key, then the example is appended to the
    domain's list. *)
Definition add_task (env_tasks : TaskTable) (task : string * string) : TaskTable :=
  let env_tasks :=
    if bool_decide (task.1 ∈ env_tasks.*1) then env_tasks
    else env_tasks ++ [(task.1, [])] in
  (λ entry, if String.eqb entry.1 task.1
            then (entry.1, entry.2 ++ [task.2]) else entry) <$> env_tasks.

Definition distribute_tasks (test_all_meta : TaskTable) (num_envs : Z)
    : Outcome (list TaskTable) :=
  let all_tasks := all_tasks_of test_all_meta in
  let len := Z.of_nat (length all_tasks) in
  if num_envs =? 0 then Raise "division by zero"
  else
    let tasks_per_env := ceil_div len num_envs in
    Ok ((λ i,
           let start_idx := i * tasks_per_env in
           let end_idx := Z.min ((i + 1) * tasks_per_env) len in
           foldl add_task [] (py_slice all_tasks start_idx end_idx))
        <$> seqZ 0 num_envs).

(** ** Vocabulary of the specification *)

(** *** Interactivity by tab index *)

Fixpoint parse_digits (acc : Z) (s : string) : option Z :=
  match s with
  | EmptyString => Some acc
  | String c r =>
      match Ascii.is_nat c with
      | Some d => parse_digits (10 * acc + Z.of_nat d) r
      | None => None
      end
  end.

(** The integer an attribute value spells: decimal digits, with an optional
    leading minus sign. *)
Definition parse_integer (s : string) : option Z :=
  match s with
  | EmptyString => None
  | String "-" EmptyString => None
  | String "-" r => Z.opp <$> parse_digits 0 r
  | _ => parse_digits 0 s
  end.

(** The specification's reading of the tab-index signal: the element has an
    explicit tab index and it is non-negative. *)
Definition nonnegative_tabindex (el : ElementData) : bool :=
  match getAttribute el "tabindex" ≫= parse_integer with
  | Some z => 0 <=? z
  | None => false
  end.

(** Every signal of [isInteractiveElement] except the tab index. *)
Definition other_signals (el : ElementData) : bool :=
  bool_decide (toLowerCase (el_nodeName el) ∈ interactiveElements)
  || set_has interactiveRoles (getAttribute el "role")
  || set_has interactiveRoles (getAttribute el "aria-role")
  || strict_eq (getAttribute el "data-action") "a-dropdown-select"
  || strict_eq (getAttribute el "data-action") "a-dropdown-button"
  || hasAriaProps el || hasClickHandler el || hasClickListeners el
  || isDraggable el.

(** *** Structural locators *)

Definition same_name (name : string) (sibling : option string) : bool :=
  bool_decide (sibling = Some name).












(** *** Highlight indices in document order *)

(** The element objects of a snapshot in pre-order. *)
Fixpoint elements_preorder (t : ElementTree) : list ElementFields :=
  match t with
  | TextLeaf _ _ => []
  | ElementBranch f children => f :: flat_map elements_preorder children
  end.

Definition qualifies (f : ElementFields) : bool :=
  en_isVisible f && en_isInteractive f && en_isTopElement f.

(** The highlight indices met in pre-order. *)
Definition highlight_indices (t : ElementTree) : list Z :=
  omap en_highlightIndex (elements_preorder t).

(** The snapshot of a window: the element tree of [get_clickable_elements]. *)
Definition snapshot (w : Window) (doHighlightElements : bool) : option ElementTree :=
  parse_node (build_dom_tree w doHighlightElements).1.

(** *** Overlay containers *)

(** Number of elements of the document tree that carry the given id. *)
Fixpoint count_id (id : string) (node : DomNode) : nat :=
  (if has_id id node then 1 else 0)%nat
  + match node with
    | ElementNode _ _ _ childNodes =>
        (fix among (nodes : list DomNode) : nat :=
           match nodes with
           | [] => 0
           | child :: rest => count_id id child + among rest
           end)%nat childNodes
    | _ => 0%nat
    end.

Fixpoint count_among (id : string) (nodes : list DomNode) : nat :=
  match nodes with
  | [] => 0
  | child :: rest => count_id id child + count_among id rest
  end%nat.

(** *** Dispatcher outcomes *)

(** The enumerated command names of [input_schema]. *)
Definition command_names : list string :=
  ["screenshot_extract_element"; "open_url"; "input_text"; "click";
   "right_click"; "double_click"; "scroll_to"; "extract_content";
   "get_dropdown_options"; "select_dropdown_option"].

(** The response [{"success": False, "error": message}]. *)
Definition error_response (message : string) : gmap string PyVal :=
  {[ "success" := VBool false; "error" := VStr message ]}.

(** The response [{"success": False}]. *)
Definition bare_failure : gmap string PyVal := {[ "success" := VBool false ]}.

(** The index is a key of the selector map neither as given nor as its
    [str]; a missing or empty map holds no index. *)
Definition index_absent (selector_map : option (gmap PyKey (gmap string PyVal)))
    (index : PyKey) : Prop :=
  ∀ m, selector_map = Some m → m !! KStr (py_str_key index) = None ∧ m !! index = None.


(** *** Text attribution *)

(** A text run of the element tree: the position of its text node (child
    indices from the root) and its text. *)
Abbreviation run := (position * string)%type.

Definition below (i : nat) (r : run) : run := (i :: r.1, r.2).
Definition under (here : position) (r : run) : run := (here ++ r.1, r.2).

Module Trace.
(** [Serializer.collect_text], keeping with each text pushed the position,
    relative to [node], of the text node it is read from. *)
Fixpoint collect_text (is_element_node : bool) (node : ElementTree) : list run :=
  match node with
  | TextLeaf text _ => if truthy (Some text) then [([], text)] else []
  | ElementBranch f children =>
      if truthy (en_tagName f) && negb is_element_node
         && bool_decide (en_highlightIndex f ≠ None)
      then []
      else if truthy (en_tagName f)
      then (fix each (l : list ElementTree) (i : nat) : list run :=
              match l with
              | [] => []
              | child :: rest =>
                  (below i <$> collect_text false child) ++ each rest (S i)
              end) children 0%nat
      else []
  end.

(** What [Serializer.process_node] pushes, before it is formatted: for an
    indexed element at position [line_at], the element and the text runs
    collected for it (at their positions in the whole tree); for a text
    node, its position and text. *)
Inductive Line :=
| Indexed (line_at : position) (fields : ElementFields) (index : Z)
          (parts : list run)
| Bare (line_at : position) (text : string).

(** [Serializer.process_node] for the node at position [here]. *)
Fixpoint process_node (here : position) (ancestors : list ElementFields)
    (node : ElementTree) : list Line :=
  match node with
  | ElementBranch f children =>
      (match en_highlightIndex f with
       | Some index => [Indexed here f index (under here <$> collect_text true node)]
       | None => []
       end)
      ++ (fix each (l : list ElementTree) (i : nat) : list Line :=
            match l with
            | [] => []
            | child :: rest =>
                process_node (here ++ [i]) (f :: ancestors) child
                ++ each rest (S i)
            end) children 0%nat
  | TextLeaf text _ =>
      if negb (Serializer.has_parent_with_highlight_index ancestors)
      then [Bare here text] else []
  end.

(** The string pushed on [formatted_text] for a line. *)
Definition format (includeAttributes : list string) (l : Line) : string :=
  match l with
  | Indexed _ f index parts =>
      Serializer.indexed_line includeAttributes f index
        (collapse_newlines (trim (join (String newline "") (parts.*2))))
  | Bare _ text => Serializer.bare_line text
  end.

(** The loops over children, as functions of their own. *)
Fixpoint collect_among (children : list ElementTree) (i : nat) : list run :=
  match children with
  | [] => []
  | child :: rest =>
      (below i <$> collect_text false child) ++ collect_among rest (S i)
  end.

Fixpoint process_among (here : position) (ancestors : list ElementFields)
    (children : list ElementTree) (i : nat) : list Line :=
  match children with
  | [] => []
  | child :: rest =>
      process_node (here ++ [i]) ancestors child
      ++ process_among here ancestors rest (S i)
  end.
End Trace.

(** A text run together with the line it is attributed to: the position of
    the indexed element the line is emitted for, or [None] for a bare line. *)
Abbreviation attribution := (option position * run)%type.

Definition line_attributions (l : Trace.Line) : list attribution :=
  match l with
  | Trace.Indexed line_at _ _ parts => pair (Some line_at) <$> parts
  | Trace.Bare line_at text => [(None, (line_at, text))]
  end.

(** Every text run held by the lines, with the line that holds it. *)
Definition attributions (lines : list Trace.Line) : list attribution :=
  lines ≫= line_attributions.

(** The text of the line of an indexed element whose runs have the given
    texts: the texts joined by line breaks, the whole trimmed, and every run
    of line breaks turned into one space. *)
Definition line_text (texts : list string) : string :=
  collapse_newlines (trim (join (String newline "") texts)).

(** The string of a line: [[index]:<tag attributes>text</tag>] for an indexed
    element, with the text of the runs that the line holds, and [[]:text] for
    a text node. *)
Definition line_string (includeAttributes : list string) (l : Trace.Line) : string :=
  match l with
  | Trace.Indexed _ f index parts =>
      "[" +:+ pretty index +:+ "]:<" +:+ Serializer.show_tag (en_tagName f)
          +:+ Serializer.attributes_str includeAttributes f +:+ ">"
          +:+ line_text (parts.*2)
          +:+ "</" +:+ Serializer.show_tag (en_tagName f) +:+ ">"
  | Trace.Bare _ text => "[]:" +:+ text
  end.

Definition carries_index (f : ElementFields) : bool :=
  bool_decide (en_highlightIndex f ≠ None).

(** The text runs of the tree below position [here], in document order,
    each with its nearest ancestor that carries a highlight index: [nearest]
    on the way in, replaced at every indexed element that is passed. *)
Fixpoint runs_with_owner (node : ElementTree) (here : position)
    (nearest : option position) : list attribution :=
  match node with
  | TextLeaf text _ => [(nearest, (here, text))]
  | ElementBranch f children =>
      let nearest := if carries_index f then Some here else nearest in
      (fix each (l : list ElementTree) (i : nat) : list attribution :=
         match l with
         | [] => []
         | child :: rest =>
             runs_with_owner child (here ++ [i]) nearest ++ each rest (S i)
         end) children 0%nat
  end.

Fixpoint runs_among (children : list ElementTree) (here : position)
    (nearest : option position) (i : nat) : list attribution :=
  match children with
  | [] => []
  | child :: rest =>
      runs_with_owner child (here ++ [i]) nearest
      ++ runs_among rest here nearest (S i)
  end.

(** What the builder guarantees of its trees: a text node holds a non-empty
    text, and a node without a tag name (a comment, ...) has no children and
    no highlight index. *)
Fixpoint snapshot_tree_wf (node : ElementTree) : bool :=
  match node with
  | TextLeaf text _ => truthy (Some text)
  | ElementBranch f children =>
      (truthy (en_tagName f)
       || (bool_decide (children = []) && negb (carries_index f)))
      && forallb snapshot_tree_wf children
  end.

(** Every element of the document has a node name. *)
Fixpoint dom_named (node : DomNode) : bool :=
  match node with
  | ElementNode el shadowRoot frameBody childNodes =>
      truthy (Some (el_nodeName el))
      && match shadowRoot with
         | Some nodes => forallb dom_named nodes
         | None => true
         end
      && match frameBody with
         | Some (_, nodes) => forallb dom_named nodes
         | None => true
         end
      && forallb dom_named childNodes
  | _ => true
  end.

(** ** Auxiliary definitions

    The inner loops of the recursive functions above as functions of their
    own, and the invariants that the proofs below carry through them. *)

(** *** Snapshot builder *)

(** The inner [children] of [buildDomTree]. *)
Fixpoint buildChildren (innerHeight : Z) (doHighlightElements : bool)
    (nodes : list DomNode) (parent : ParentKind) (up : list PathStep)
    (previous : list (option string)) (parentIframe : bool) (st : BuildState)
    : list (option NodeData) * BuildState :=
  match nodes with
  | [] => ([], st)
  | child :: rest =>
      let step := {| ps_nodeName := default "" (sibling_name child);
                     ps_previous := previous;
                     ps_next := sibling_name <$> rest;
                     ps_parent := parent |} in
      let '(data, st) :=
        buildDomTree innerHeight doHighlightElements child (step :: up)
                     parentIframe st in
      let '(others, st) :=
        buildChildren innerHeight doHighlightElements rest parent up
                      (sibling_name child :: previous) parentIframe st in
      (data :: others, st)
  end.

(** The loop of [parse_node] over [node_data.children]. *)
Fixpoint parse_children (children : list (option NodeData)) : list ElementTree :=
  match children with
  | [] => []
  | Some child :: rest => parse_node_data child :: parse_children rest
  | None :: rest => parse_children rest
  end.

(** The element objects that come out of one call of [buildDomTree]. *)
Definition elements_of (r : option NodeData) : list ElementFields :=
  match r with
  | Some node_data => elements_preorder (parse_node_data node_data)
  | None => []
  end.




(** An element carries an index exactly when it qualified. *)
Definition indexed_iff_qualifies (f : ElementFields) : Prop :=
  is_Some (en_highlightIndex f) ↔ qualifies f = true.

(** What a run of the builder from state [st] to state [st'] that produced
    the elements [fs] guarantees: the indices handed out are, in order, the
    values of the counter from [st] up to [st']. *)
Definition counted (st st' : BuildState) (fs : list ElementFields) : Prop :=
  bs_highlightIndex st ≤ bs_highlightIndex st'
  ∧ omap en_highlightIndex fs
    = seqZ (bs_highlightIndex st) (bs_highlightIndex st' - bs_highlightIndex st)
  ∧ Forall indexed_iff_qualifies fs.

Definition node_counted (innerHeight : Z) (doHighlightElements : bool)
    (node : DomNode) : Prop :=
  ∀ walk parentIframe st,
    counted st
      (buildDomTree innerHeight doHighlightElements node walk parentIframe st).2
      (elements_of
         (buildDomTree innerHeight doHighlightElements node walk parentIframe st).1).

Definition builds_wf (innerHeight : Z) (doHighlightElements : bool)
    (node : DomNode) : Prop :=
  dom_named node = true →
  ∀ walk parentIframe st node_data,
    (buildDomTree innerHeight doHighlightElements node walk parentIframe st).1
    = Some node_data →
    snapshot_tree_wf (parse_node_data node_data) = true.

(** *** Text attribution *)

(** The runs met below a node with no indexed element on the way: an indexed
    ancestor [o] collects them. *)
Definition inherited (o : option position) (here : position) (runs : list run)
    : list attribution :=
  pair o ∘ under here <$> runs.

(** The lines emitted for a node, and what its indexed ancestor collects
    below it, hold the runs below the node, each under its nearest indexed
    ancestor. *)
Definition attributed (node : ElementTree) : Prop :=
  snapshot_tree_wf node = true →
  ∀ here ancestors nearest,
    (Serializer.has_parent_with_highlight_index ancestors = false → nearest = None) →
    runs_with_owner node here nearest
    ≡ₚ attributions (Trace.process_node here ancestors node)
       ++ (if Serializer.has_parent_with_highlight_index ancestors
           then inherited nearest here (Trace.collect_text false node) else []).

(** The runs that a line holds have texts that are not empty. *)
Definition holds_texts (l : Trace.Line) : Prop :=
  match l with
  | Trace.Indexed _ _ _ parts => Forall (λ r : run, r.2 ≠ "") parts
  | Trace.Bare _ _ => True
  end.

(** Runs below position [here] lie below it, and no position comes twice. *)
Definition distinct_below (node : ElementTree) : Prop :=
  ∀ here nearest,
    NoDup ((runs_with_owner node here nearest).*2.*1)
    ∧ ∀ p, p ∈ (runs_with_owner node here nearest).*2.*1 → ∃ r, p = here ++ r.

(** *** Dispatcher *)

Section dispatcher_invariants.
Context `{Driver}.

(** A computation that leaves [current_page] alone. *)
Definition keeps_page {A} (m : Exec A) : Prop :=
  ∀ s, current_page (m s).2 = current_page s.

(** The outcome of a computation is a raise or a falsy value. *)
Definition fruitless (o : Outcome PyVal) : Prop :=
  match o with
  | Ok v => py_truthy v = false
  | Raise _ => True
  end.
End dispatcher_invariants.

(** ** Vocabulary of the further theorems *)

(** *** The outputs of a snapshot *)

(** The nodes of an element tree in pre-order. *)
Fixpoint nodes_preorder (t : ElementTree) : list ElementTree :=
  t :: match t with
       | TextLeaf _ _ => []
       | ElementBranch _ children => flat_map nodes_preorder children
       end.

(** The highlight index a node carries. *)
Definition index_of (node : ElementTree) : option Z :=
  match node with
  | ElementBranch f _ => en_highlightIndex f
  | TextLeaf _ _ => None
  end.




(** What [create_selector_map] does at one node that has a tag name. *)
Definition record_node (m : gmap Z ElementTree) (node : ElementTree)
    : gmap Z ElementTree :=
  match index_of node with
  | Some i => <[i := node]> m
  | None => m
  end.

(** The counter and [window.clickable_elements] of a state: all of it but
    the overlay. *)
Definition same_core (st1 st2 : BuildState) : Prop :=
  bs_highlightIndex st1 = bs_highlightIndex st2
  ∧ bs_clickable_elements st1 = bs_clickable_elements st2.

(** *** Documents without what the deny list drops *)

(** The document with everything below the elements on the deny list taken
    away: such an element stays in its place among its siblings and loses
    its child nodes, its shadow tree and its frame document. *)
Fixpoint prune_denied (node : DomNode) : DomNode :=
  match node with
  | ElementNode el shadowRoot frameBody childNodes =>
      if isElementAccepted el then
        ElementNode el
          match shadowRoot with
          | Some nodes => Some (map prune_denied nodes)
          | None => None
          end
          match frameBody with
          | Some (body_walk, nodes) => Some (body_walk, map prune_denied nodes)
          | None => None
          end
          (map prune_denied childNodes)
      else ElementNode el None None []
  | _ => node
  end.

Definition pruned_window (w : Window) : Window :=
  {| win_innerHeight := win_innerHeight w;
     win_body := prune_denied <$> win_body w;
     win_body_walk := win_body_walk w |}.

(** *** White space and line breaks *)

(** The string neither starts nor ends with white space. *)
Definition trimmed (s : string) : Prop := trim s = s.

(** The string holds no line break. *)
Definition single_line (s : string) : Prop := newline ∉ list_ascii_of_string s.

(** The character does not come twice in a row. *)
Definition no_double (c : ascii) (s : string) : Prop :=
  ∀ before after, list_ascii_of_string s ≠ before ++ c :: c :: after.

(** The texts that the script of [get_dropdown_options] lists. *)
Definition listed_texts (select : SelectData) : list string :=
  (λ opt, trim (opt_text opt)) <$> default [] (sel_options select).

(** *** Elements *)

(** The element with other handler properties for the pointer events that
    are not clicks. *)
Definition with_pointer_handlers (el : ElementData)
    (onmousedown onmouseup ontouchstart ontouchend : bool) : ElementData :=
  {| el_nodeName := el_nodeName el; el_attributes := el_attributes el;
     el_onclick := el_onclick el;
     el_onmousedown := onmousedown; el_onmouseup := onmouseup;
     el_ontouchstart := ontouchstart; el_ontouchend := ontouchend;
     el_listeners := el_listeners el; el_draggable := el_draggable el;
     el_offsetWidth := el_offsetWidth el; el_offsetHeight := el_offsetHeight el;
     el_visibility := el_visibility el; el_display := el_display el;
     el_in_window_document := el_in_window_document el;
     el_root_is_shadow := el_root_is_shadow el;
     el_is_iframe := el_is_iframe el; el_hit := el_hit el |}.

(** *** Values of the page scripts *)

(** The [text] of an entry of the [options] array, and the texts of the
    object that the script of [get_dropdown_options] returns. *)
Definition js_field (name : string) (v : JsVal) : option JsVal :=
  match v with
  | JsObject fields => snd <$> List.find (λ kv, String.eqb (fst kv) name) fields
  | _ => None
  end.

Definition string_field (name : string) (v : JsVal) : option string :=
  match js_field name v with
  | Some (JsString s) => Some s
  | _ => None
  end.

Definition texts_of (result : JsVal) : list string :=
  match js_field "options" result with
  | Some (JsArray items) => omap (string_field "text") items
  | _ => []
  end.

(** *** Requests *)

(** The commands that ask for an index. *)
Definition index_commands : list string :=
  ["input_text"; "click"; "right_click"; "double_click"; "scroll_to";
   "get_dropdown_options"; "select_dropdown_option"].

(** The commands that ask for a text, and what each says when it is
    missing. *)
Definition text_commands : list string :=
  ["open_url"; "input_text"; "select_dropdown_option"].

Definition missing_text (action : string) : string :=
  if String.eqb action "open_url" then "text (url) parameter is required"
  else "text parameter is required".

Section dispatcher_steps.
Context `{Driver}.

(** A computation that leaves the selector map alone. *)
Definition keeps_map {A} (m : Exec A) : Prop :=
  ∀ s, ctx_selector_map (m s).2 = ctx_selector_map s.

(** The driver call that a click command makes on the element it found. *)
Definition click_operation (action : string) (element : ElementHandle)
    : World → Outcome unit * World :=
  if String.eqb action "click" then drv_click element LeftButton
  else if String.eqb action "right_click" then drv_click element RightButton
  else drv_dblclick element.

(** The session with another current page and world. *)
Definition on_page (s : Session) (page : Page) (w : World) : Session :=
  {| current_page := Some page;
     ctx_selector_map := ctx_selector_map s;
     world := w |}.
End dispatcher_steps.

(** *** Commands before a page is open *)

(** What a command other than [open_url] answers while no page is open,
    once its index is resolved to [xpath] and the fields it asks for are
    there. *)
Definition without_page (action : string) (xpath : PyVal) : gmap string PyVal :=
  if bool_decide (action ∈ ["input_text"; "click"; "right_click"; "double_click"])
  then (if py_truthy xpath then error_response (attribute_error "query_selector")
        else bare_failure)
  else if String.eqb action "scroll_to"
  then error_response (attribute_error "eval_on_selector")
  else if String.eqb action "screenshot_extract_element"
  then error_response "No page open; call open_url first."
  else error_response (attribute_error "evaluate").

(** ** Auxiliary definitions of the further theorems *)

(** *** The builder, element by element *)

(** What the builder emits, in pre-order: text nodes and element objects. *)
Inductive Atom :=
| AText (text : string) (isVisible : bool)
| AElement (f : ElementFields).

Fixpoint atoms (t : ElementTree) : list Atom :=
  match t with
  | TextLeaf text isVisible => [AText text isVisible]
  | ElementBranch f children => AElement f :: flat_map atoms children
  end.

Definition atoms_of (r : option NodeData) : list Atom :=
  match r with
  | Some node_data => atoms (parse_node_data node_data)
  | None => []
  end.

Definition atom_fields (a : Atom) : option ElementFields :=
  match a with
  | AElement f => Some f
  | AText _ _ => None
  end.

Definition atom_index (a : Atom) : option Z :=
  atom_fields a ≫= en_highlightIndex.

(** The element object of a kept element. *)
Definition element_fields (el : ElementData) (walk : list PathStep)
    (shadowRoot : bool) (highlightIndex : option Z) : ElementFields :=
  {| en_tagName := if truthy (Some (el_nodeName el))
                   then Some (toLowerCase (el_nodeName el)) else None;
     en_xpath := Some (getXPathTree walk true);
     en_highlightIndex := highlightIndex;
     en_attributes := copy_attributes el;
     en_isVisible := isElementVisible el;
     en_isInteractive := isInteractiveElement el;
     en_isTopElement := isTopElement el;
     en_shadowRoot := shadowRoot |}.

(** The element object of a node that is neither a text nor an element. *)
Definition other_fields : ElementFields :=
  {| en_tagName := None; en_xpath := None; en_highlightIndex := None;
     en_attributes := ∅; en_isVisible := false; en_isInteractive := false;
     en_isTopElement := false; en_shadowRoot := false |}.

(** The element meets the three criteria of the builder. *)
Definition meets_criteria (el : ElementData) : bool :=
  isInteractiveElement el && isElementVisible el && isTopElement el.

(** The state after the builder has classified an element. *)
Definition classified (doHighlightElements : bool) (el : ElementData)
    (parentIframe : bool) (st : BuildState) : BuildState :=
  if meets_criteria el
  then (assign_highlight doHighlightElements el parentIframe st).2
  else st.

(** The element object is the one the builder made from the live element. *)
Definition describes (el : ElementData) (f : ElementFields) : Prop :=
  ∃ walk shadowRoot, f = element_fields el walk shadowRoot (en_highlightIndex f).

(** *** Invariants of the builder *)

(** A run of the builder on the node meets the relation [R] between the
    state before, what is emitted, and the state after. *)
Definition node_invariant (innerHeight : Z) (doHighlightElements : bool)
    (R : BuildState → list Atom → BuildState → Prop) (node : DomNode) : Prop :=
  ∀ walk parentIframe st,
    R st
      (atoms_of (buildDomTree innerHeight doHighlightElements node walk
                              parentIframe st).1)
      (buildDomTree innerHeight doHighlightElements node walk parentIframe st).2.

(** The string does not start with white space. *)
Definition starts_clean (s : string) : Prop :=
  match s with
  | String c _ => Ascii.is_space c = false
  | EmptyString => True
  end.

(** What holds of every text node and element object of a snapshot. *)
Definition kept_atom (a : Atom) : Prop :=
  match a with
  | AText text isVisible => isVisible = true ∧ text ≠ "" ∧ trimmed text
  | AElement f => ∀ tag, en_tagName f = Some tag → tag ∉ leafElementDenyList
  end.

(** What a run of the builder from [st] to [st'] that emitted [l] does to
    [window.clickable_elements]: it fills the keys from the counter of [st]
    up to the counter of [st'], each with the live element of the element
    object that carries the key, and touches no other key. *)
Definition registered (st : BuildState) (l : list Atom) (st' : BuildState) : Prop :=
  bs_highlightIndex st ≤ bs_highlightIndex st'
  ∧ (∀ i, i < bs_highlightIndex st ∨ bs_highlightIndex st' ≤ i →
          bs_clickable_elements st' !! i = bs_clickable_elements st !! i)
  ∧ (∀ i, bs_highlightIndex st ≤ i < bs_highlightIndex st' →
          is_Some (bs_clickable_elements st' !! i))
  ∧ (∀ f i, AElement f ∈ l → en_highlightIndex f = Some i →
            bs_highlightIndex st ≤ i < bs_highlightIndex st'
            ∧ ∃ el, bs_clickable_elements st' !! i = Some el ∧ describes el f).

(** What a run of the builder adds to the overlay: one box per index handed
    out, labelled with the index, when highlighting is on. *)
Definition boxed (doHighlightElements : bool) (st : BuildState) (l : list Atom)
    (st' : BuildState) : Prop :=
  (bs_overlay st').*1
  = (bs_overlay st).*1 ++ (if doHighlightElements then omap atom_index l else []).

(** The builder does not see what [prune_denied] takes away. *)
Definition prune_unseen (innerHeight : Z) (doHighlightElements : bool)
    (node : DomNode) : Prop :=
  ∀ walk parentIframe st,
    buildDomTree innerHeight doHighlightElements (prune_denied node) walk
                 parentIframe st
    = buildDomTree innerHeight doHighlightElements node walk parentIframe st.

(** The snapshot and the core of the state do not depend on highlighting. *)
Definition core_independent (innerHeight : Z) (node : DomNode) : Prop :=
  ∀ d1 d2 walk parentIframe st1 st2,
    same_core st1 st2 →
    (buildDomTree innerHeight d1 node walk parentIframe st1).1
    = (buildDomTree innerHeight d2 node walk parentIframe st2).1
    ∧ same_core (buildDomTree innerHeight d1 node walk parentIframe st1).2
                (buildDomTree innerHeight d2 node walk parentIframe st2).2.


(** ** Example inputs *)

(** A rendered, unobstructed element with the given node name and attributes
    and no handlers. *)
Definition rendered_element (nodeName : string) (attributes : list (string * string))
    : ElementData :=
  {| el_nodeName := nodeName; el_attributes := attributes;
     el_onclick := false; el_onmousedown := false; el_onmouseup := false;
     el_ontouchstart := false; el_ontouchend := false;
     el_listeners := ProbeUnavailable; el_draggable := false;
     el_offsetWidth := 120; el_offsetHeight := 24;
     el_visibility := "visible"; el_display := "block";
     el_in_window_document := true; el_root_is_shadow := false;
     el_is_iframe := false; el_hit := HitWalk true |}.

Definition rendered_text (textContent : string) : DomNode :=
  TextNode {| tx_textContent := textContent; tx_rect_width := 40;
              tx_rect_height := 16; tx_rect_top := 8;
              tx_parent_checkVisibility := Some true |}.

Definition plain_element (nodeName : string) (attributes : list (string * string))
    (childNodes : list DomNode) : DomNode :=
  ElementNode (rendered_element nodeName attributes) None None childNodes.

(** A page: a greeting, a text input, a button that holds a focusable span,
    a comment, a script, and a host whose shadow tree holds a link. *)
Definition example_body : DomNode :=
  plain_element "BODY" []
    [ rendered_text " Welcome ";
      plain_element "INPUT" [("type", "text"); ("name", "q")] [];
      plain_element "BUTTON" [("id", "go")]
        [ rendered_text "Go";
          plain_element "SPAN" [("tabindex", "0")] [rendered_text "now"] ];
      OtherNode;
      plain_element "SCRIPT" [] [rendered_text "track()"];
      ElementNode (rendered_element "DIV" [])
        (Some [plain_element "A" [("href", "/")] [rendered_text "home"]])
        None
        [rendered_text "tail"] ].

Definition example_window : Window :=
  {| win_innerHeight := 768;
     win_body := Some example_body;
     win_body_walk :=
       [ {| ps_nodeName := "BODY"; ps_previous := [None; Some "HEAD"];
            ps_next := []; ps_parent := ParentElement |};
         {| ps_nodeName := "HTML"; ps_previous := [None]; ps_next := [];
            ps_parent := ParentOther |} ] |}.

Definition example_snapshot : ElementTree :=
  default (TextLeaf "" false) (snapshot example_window true).

(** A [div] whose only signal is [tabindex] with the given value. *)
Definition div_with_tabindex (value : string) : ElementData :=
  rendered_element "DIV" [("tabindex", value)].

(** The first of two sibling [div]s, directly below the document. *)
Definition first_of_two_divs : PathStep :=
  {| ps_nodeName := "DIV"; ps_previous := []; ps_next := [Some "DIV"];
     ps_parent := ParentOther |}.

(** A document whose root element holds one overlay container. *)
Definition example_document : list DomNode :=
  [ OtherNode;
    plain_element "HTML" []
      [ plain_element "HEAD" [] [];
        plain_element "BODY" [] [plain_element "BUTTON" [("id", "go")] []];
        plain_element "DIV" [("id", "playwright-highlight-container")]
          [ plain_element "DIV" [] [];
            plain_element "DIV" [("class", "playwright-highlight-label")] [] ] ] ].

(** ** A driver to run examples on

    Pages are numbered as they are opened; every page holds one button, at
    [html/body/button], and every call succeeds. *)
Definition example_driver : Driver := {|
  World := nat;
  Page := nat;
  ElementHandle := string;
  Bytes := string;
  drv_new_page := λ w, (Ok (S w), S w);
  drv_goto := λ _ _ w, (Ok (), w);
  drv_wait_for_load_state := λ _ w, (Ok (), w);
  drv_title := λ _ w, (Ok "Example Domain", w);
  drv_url := λ _ _, "https://example.test/";
  drv_query_selector := λ _ xpath w,
    (Ok match xpath with
        | VStr "html/body/button" => Some "button"
        | _ => None
        end, w);
  drv_fill := λ _ _ w, (Ok (), w);
  drv_click := λ _ _ w, (Ok (), w);
  drv_dblclick := λ _ w, (Ok (), w);
  drv_eval_on_selector := λ _ _ w, (Ok (VBool true), w);
  drv_evaluate_handle := λ _ w, (Ok VNone, w);
  drv_evaluate := λ _ _ _ w, (Ok VNone, w);
  drv_get_clickable_elements := λ _ w,
    (Ok {| er_selector_map :=
             Some {[ KStr "0" := {[ "xpath" := VStr "html/body/button" ]} ]};
           er_element_str := Some (VStr "[0]:<button>OK</button>") |}, w);
  drv_screenshot := λ _ w, (Ok "jpeg", w);
  rt_b64encode := λ b, b
|}.

Definition example_session (page : option nat)
    (selector_map : option (gmap PyKey (gmap string PyVal))) (w : nat)
    : @Session example_driver :=
  @Build_Session example_driver page selector_map w.

(** The selector map of a snapshot of an example page. *)
Definition example_selector_map : gmap PyKey (gmap string PyVal) :=
  {[ KStr "0" := {[ "xpath" := VStr "html/body/button" ]} ]}.

Definition request (action : string) (index : option PyKey) (text : option string)
    : Params :=
  {| p_action := Some action; p_index := index; p_text := text |}.

(** ** Further example inputs *)

(** What [get_clickable_elements] gives on the example page, with the
    default attribute list. *)
Definition example_result : Completion ClickableElements * BuildState :=
  get_clickable_elements example_window true None.

(** The second of two sibling [div]s, directly below the document. *)
Definition second_of_two_divs : PathStep :=
  {| ps_nodeName := "DIV"; ps_previous := [Some "DIV"]; ps_next := [];
     ps_parent := ParentOther |}.





(** A link that holds three text runs, one of them in a [b] and one with a
    line break in it. *)
Definition example_link_window : Window :=
  {| win_innerHeight := 768;
     win_body :=
       Some (plain_element "BODY" []
               [ plain_element "A" [("href", "/")]
                   [ rendered_text " Read ";
                     plain_element "B" [] [rendered_text "much"];
                     rendered_text ("more" +:+ String newline "here") ] ]);
     win_body_walk := win_body_walk example_window |}.

Definition example_link_snapshot : ElementTree :=
  default (TextLeaf "" false) (snapshot example_link_window true).

(** A span with a [mousedown] handler property and nothing else. *)
Definition span_with_mousedown : ElementData :=
  with_pointer_handlers (rendered_element "SPAN" []) true false false false.

(** A select with three options, two of them with blanks around the text. *)
Definition example_select : SelectData :=
  {| sel_tagName := "SELECT";
     sel_options :=
       Some [ {| opt_index := 0; opt_text := " Red "; opt_value := "r" |};
              {| opt_index := 1; opt_text := "Green"; opt_value := "g" |};
              {| opt_index := 2; opt_text := "Red"; opt_value := "r2" |} ];
     sel_id := "colour"; sel_name := Some "colour" |}.

(** A page with a main element that holds two articles. *)
Definition example_content : ContentPage :=
  {| page_main :=
       Some {| main_innerText := "ignored";
               main_articles := ["  One  two "; String newline "Three"] |};
     page_articles := [];
     page_innerText := "menu" |}.

(** Five tasks of two domains. *)
Definition example_meta : TaskTable :=
  [("chrome", ["a"; "b"; "c"]); ("gimp", ["d"; "e"])].

(** ** Drivers that fail

    The example driver, except that navigation and the title lookup have
    the given outcomes and the script of [select_dropdown_option] returns
    the given value. *)
Definition scripted_driver (goto : Outcome unit) (title : Outcome string)
    (selected : PyVal) : Driver := {|
  World := nat;
  Page := nat;
  ElementHandle := string;
  Bytes := string;
  drv_new_page := λ w, (Ok (S w), S w);
  drv_goto := λ _ _ w, (goto, w);
  drv_wait_for_load_state := λ _ w, (Ok (), w);
  drv_title := λ _ w, (title, w);
  drv_url := λ _ _, "https://example.test/";
  drv_query_selector := λ _ xpath w,
    (Ok match xpath with
        | VStr "html/body/button" => Some "button"
        | _ => None
        end, w);
  drv_fill := λ _ _ w, (Ok (), w);
  drv_click := λ _ _ w, (Ok (), w);
  drv_dblclick := λ _ w, (Ok (), w);
  drv_eval_on_selector := λ _ _ w, (Ok (VBool true), w);
  drv_evaluate_handle := λ _ w, (Ok VNone, w);
  drv_evaluate := λ _ script _ w,
    (Ok match script with SelectOption => selected | _ => VNone end, w);
  drv_get_clickable_elements := λ _ w,
    (Ok {| er_selector_map :=
             Some {[ KStr "0" := {[ "xpath" := VStr "html/body/button" ]} ]};
           er_element_str := Some (VStr "[0]:<button>OK</button>") |}, w);
  drv_screenshot := λ _ w, (Ok "jpeg", w);
  rt_b64encode := λ b, b
|}.

Definition scripted_session (d : Driver) (page : option (@Page d))
    (selector_map : option (gmap PyKey (gmap string PyVal))) (w : @World d)
    : @Session d :=
  @Build_Session d page selector_map w.

(** What the script of [select_dropdown_option] returns when no option has
    the text asked for. *)
Definition option_not_found : list (string * PyVal) :=
  [("success", VBool false); ("error", VStr "Option not found");
   ("availableOptions", VList [VStr "Red"; VStr "Green"])].

(** A launcher for the example driver: browsers and Playwright instances are
    numbered, and closing and stopping count as one step of the world each. *)
Definition example_launcher : @Launcher example_driver := {|
  Playwright := nat;
  Browser := nat;
  BrowserContext := nat;
  drv_close := λ _ (w : @World example_driver), (Ok (), S w);
  drv_stop := λ _ (w : @World example_driver), (Ok (), S w)
|}.

Definition example_handles : @Handles example_driver example_launcher :=
  @Build_Handles example_driver example_launcher (Some 1%nat) (Some 1%nat) (Some 1%nat).


(** * Properties *)

(** ** Element classifier *)

Lemma strict_eq_true (a : option string) (lit : string) :
  strict_eq a lit = true ↔ a = Some lit.
Proof.
  destruct a as [s|]; simpl.
  - rewrite String.eqb_eq. split; [by intros ->|by intros [= ->]].
  - split; [done|discriminate].
Qed.

(** The verdict of the classifier is the tab-index test or any other signal. *)
Lemma isInteractiveElement_signals (el : ElementData) :
  isInteractiveElement el
  = other_signals el
    || (bool_decide (getAttribute el "tabindex" ≠ None)
        && negb (strict_eq (getAttribute el "tabindex") "-1")).
Proof.
  unfold isInteractiveElement, hasInteractiveRole, other_signals.
  destruct (bool_decide (toLowerCase (el_nodeName el) ∈ interactiveElements)); [done|].
  destruct (set_has interactiveRoles (getAttribute el "role")); [done|].
  destruct (set_has interactiveRoles (getAttribute el "aria-role")); [done|].
  destruct (bool_decide (getAttribute el "tabindex" ≠ None)
            && negb (strict_eq (getAttribute el "tabindex") "-1"));
    cbn [orb]; [by rewrite orb_true_r|].
  destruct (strict_eq (getAttribute el "data-action") "a-dropdown-select"); [done|].
  destruct (strict_eq (getAttribute el "data-action") "a-dropdown-button"); [done|].
  cbn [orb]. by rewrite orb_false_r.
Qed.

(** C7, as amended: an element whose only interactivity signal is its
    [tabindex] attribute is classified interactive exactly when the attribute
    is present and its value is not the string [-1]; the value is compared
    as a string and never read as a number. *)
Theorem tabindex_signal_is_any_value_but_minus_one (el : ElementData) :
  other_signals el = false →
  isInteractiveElement el = true
  ↔ ∃ v, getAttribute el "tabindex" = Some v ∧ v ≠ "-1".
Proof.
  intros Hother. rewrite isInteractiveElement_signals, Hother. cbn [orb].
  rewrite andb_true_iff, bool_decide_eq_true, negb_true_iff.
  split.
  - intros [Hsome Hne]. destruct (getAttribute el "tabindex") as [v|] eqn:Hv; [|done].
    exists v. split; [done|]. intros ->. by rewrite (proj2 (strict_eq_true _ _)) in Hne.
  - intros (v & -> & Hne). split; [done|].
    apply not_true_is_false. rewrite strict_eq_true. by intros [= ->].
Qed.

(** C7, witness: a [div] with [tabindex] 3 and no other signal. *)
Lemma tabindex_signal_is_any_value_but_minus_one_witness :
  other_signals (div_with_tabindex "3") = false
  ∧ (isInteractiveElement (div_with_tabindex "3") = true
     ↔ ∃ v, getAttribute (div_with_tabindex "3") "tabindex" = Some v ∧ v ≠ "-1").
Proof.
  split; [vm_compute; reflexivity|].
  apply (tabindex_signal_is_any_value_but_minus_one (div_with_tabindex "3")).
  vm_compute; reflexivity.
Defined.

(** C7, counterexample: a [div] whose only signal is [tabindex] -2 has a
    negative tab index and is classified interactive. *)
Lemma negative_tabindex_is_interactive :
  other_signals (div_with_tabindex "-2") = false
  ∧ getAttribute (div_with_tabindex "-2") "tabindex" ≫= parse_integer = Some (-2)
  ∧ nonnegative_tabindex (div_with_tabindex "-2") = false
  ∧ isInteractiveElement (div_with_tabindex "-2") = true.
Proof. repeat split; vm_compute; reflexivity. Qed.

(** ** Structural locators *)

Lemma same_name_before_length (name : string) (previous : list (option string)) :
  same_name_before name previous
  = Z.of_nat (length (filter (λ x, same_name name x = true) previous)).
Proof.
  induction previous as [|[n|] rest IH]; [done|..]; cbn [same_name_before].
  - rewrite IH.
    destruct (String.eqb n name) eqn:E.
    + apply String.eqb_eq in E as ->.
      rewrite filter_cons_True by (by apply bool_decide_eq_true).
      cbn [length]. lia.
    + apply String.eqb_neq in E.
      rewrite filter_cons_False; [lia|].
      intros Hn. apply bool_decide_eq_true in Hn. by simplify_eq.
  - rewrite IH, filter_cons_False; [done|].
    intros Hn. by apply bool_decide_eq_true in Hn.
Qed.




(** ** Overlay removal *)

(** Induction over a node and the nodes below it in its own tree. *)
Lemma DomNode_tree_ind (P : DomNode → Prop) :
  (∀ t, P (TextNode t)) →
  P OtherNode →
  (∀ el shadowRoot frameBody childNodes,
      Forall P childNodes → P (ElementNode el shadowRoot frameBody childNodes)) →
  ∀ node, P node.
Proof.
  intros Htext Hother Helement.
  fix IH 1. intros [t| |el shadowRoot frameBody childNodes]; [done..|].
  apply Helement. induction childNodes as [|child rest IHrest]; constructor; auto.
Qed.

Section overlay.
Variable id : string.
Implicit Types (node : DomNode) (nodes : list DomNode) (p : position).
Local Open Scope nat_scope.

Lemma find_by_id_element el shadowRoot frameBody childNodes :
  find_by_id id (ElementNode el shadowRoot frameBody childNodes)
  = if has_id id (ElementNode el shadowRoot frameBody childNodes) then Some []
    else find_among id childNodes 0.
Proof.
  cbn [find_by_id]. destruct (has_id _ _); [done|].
  generalize 0. induction childNodes as [|child rest IH]; intros i; [done|].
  cbn [find_among]. destruct (find_by_id id child); [done|]. apply IH.
Qed.

Lemma count_id_element el shadowRoot frameBody childNodes :
  count_id id (ElementNode el shadowRoot frameBody childNodes)
  = (if has_id id (ElementNode el shadowRoot frameBody childNodes) then 1 else 0)
    + count_among id childNodes.
Proof.
  cbn [count_id]. f_equal.
  induction childNodes as [|child rest IH]; [done|].
  cbn [count_among]. by rewrite <-IH.
Qed.

Lemma count_id_leaf node :
  (∀ el sh fr kids, node ≠ ElementNode el sh fr kids) → count_id id node = 0.
Proof. destruct node; [done..|]. intros Hne. by destruct (Hne el shadowRoot frameBody childNodes). Qed.

(** Nothing is found exactly where nothing carries the id. *)
Lemma find_by_id_None node : find_by_id id node = None ↔ count_id id node = 0.
Proof.
  induction node as [t| |el sh fr kids IH] using DomNode_tree_ind; [easy..|].
  rewrite find_by_id_element, count_id_element.
  destruct (has_id _ _); [split; [done|intros ?; lia]|]. cbn [Nat.add].
  generalize 0 at 1. induction IH as [|child rest Hchild _ IHrest]; intros i; [easy|].
  cbn [find_among count_among].
  destruct (find_by_id id child) as [p|] eqn:Hfind.
  - split; [done|]. intros Hc. assert (count_id id child = 0) as Hc0 by lia.
    apply Hchild in Hc0. done.
  - rewrite (proj1 Hchild eq_refl). apply IHrest.
Qed.

Lemma find_among_None nodes i : find_among id nodes i = None ↔ count_among id nodes = 0.
Proof.
  revert i. induction nodes as [|child rest IH]; intros i; [easy|].
  cbn [find_among count_among].
  destruct (find_by_id id child) as [p|] eqn:Hfind.
  - split; [done|]. intros Hc. assert (count_id id child = 0) as Hc0 by lia.
    apply find_by_id_None in Hc0. congruence.
  - apply find_by_id_None in Hfind. rewrite Hfind. apply IH.
Qed.

(** Where the search ends: at a child, then inside it. *)
Lemma find_among_Some nodes i p :
  find_among id nodes i = Some p →
  ∃ j q node, p = (i + j) :: q ∧ nodes !! j = Some node ∧ find_by_id id node = Some q.
Proof.
  revert i. induction nodes as [|child rest IH]; intros i; [done|].
  cbn [find_among]. destruct (find_by_id id child) as [q|] eqn:Hfind.
  - intros [= <-]. exists 0, q, child. by rewrite Nat.add_0_r.
  - intros (j & q & node & -> & Hj & Hq)%IH.
    exists (S j), q, node. split; [f_equal; lia|done].
Qed.

Lemma count_among_delete nodes j node :
  nodes !! j = Some node →
  count_among id (delete j nodes) + count_id id node = count_among id nodes.
Proof.
  revert j. induction nodes as [|child rest IH]; intros [|j]; try done.
  - intros [= ->]. cbn. lia.
  - intros Hj. specialize (IH j Hj).
    change (delete (S j) (child :: rest)) with (child :: delete j rest).
    cbn [count_among]. lia.
Qed.

Lemma count_among_alter (f : DomNode → DomNode) nodes j node :
  nodes !! j = Some node →
  count_among id (alter f j nodes) + count_id id node
  = count_among id nodes + count_id id (f node).
Proof.
  revert j. induction nodes as [|child rest IH]; intros [|j]; try done.
  - intros [= ->]. cbn. lia.
  - intros Hj. specialize (IH j Hj).
    change (alter f (S j) (child :: rest)) with (child :: alter f j rest).
    cbn [count_among]. lia.
Qed.

(** Removing the element that was found removes at least that one. *)
Lemma count_among_remove_found p : ∀ nodes,
  find_among id nodes 0 = Some p →
  count_among id (remove_at p nodes) < count_among id nodes.
Proof.
  induction p as [|i q IH]; intros nodes Hfind.
  { by apply find_among_Some in Hfind as (? & ? & ? & ? & _). }
  apply find_among_Some in Hfind as (j & q' & node & [= -> <-] & Hj & Hq).
  cbn [Nat.add].
  destruct node as [t| |el sh fr kids]; [done..|].
  rewrite find_by_id_element in Hq.
  destruct (has_id id (ElementNode el sh fr kids)) eqn:Hid.
  - injection Hq as <-. cbn [remove_at].
    pose proof (count_among_delete nodes j _ Hj) as Hc.
    rewrite count_id_element, Hid in Hc. lia.
  - destruct q as [|k q]; [by apply find_among_Some in Hq as (? & ? & ? & ? & _)|].
    change (remove_at (j :: k :: q) nodes)
      with (alter (with_childNodes (remove_at (k :: q))) j nodes).
    pose proof (count_among_alter (with_childNodes (remove_at (k :: q))) nodes j _ Hj)
      as Hc.
    cbn [with_childNodes] in Hc. rewrite !count_id_element in Hc.
    replace (has_id id (ElementNode el sh fr (remove_at (k :: q) kids)))
      with (has_id id (ElementNode el sh fr kids)) in Hc by done.
    specialize (IH kids Hq). lia.
Qed.
End overlay.

(** C8: in a document with at most one overlay container, one call of
    [remove_highlight] leaves none, so that a second call changes nothing;
    and where there is no container the call changes nothing.  The function
    is total: no call raises. *)
Theorem remove_highlight_idempotent (document : list DomNode) :
  (count_among highlight_container_id document ≤ 1)%nat →
  getElementById (remove_highlight document) highlight_container_id = None
  ∧ remove_highlight (remove_highlight document) = remove_highlight document
  ∧ (getElementById document highlight_container_id = None →
     remove_highlight document = document).
Proof.
  intros Hone.
  assert (getElementById (remove_highlight document) highlight_container_id = None)
    as Hgone.
  { unfold remove_highlight, getElementById.
    destruct (find_among _ document 0) as [p|] eqn:Hfind; [|done].
    apply find_among_None. apply count_among_remove_found in Hfind. lia. }
  split; [done|]. split.
  - unfold remove_highlight at 1. by rewrite Hgone.
  - intros Hnone. unfold remove_highlight. by rewrite Hnone.
Qed.

(** C8, witness: a document with one overlay container. *)
Lemma remove_highlight_idempotent_witness :
  (count_among highlight_container_id example_document ≤ 1)%nat
  ∧ getElementById (remove_highlight example_document) highlight_container_id = None
  ∧ remove_highlight (remove_highlight example_document)
    = remove_highlight example_document.
Proof.
  assert (count_among highlight_container_id example_document ≤ 1)%nat as Hone
    by (vm_compute; lia).
  split; [exact Hone|].
  destruct (remove_highlight_idempotent example_document Hone) as (Hgone & Hsame & _).
  by split.
Defined.

(** ** Snapshot builder *)

(** Induction over a node and every node the builder reaches from it: shadow
    children, the body of a framed document, and child nodes. *)
Lemma DomNode_deep_ind (P : DomNode → Prop) :
  (∀ t, P (TextNode t)) →
  P OtherNode →
  (∀ el shadowRoot frameBody childNodes,
      (∀ nodes, shadowRoot = Some nodes → Forall P nodes) →
      (∀ body_walk nodes, frameBody = Some (body_walk, nodes) → Forall P nodes) →
      Forall P childNodes →
      P (ElementNode el shadowRoot frameBody childNodes)) →
  ∀ node, P node.
Proof.
  intros Htext Hother Helement.
  fix IH 1. intros [t| |el shadowRoot frameBody childNodes]; [done..|].
  apply Helement.
  - destruct shadowRoot as [nodes0|]; [|done]. intros nodes [= <-].
    induction nodes0 as [|child rest IHrest]; constructor; auto.
  - destruct frameBody as [[walk0 nodes0]|]; [|done]. intros body_walk nodes [= _ <-].
    induction nodes0 as [|child rest IHrest]; constructor; auto.
  - induction childNodes as [|child rest IHrest]; constructor; auto.
Qed.

Lemma parse_node_data_node (f : NodeFields) (children : list (option NodeData)) :
  parse_node_data (NdNode f children)
  = ElementBranch (parse_fields f) (parse_children children).
Proof. reflexivity. Qed.

Lemma parse_children_app (l1 l2 : list (option NodeData)) :
  parse_children (l1 ++ l2) = parse_children l1 ++ parse_children l2.
Proof.
  induction l1 as [|[child|] rest IH]; [done|..]; cbn; by rewrite IH.
Qed.

Lemma elements_preorder_parse_children (children : list (option NodeData)) :
  flat_map elements_preorder (parse_children children)
  = flat_map elements_of children.
Proof.
  induction children as [|[child|] rest IH]; [done|..]; cbn; by rewrite IH.
Qed.

Lemma omap_cons_app {A B} (f : A → option B) (x : A) (l : list A) :
  omap f (x :: l) = match f x with Some y => [y] | None => [] end ++ omap f l.
Proof. cbn. by destruct (f x). Qed.

Lemma truthy_toLowerCase (s : string) :
  truthy (Some (toLowerCase s)) = truthy (Some s).
Proof. by destruct s. Qed.

Lemma counted_nil (st : BuildState) : counted st st [].
Proof. unfold counted. rewrite Z.sub_diag. by split; [lia|split]. Qed.

Lemma counted_app (st1 st2 st3 : BuildState) (fs gs : list ElementFields) :
  counted st1 st2 fs → counted st2 st3 gs → counted st1 st3 (fs ++ gs).
Proof.
  intros (Hle1 & Hfs & Hq1) (Hle2 & Hgs & Hq2). split; [lia|]. split.
  - rewrite omap_app, Hfs, Hgs.
    replace (bs_highlightIndex st3 - bs_highlightIndex st1)
      with ((bs_highlightIndex st2 - bs_highlightIndex st1)
            + (bs_highlightIndex st3 - bs_highlightIndex st2)) by lia.
    rewrite seqZ_app by lia. do 2 f_equal. lia.
  - by apply Forall_app.
Qed.

Section builder.
Variables (innerHeight : Z) (doHighlightElements : bool).
Implicit Types (node : DomNode) (nodes : list DomNode) (st : BuildState).

Abbreviation build := (buildDomTree innerHeight doHighlightElements).
Abbreviation build_all := (buildChildren innerHeight doHighlightElements).

Lemma buildElement_ext children1 children2 el shadowRoot frameBody childNodes
    walk parentIframe st :
  (∀ nodes parent up previous pif st0,
      children1 nodes parent up previous pif st0
      = children2 nodes parent up previous pif st0) →
  buildElement doHighlightElements children1 el shadowRoot frameBody childNodes
               walk parentIframe st
  = buildElement doHighlightElements children2 el shadowRoot frameBody childNodes
                 walk parentIframe st.
Proof.
  intros Hext. unfold buildElement.
  destruct (if isInteractiveElement el && isElementVisible el && isTopElement el
            then _ else _) as [highlightIndex st1].
  destruct shadowRoot as [nodes|]; rewrite ?Hext.
  - destruct (children2 nodes _ _ _ _ st1) as [shadowChildren st2].
    destruct (String.eqb _ _); [destruct frameBody as [[body_walk fnodes]|]|];
      by rewrite ?Hext.
  - destruct (String.eqb _ _); [destruct frameBody as [[body_walk fnodes]|]|];
      by rewrite ?Hext.
Qed.

(** The element case of [buildDomTree], with its loop named. *)
Lemma buildDomTree_element el shadowRoot frameBody childNodes walk parentIframe st :
  build (ElementNode el shadowRoot frameBody childNodes) walk parentIframe st
  = if negb (isElementAccepted el) then (None, st)
    else buildElement doHighlightElements build_all el shadowRoot frameBody
                      childNodes walk parentIframe st.
Proof.
  cbn [buildDomTree]. destruct (negb (isElementAccepted el)); [done|].
  apply buildElement_ext.
  induction nodes as [|child rest IHrest]; intros; [done|].
  cbn [buildChildren]. destruct (build child _ _ _) as [data st1].
  by rewrite IHrest.
Qed.

Lemma assign_highlight_index el parentIframe st :
  (assign_highlight doHighlightElements el parentIframe st).1 = bs_highlightIndex st
  ∧ bs_highlightIndex (assign_highlight doHighlightElements el parentIframe st).2
    = bs_highlightIndex st + 1.
Proof. unfold assign_highlight. by destruct doHighlightElements. Qed.

(** The three stages of [buildElement], each with what it guarantees. *)
Lemma assign_stage (q : bool) el parentIframe st :
  ∃ index st1,
    (if q then let '(index, st) :=
                 assign_highlight doHighlightElements el parentIframe st in
               (Some index, st)
     else (None, st)) = (index, st1)
    ∧ index = (if q then Some (bs_highlightIndex st) else None)
    ∧ bs_highlightIndex st1 = bs_highlightIndex st + (if q then 1 else 0).
Proof.
  destruct q.
  - pose proof (assign_highlight_index el parentIframe st) as [Hi Hs].
    destruct (assign_highlight _ el parentIframe st) as [i st1]. cbn in *.
    exists (Some i), st1. by subst.
  - exists None, st. split; [done|]. split; [done|lia].
Qed.

Lemma buildChildren_counted nodes :
  Forall (node_counted innerHeight doHighlightElements) nodes →
  ∀ parent up previous parentIframe st,
    counted st (build_all nodes parent up previous parentIframe st).2
            (flat_map elements_of
                      (build_all nodes parent up previous parentIframe st).1).
Proof.
  induction 1 as [|child rest Hchild _ IH]; intros parent up previous pif st.
  { apply counted_nil. }
  cbn [buildChildren].
  match goal with |- context [build child ?w pif st] =>
    specialize (Hchild w pif st); destruct (build child w pif st) as [data st1]
  end.
  specialize (IH parent up (sibling_name child :: previous) pif st1).
  destruct (build_all rest _ _ _ _ st1) as [others st2].
  cbn [fst snd flat_map] in *. by eapply counted_app.
Qed.

Lemma shadow_stage_counted (shadowRoot : option (list DomNode)) parentIframe st :
  (∀ nodes, shadowRoot = Some nodes →
            Forall (node_counted innerHeight doHighlightElements) nodes) →
  ∃ shadowChildren st',
    match shadowRoot with
    | Some nodes => build_all nodes (shadow_kind parentIframe) [] [] parentIframe st
    | None => ([], st)
    end = (shadowChildren, st')
    ∧ counted st st' (flat_map elements_of shadowChildren).
Proof.
  intros Hshadow. destruct shadowRoot as [nodes|].
  - pose proof (buildChildren_counted nodes (Hshadow nodes eq_refl)
                  (shadow_kind parentIframe) [] [] parentIframe st) as Hc.
    destruct (build_all nodes _ _ _ _ st) as [cs st']. by exists cs, st'.
  - exists [], st. split; [done|apply counted_nil].
Qed.

Lemma light_stage_counted el (frameBody : option (list PathStep * list DomNode))
    childNodes walk parentIframe st :
  (∀ body_walk nodes, frameBody = Some (body_walk, nodes) →
                      Forall (node_counted innerHeight doHighlightElements) nodes) →
  Forall (node_counted innerHeight doHighlightElements) childNodes →
  ∃ lightChildren st',
    (if String.eqb (el_nodeName el) "IFRAME"
     then match frameBody with
          | Some (body_walk, nodes) =>
              build_all nodes ParentElement body_walk [] true st
          | None => ([], st)
          end
     else build_all childNodes (child_kind (el_is_iframe el)) walk [] parentIframe st)
    = (lightChildren, st')
    ∧ counted st st' (flat_map elements_of lightChildren).
Proof.
  intros Hframe Hlight.
  destruct (String.eqb _ _); [destruct frameBody as [[body_walk nodes]|]|].
  - pose proof (buildChildren_counted nodes (Hframe body_walk nodes eq_refl)
                  ParentElement body_walk [] true st) as Hc.
    destruct (build_all nodes _ _ _ _ st) as [cs st']. by exists cs, st'.
  - exists [], st. split; [done|apply counted_nil].
  - pose proof (buildChildren_counted childNodes Hlight
                  (child_kind (el_is_iframe el)) walk [] parentIframe st) as Hc.
    destruct (build_all childNodes _ _ _ _ st) as [cs st']. by exists cs, st'.
Qed.

(** Every call of [buildDomTree] hands out the next values of the counter, in
    pre-order, to exactly the elements that qualify. *)
Lemma buildDomTree_counted node : node_counted innerHeight doHighlightElements node.
Proof.
  induction node as [t| |el shadowRoot frameBody childNodes Hshadow Hframe Hlight]
    using DomNode_deep_ind; intros walk pif st.
  - cbn [buildDomTree]. destruct (_ && _); cbn; apply counted_nil.
  - cbn. unfold counted. rewrite Z.sub_diag. split; [lia|]. split; [done|].
    repeat constructor; unfold indexed_iff_qualifies; cbn;
      [by intros [? ?]|discriminate].
  - rewrite buildDomTree_element.
    destruct (negb (isElementAccepted el)); [apply counted_nil|].
    unfold buildElement.
    set (q := isInteractiveElement el && isElementVisible el && isTopElement el).
    destruct (assign_stage q el pif st) as (index & st1 & -> & -> & Hst1).
    destruct (shadow_stage_counted shadowRoot pif st1 Hshadow)
      as (shadowChildren & st2 & -> & Hc2).
    destruct (light_stage_counted el frameBody childNodes walk pif st2 Hframe Hlight)
      as (lightChildren & st3 & -> & Hc3).
    cbn [fst snd elements_of]. rewrite parse_node_data_node.
    cbn [elements_preorder]. rewrite elements_preorder_parse_children, flat_map_app.
    pose proof (counted_app _ _ _ _ _ Hc2 Hc3) as (Hle & Hrest & Hq).
    split; [destruct q; lia|]. split.
    + rewrite omap_cons_app, Hrest.
      cbn [parse_fields en_highlightIndex nd_highlightIndex]. destruct q; cbn.
      * rewrite (seqZ_cons (bs_highlightIndex st)) by lia.
        f_equal. f_equal; lia.
      * f_equal; lia.
    + constructor; [|done]. unfold indexed_iff_qualifies, qualifies.
      cbn. fold q. destruct q eqn:Hq0.
      * unfold q in Hq0. apply andb_true_iff in Hq0 as [[Hi Hv]%andb_true_iff Ht].
        rewrite Hi, Hv, Ht. by split.
      * split; [by intros [? ?]|]. intros Hq1.
        unfold q in Hq0. destruct (isInteractiveElement el), (isElementVisible el),
          (isTopElement el); done.
Qed.

Lemma buildChildren_wf nodes :
  Forall (builds_wf innerHeight doHighlightElements) nodes →
  forallb dom_named nodes = true →
  ∀ parent up previous parentIframe st,
    forallb snapshot_tree_wf
      (parse_children (build_all nodes parent up previous parentIframe st).1)
    = true.
Proof.
  induction 1 as [|child rest Hchild _ IH]; intros Hnamed parent up previous pif st;
    [done|].
  cbn [forallb] in Hnamed. apply andb_true_iff in Hnamed as [Hn1 Hn2].
  cbn [buildChildren].
  match goal with |- context [build child ?w pif st] =>
    specialize (Hchild Hn1 w pif st); destruct (build child w pif st) as [data st1]
  end.
  specialize (IH Hn2 parent up (sibling_name child :: previous) pif st1).
  destruct (build_all rest _ _ _ _ st1) as [others st2].
  cbn [fst] in *. destruct data as [node_data|]; cbn [parse_children forallb]; [|done].
  by rewrite (Hchild node_data eq_refl).
Qed.

(** Over a document whose elements all have a node name, the builder makes
    well-formed trees. *)
Lemma buildDomTree_wf node : builds_wf innerHeight doHighlightElements node.
Proof.
  induction node as [t| |el shadowRoot frameBody childNodes Hshadow Hframe Hlight]
    using DomNode_deep_ind; intros Hnamed walk pif st node_data.
  - cbn [buildDomTree]. destruct (truthy _) eqn:Htext; cbn [andb]; [|done].
    destruct (isTextNodeVisible _ _); [|done]. by intros [= <-].
  - by intros [= <-].
  - cbn [dom_named] in Hnamed.
    apply andb_true_iff in Hnamed as [[[Hname Hs]%andb_true_iff Hf]%andb_true_iff Hl].
    rewrite buildDomTree_element.
    destruct (negb (isElementAccepted el)); [done|].
    unfold buildElement.
    destruct (if isInteractiveElement el && isElementVisible el && isTopElement el
              then _ else _) as [highlightIndex st1].
    assert (∃ shadowChildren st2,
      match shadowRoot with
      | Some nodes => build_all nodes (shadow_kind pif) [] [] pif st1
      | None => ([], st1)
      end = (shadowChildren, st2)
      ∧ forallb snapshot_tree_wf (parse_children shadowChildren) = true)
      as (shadowChildren & st2 & -> & Hw2).
    { destruct shadowRoot as [nodes|].
      - pose proof (buildChildren_wf nodes (Hshadow nodes eq_refl) Hs
                      (shadow_kind pif) [] [] pif st1) as Hw.
        destruct (build_all nodes _ _ _ _ st1) as [cs st2]. by exists cs, st2.
      - by exists [], st1. }
    assert (∃ lightChildren st3,
      (if String.eqb (el_nodeName el) "IFRAME"
       then match frameBody with
            | Some (body_walk, nodes) =>
                build_all nodes ParentElement body_walk [] true st2
            | None => ([], st2)
            end
       else build_all childNodes (child_kind (el_is_iframe el)) walk [] pif st2)
      = (lightChildren, st3)
      ∧ forallb snapshot_tree_wf (parse_children lightChildren) = true)
      as (lightChildren & st3 & -> & Hw3).
    { destruct (String.eqb _ _); [destruct frameBody as [[body_walk nodes]|]|].
      - pose proof (buildChildren_wf nodes (Hframe body_walk nodes eq_refl) Hf
                      ParentElement body_walk [] true st2) as Hw.
        destruct (build_all nodes _ _ _ _ st2) as [cs st3]. by exists cs, st3.
      - by exists [], st2.
      - pose proof (buildChildren_wf childNodes Hlight Hl
                      (child_kind (el_is_iframe el)) walk [] pif st2) as Hw.
        destruct (build_all childNodes _ _ _ _ st2) as [cs st3]. by exists cs, st3. }
    intros [= <-]. rewrite parse_node_data_node. cbn [snapshot_tree_wf].
    rewrite parse_children_app, forallb_app, Hw2, Hw3.
    cbn -[truthy toLowerCase]. pose proof Hname as Hname'. cbn in Hname'.
    by rewrite Hname', truthy_toLowerCase, Hname.
Qed.
End builder.

(** *** The locators of a snapshot *)




Section locating.
Variables (innerHeight : Z) (doHighlightElements : bool).
Implicit Types (node : DomNode) (nodes : list DomNode) (st : BuildState).

Abbreviation build := (buildDomTree innerHeight doHighlightElements).
Abbreviation build_all := (buildChildren innerHeight doHighlightElements).


End locating.




Lemma omap_seqZ_increasing (fs : list ElementFields) (m n : Z) :
  omap en_highlightIndex fs = seqZ m n →
  ∀ (j k : nat) (f g : ElementFields) (a b : Z),
    (j < k)%nat → fs !! j = Some f → fs !! k = Some g →
    en_highlightIndex f = Some a → en_highlightIndex g = Some b → a < b.
Proof.
  intros Hseq j k f g a b Hjk Hj Hk Ha Hb.
  pose proof (take_drop_middle fs j f Hj) as Hsplit.
  assert (drop (S j) fs !! (k - S j)%nat = Some g) as Hk'.
  { rewrite lookup_drop. rewrite <-Hk. f_equal. lia. }
  pose proof (take_drop_middle _ _ g Hk') as Hsplit'.
  rewrite <-Hsplit' in Hsplit. rewrite <-Hsplit in Hseq.
  rewrite omap_app, omap_cons_app, Ha, omap_app, omap_cons_app, Hb in Hseq.
  set (l1 := omap en_highlightIndex (take j fs)) in *.
  set (l2 := omap en_highlightIndex (take (k - S j) (drop (S j) fs))) in *.
  assert (seqZ m n !! length l1 = Some a) as H1.
  { rewrite <-Hseq. by apply list_lookup_middle. }
  assert (seqZ m n !! (length l1 + S (length l2))%nat = Some b) as H2.
  { rewrite <-Hseq, (app_assoc l1 [a]), (app_assoc _ l2).
    apply list_lookup_middle. rewrite !length_app. cbn. lia. }
  apply lookup_seqZ in H1 as [-> _]. apply lookup_seqZ in H2 as [-> _]. lia.
Qed.

(** C1: in every snapshot, an element carries a highlight index exactly when
    it is visible, interactive and topmost; the indices are pairwise
    distinct and non-negative, they are exactly the integers from 0 up to
    their number (read in pre-order they are 0, 1, 2, ...), and of two
    indexed elements the one that comes first in pre-order has the smaller
    index. *)
Theorem snapshot_highlight_indices (w : Window) (doHighlightElements : bool)
    (t : ElementTree) :
  snapshot w doHighlightElements = Some t →
  (∀ f, f ∈ elements_preorder t →
        is_Some (en_highlightIndex f) ↔ qualifies f = true)
  ∧ NoDup (highlight_indices t)
  ∧ (∀ i, i ∈ highlight_indices t ↔ 0 ≤ i < Z.of_nat (length (highlight_indices t)))
  ∧ highlight_indices t = seqZ 0 (Z.of_nat (length (highlight_indices t)))
  ∧ (∀ (j k : nat) (n m : ElementFields) (a b : Z),
        (j < k)%nat →
        elements_preorder t !! j = Some n → elements_preorder t !! k = Some m →
        en_highlightIndex n = Some a → en_highlightIndex m = Some b → a < b).
Proof.
  unfold snapshot, build_dom_tree, parse_node. intros Hsnap.
  destruct (win_body w) as [body|]; [|done].
  pose proof (buildDomTree_counted (win_innerHeight w) doHighlightElements body
                (win_body_walk w) false initial_state) as (Hle & Hseq & Hq).
  destruct (buildDomTree _ _ body _ _ _) as [[node_data|] st]; [|done].
  cbn in Hsnap. injection Hsnap as <-. cbn [fst snd elements_of] in *.
  change (bs_highlightIndex initial_state) with 0 in *. rewrite Z.sub_0_r in Hseq.
  fold (highlight_indices (parse_node_data node_data)) in Hseq.
  assert (Z.of_nat (length (highlight_indices (parse_node_data node_data)))
          = bs_highlightIndex st) as Hlen.
  { rewrite Hseq, length_seqZ. lia. }
  rewrite Hlen. split; [|split; [|split; [|split]]].
  - intros f Hf. by apply (proj1 (Forall_forall _ _) Hq).
  - rewrite Hseq. apply NoDup_seqZ.
  - intros i. rewrite Hseq, elem_of_seqZ. lia.
  - done.
  - by apply omap_seqZ_increasing with (m := 0) (n := bs_highlightIndex st).
Qed.

(** C1, witness: the snapshot of the example page indexes the input, the
    button, the span and the link, in this order. *)
Lemma snapshot_highlight_indices_witness :
  snapshot example_window true = Some example_snapshot
  ∧ highlight_indices example_snapshot = seqZ 0 4
  ∧ NoDup (highlight_indices example_snapshot).
Proof.
  assert (snapshot example_window true = Some example_snapshot) as Hsnap
    by (vm_compute; reflexivity).
  split; [exact Hsnap|].
  destruct (snapshot_highlight_indices example_window true example_snapshot Hsnap)
    as (_ & Hdistinct & _ & Hdense & _).
  split; [exact Hdense|exact Hdistinct].
Defined.

(** The trees of the builder are well formed. *)
Lemma snapshot_is_wf (w : Window) (doHighlightElements : bool) (t : ElementTree) :
  snapshot w doHighlightElements = Some t →
  from_option dom_named true (win_body w) = true →
  snapshot_tree_wf t = true.
Proof.
  unfold snapshot, build_dom_tree, parse_node. intros Hsnap Hnamed.
  destruct (win_body w) as [body|]; [|done]. cbn in Hnamed.
  destruct (buildDomTree _ _ body _ _ _) as [[node_data|] st] eqn:Hbuild; [|done].
  injection Hsnap as <-.
  eapply (buildDomTree_wf _ _ body Hnamed). by rewrite Hbuild.
Qed.

(** ** Text serialization *)

Lemma ElementTree_deep_ind (P : ElementTree → Prop) :
  (∀ text isVisible, P (TextLeaf text isVisible)) →
  (∀ f children, Forall P children → P (ElementBranch f children)) →
  ∀ node, P node.
Proof.
  intros Htext Hbranch. fix IH 1. intros [text isVisible|f children]; [done|].
  apply Hbranch. induction children as [|child rest IHrest]; constructor; auto.
Qed.

Section attribution.
Implicit Types (node child : ElementTree) (children : list ElementTree)
  (f : ElementFields) (ancestors : list ElementFields) (here p : position)
  (nearest : option position) (i : nat).

Abbreviation outer ancestors := (Serializer.has_parent_with_highlight_index ancestors).

(** *** The recursive functions, with their loops named *)

Lemma Trace_collect_text_branch is_element_node f children :
  Trace.collect_text is_element_node (ElementBranch f children)
  = if truthy (en_tagName f) && negb is_element_node && carries_index f
    then []
    else if truthy (en_tagName f) then Trace.collect_among children 0 else [].
Proof.
  cbn [Trace.collect_text]. fold (carries_index f).
  destruct (_ && _ && _); [done|]. destruct (truthy _); [|done].
  generalize 0%nat. induction children as [|child rest IH]; intros i; [done|].
  cbn [Trace.collect_among]. by rewrite IH.
Qed.

Lemma Trace_process_node_branch here ancestors f children :
  Trace.process_node here ancestors (ElementBranch f children)
  = match en_highlightIndex f with
    | Some index =>
        [Trace.Indexed here f index
           (under here <$> Trace.collect_text true (ElementBranch f children))]
    | None => []
    end ++ Trace.process_among here (f :: ancestors) children 0.
Proof.
  cbn [Trace.process_node]. f_equal.
  generalize 0%nat. induction children as [|child rest IH]; intros i; [done|].
  cbn [Trace.process_among]. by rewrite IH.
Qed.

Lemma runs_with_owner_branch f children here nearest :
  runs_with_owner (ElementBranch f children) here nearest
  = runs_among children here (if carries_index f then Some here else nearest) 0.
Proof.
  cbn [runs_with_owner].
  generalize 0%nat. induction children as [|child rest IH]; intros i; [done|].
  cbn [runs_among]. by rewrite IH.
Qed.

(** *** The trace is the serializer's output *)

Lemma Trace_collect_text_texts node : ∀ is_element_node,
  (Trace.collect_text is_element_node node).*2
  = Serializer.collect_text is_element_node node.
Proof.
  induction node as [text v|f children IH] using ElementTree_deep_ind;
    intros is_element_node.
  { cbn. by destruct (negb _). }
  rewrite Trace_collect_text_branch. cbn [Serializer.collect_text].
  fold (carries_index f). destruct (_ && _ && _); [done|].
  destruct (truthy _); [|done].
  generalize 0%nat. induction IH as [|child rest Hchild _ IHrest]; intros i; [done|].
  cbn [Trace.collect_among flat_map]. rewrite fmap_app, IHrest, <-Hchild.
  f_equal. rewrite <-list_fmap_compose. by apply list_fmap_ext.
Qed.

Lemma under_texts here (runs : list run) : (under here <$> runs).*2 = runs.*2.
Proof. rewrite <-list_fmap_compose. by apply list_fmap_ext. Qed.

(** Formatting the trace gives the strings [Serializer.process_node] pushes. *)
Lemma Trace_process_node_format includeAttributes node : ∀ here ancestors,
  Trace.format includeAttributes <$> Trace.process_node here ancestors node
  = Serializer.process_node includeAttributes ancestors node.
Proof.
  induction node as [text v|f children IH] using ElementTree_deep_ind;
    intros here ancestors.
  { cbn. by destruct (negb _). }
  rewrite Trace_process_node_branch. cbn [Serializer.process_node].
  rewrite fmap_app. f_equal.
  - destruct (en_highlightIndex f) as [index|]; [|done].
    cbn [fmap list_fmap Trace.format].
    unfold Serializer.get_all_text_till_next_clickable_element.
    by rewrite under_texts, Trace_collect_text_texts.
  - generalize 0%nat. induction IH as [|child rest Hchild _ IHrest]; intros i; [done|].
    cbn [Trace.process_among flat_map]. by rewrite fmap_app, IHrest, Hchild.
Qed.

(** *** Every run is held by the line of its nearest indexed ancestor *)

Lemma attributions_app (l1 l2 : list Trace.Line) :
  attributions (l1 ++ l2) = attributions l1 ++ attributions l2.
Proof. unfold attributions. apply bind_app. Qed.

Lemma inherited_below (o : option position) here i (runs : list run) :
  inherited o here (below i <$> runs) = inherited o (here ++ [i]) runs.
Proof.
  unfold inherited. rewrite <-list_fmap_compose. apply list_fmap_ext.
  intros _ [p s] _. unfold under, below. cbn. by rewrite <-app_assoc.
Qed.

Lemma inherited_app (o : option position) here (runs1 runs2 : list run) :
  inherited o here (runs1 ++ runs2)
  = inherited o here runs1 ++ inherited o here runs2.
Proof. unfold inherited. apply fmap_app. Qed.

Lemma attributed_among children ancestors nearest here :
  Forall attributed children →
  forallb snapshot_tree_wf children = true →
  (outer ancestors = false → nearest = None) →
  ∀ i,
    runs_among children here nearest i
    ≡ₚ attributions (Trace.process_among here ancestors children i)
       ++ (if outer ancestors
           then inherited nearest here (Trace.collect_among children i) else []).
Proof.
  intros Hall Hwf Hnearest.
  induction Hall as [|child rest Hchild _ IH]; intros i.
  { by destruct (outer ancestors). }
  cbn [forallb] in Hwf. apply andb_true_iff in Hwf as [Hwf1 Hwf2].
  cbn [runs_among Trace.process_among Trace.collect_among].
  rewrite (Hchild Hwf1 (here ++ [i]) ancestors nearest Hnearest), (IH Hwf2 (S i)).
  rewrite attributions_app. destruct (outer ancestors).
  - rewrite inherited_app, inherited_below, <-!app_assoc.
    apply Permutation_app_head.
    apply Permutation_app_swap_app.
  - by rewrite !app_nil_r.
Qed.

Lemma attributed_node node : attributed node.
Proof.
  induction node as [text v|f children IH] using ElementTree_deep_ind;
    intros Hwf here ancestors nearest Hnearest.
  { cbn in Hwf. cbn. rewrite Hwf. destruct (outer ancestors) eqn:Houter; cbn.
    - unfold under. cbn. by rewrite app_nil_r.
    - by rewrite (Hnearest eq_refl). }
  cbn [snapshot_tree_wf] in Hwf. apply andb_true_iff in Hwf as [Htag Hwf].
  rewrite runs_with_owner_branch, Trace_process_node_branch, attributions_app.
  rewrite !Trace_collect_text_branch. cbn [negb andb].
  rewrite andb_true_r, andb_false_r.
  destruct (truthy (en_tagName f)) eqn:Htruthy; cbn [orb andb] in *.
  - unfold carries_index in *. destruct (en_highlightIndex f) as [index|] eqn:Hindex.
    + rewrite (bool_decide_eq_true_2 (Some index ≠ None)) by done.
      rewrite (attributed_among children (f :: ancestors) (Some here) here IH Hwf)
        by (cbn; by rewrite Hindex).
      cbn [Serializer.has_parent_with_highlight_index]. rewrite Hindex.
      rewrite (bool_decide_eq_true_2 (Some index ≠ None)) by done.
      cbn [attributions mbind list_bind line_attributions].
      assert (inherited nearest here [] = []) as -> by done.
      destruct (outer ancestors); rewrite !app_nil_r.
      all: unfold inherited; rewrite list_fmap_compose; apply Permutation_app_comm.
    + rewrite (bool_decide_eq_false_2 (None ≠ None)) by (by intros []).
      rewrite (attributed_among children (f :: ancestors) nearest here IH Hwf)
        by (cbn; rewrite Hindex; by rewrite bool_decide_eq_false_2 by (by intros [])).
      cbn [Serializer.has_parent_with_highlight_index]. rewrite Hindex.
      rewrite (bool_decide_eq_false_2 (None ≠ None)) by (by intros []).
      done.
  - apply andb_true_iff in Htag as [->%bool_decide_eq_true Hnone].
    apply negb_true_iff in Hnone. rewrite Hnone.
    unfold carries_index in Hnone. destruct (en_highlightIndex f); [done|].
    cbn. by destruct (outer ancestors).
Qed.

(** *** Text runs are told apart by their positions *)

Lemma distinct_among children here nearest :
  Forall distinct_below children →
  ∀ i,
    NoDup ((runs_among children here nearest i).*2.*1)
    ∧ ∀ p, p ∈ (runs_among children here nearest i).*2.*1 →
           ∃ j r, p = here ++ j :: r ∧ (i ≤ j)%nat.
Proof.
  induction 1 as [|child rest Hchild _ IH]; intros i.
  { split; [constructor|]. by intros p ?%elem_of_nil. }
  cbn [runs_among]. rewrite !fmap_app.
  destruct (Hchild (here ++ [i]) nearest) as [Hnodup Hbelow].
  destruct (IH (S i)) as [Hnodup' Hbelow'].
  split.
  - apply NoDup_app. split; [done|]. split; [|done].
    intros p (r & ->)%Hbelow (j & r' & Heq & Hj)%Hbelow'.
    rewrite <-app_assoc in Heq. apply app_inv_head in Heq.
    injection Heq as -> _. lia.
  - intros p [(r & ->)%Hbelow|(j & r & -> & Hj)%Hbelow']%elem_of_app.
    + exists i, r. by rewrite <-app_assoc.
    + exists j, r. split; [done|lia].
Qed.

Lemma distinct_node node : distinct_below node.
Proof.
  induction node as [text v|f children IH] using ElementTree_deep_ind;
    intros here nearest.
  { cbn. split; [apply NoDup_singleton|].
    intros p ->%list_elem_of_singleton. exists []. by rewrite app_nil_r. }
  rewrite runs_with_owner_branch.
  destruct (distinct_among children here
              (if carries_index f then Some here else nearest) IH 0%nat)
    as [Hnodup Hbelow].
  split; [done|]. intros p (j & r & -> & _)%Hbelow. by exists (j :: r).
Qed.
End attribution.

(** The serialization of the example page, without attributes. *)
Example example_serialization :
  clickable_elements_to_string example_snapshot (Some [])
  = join (String newline "")
      [ "[]:Welcome"; "[0]:<input></input>"; "[1]:<button>Go</button>";
        "[2]:<span>now</span>"; "[3]:<a>home</a>"; "[]:tail" ].
Proof. vm_compute. reflexivity. Qed.

(** ** Command dispatcher *)

Section dispatcher_facts.
Context `{Driver}.
Implicit Types (s : Session) (params : Params).

(** *** Running a computation *)

Lemma bind_unfold {A B} (m : Exec A) (k : A → Exec B) s :
  (m ≫= k) s
  = match m s with
    | (Ok a, s') => k a s'
    | (Raise message, s') => (Raise message, s')
    end.
Proof. reflexivity. Qed.

Lemma bind_ret {A B} (a : A) (k : A → Exec B) s : (mret a ≫= k) s = k a s.
Proof. reflexivity. Qed.

Lemma bind_get_current_page {B} (k : option Page → Exec B) s :
  (get_current_page ≫= k) s = k (current_page s) s.
Proof. reflexivity. Qed.

Lemma call_unfold {A B} (op : World → Outcome A * World) (k : A → Exec B) s :
  (call op ≫= k) s
  = match op (world s) with
    | (Ok a, w) => k a (set_world s w)
    | (Raise message, w) => (Raise message, set_world s w)
    end.
Proof. rewrite bind_unfold. unfold call. by destruct (op (world s)) as [[a|m] w]. Qed.

(** *** Responses *)

Lemma dict_display_error (message : string) :
  dict_display [("success", VBool false); ("error", VStr message)]
  = error_response message.
Proof.
  unfold dict_display, error_response. cbn [foldl fst snd].
  rewrite insert_empty. apply insert_insert_ne. done.
Qed.

Lemma dict_display_bare :
  dict_display [("success", VBool false)] = bare_failure.
Proof. unfold dict_display, bare_failure. cbn [foldl fst snd]. apply insert_empty. Qed.

Lemma error_response_success (message : string) :
  error_response message !! "success" = Some (VBool false).
Proof. unfold error_response. by rewrite lookup_insert_eq. Qed.

Lemma error_response_error (message : string) :
  error_response message !! "error" = Some (VStr message).
Proof.
  unfold error_response. rewrite lookup_insert_ne by done. apply lookup_singleton_eq.
Qed.

Lemma bare_failure_no_error : bare_failure !! "error" = None.
Proof. unfold bare_failure. by rewrite lookup_singleton_ne. Qed.

Lemma bare_failure_not_error (message : string) :
  bare_failure ≠ error_response message.
Proof.
  intros Heq. pose proof (error_response_error message) as He.
  rewrite <-Heq, bare_failure_no_error in He. done.
Qed.

Lemma error_response_inj (m1 m2 : string) :
  error_response m1 = error_response m2 → m1 = m2.
Proof.
  intros Heq. pose proof (error_response_error m1) as He.
  rewrite Heq, error_response_error in He. by injection He.
Qed.

(** *** Index resolution *)

Lemma resolve_index_session params s : (resolve_index params s).2 = s.
Proof.
  unfold resolve_index. rewrite bind_unfold. cbn.
  destruct (p_index params); [|done].
  destruct (dict_truthy (ctx_selector_map s)); [|done].
  by destruct (negb _).
Qed.

(** The lookup of an absent index in a non-empty map raises. *)
Lemma resolve_index_absent params s (index : PyKey)
    (m : gmap PyKey (gmap string PyVal)) :
  p_index params = Some index →
  ctx_selector_map s = Some m → m ≠ ∅ →
  m !! KStr (py_str_key index) = None → m !! index = None →
  resolve_index params s = (Raise "Element does not exist", s).
Proof.
  intros Hi Hm Hne H1 H2. unfold resolve_index.
  rewrite bind_unfold. cbn [get_selector_map]. rewrite Hi, Hm.
  cbn [dict_truthy default]. rewrite bool_decide_eq_false_2 by done.
  cbn [negb id]. rewrite H1, H2. reflexivity.
Qed.

(** With no selector map, or an empty one, the lookup is skipped. *)
Lemma resolve_index_skipped params s :
  dict_truthy (ctx_selector_map s) = false →
  resolve_index params s = (Ok VNone, s).
Proof.
  intros Hm. unfold resolve_index. rewrite bind_unfold. cbn [get_selector_map].
  rewrite Hm. by destruct (p_index params).
Qed.

(** The resolution reads nothing of the session but the selector map. *)
Lemma resolve_index_selector_map params s s' :
  ctx_selector_map s' = ctx_selector_map s →
  (resolve_index params s').1 = (resolve_index params s).1.
Proof.
  intros Hmap. unfold resolve_index. rewrite !bind_unfold.
  cbn [get_selector_map]. rewrite Hmap.
  destruct (p_index params); [|done].
  destruct (dict_truthy (ctx_selector_map s)); [|done].
  by destruct (negb _).
Qed.

(** *** Unknown commands *)

Lemma not_command_eqb (action name : string) :
  action ∉ command_names → name ∈ command_names → String.eqb action name = false.
Proof. intros Hnot Hin. apply String.eqb_neq. by intros ->. Qed.

Lemma click_like_command (action : string) :
  click_like action = true → action ∈ command_names.
Proof.
  unfold click_like, command_names. rewrite bool_decide_eq_true, !elem_of_cons.
  tauto.
Qed.

(** C9, as amended: for a request whose action is not one of the enumerated
    command names, the dispatcher returns a failure whose error names the
    action: Invalid action: <action in double quotes> is not recognized.
    The index is resolved before the action is looked at, so when that
    resolution raises, its error is the one returned. *)
Theorem unrecognized_action_named_in_error params s (action : string) :
  p_action params = Some action →
  action ∉ command_names →
  execute params s
  = (error_response
       match (resolve_index params s).1 with
       | Raise message => message
       | Ok _ => invalid_action action
       end, s).
Proof.
  intros Haction Hnot.
  unfold execute, execute_action. rewrite Haction.
  cbn [required]. rewrite bind_ret, bind_get_current_page, bind_unfold.
  pose proof (resolve_index_session params s) as Hs.
  destruct (resolve_index params s) as [[xpath|message] s']; cbn in Hs; subst s';
    cbn [fst]; [|by rewrite dict_display_error].
  rewrite !(not_command_eqb action)
    by (done || (unfold command_names; rewrite !elem_of_cons; tauto)).
  destruct (click_like action) eqn:Hc; [by apply click_like_command in Hc|].
  unfold raise. by rewrite dict_display_error.
Qed.

(** *** Absent indices *)

(** C2, as amended: for a command that carries an index, if the selector map
    is not empty and holds the index neither as given nor as its [str], the
    dispatcher returns the failure with error Element does not exist and
    changes nothing; it returns a response, it does not raise. *)
Theorem absent_index_in_nonempty_map_is_hard_error params s (action : string)
    (index : PyKey) (m : gmap PyKey (gmap string PyVal)) :
  p_action params = Some action →
  p_index params = Some index →
  ctx_selector_map s = Some m →
  m ≠ ∅ →
  index_absent (Some m) index →
  execute params s = (error_response "Element does not exist", s).
Proof.
  intros Haction Hindex Hm Hne Habs. destruct (Habs m eq_refl) as [H1 H2].
  unfold execute, execute_action. rewrite Haction.
  cbn [required]. rewrite bind_ret, bind_get_current_page, bind_unfold.
  rewrite (resolve_index_absent params s index m) by done.
  by rewrite dict_display_error.
Qed.

(** *** Falsy results *)

(** C10: whenever the effect step of a command completes without raising and
    its result is falsy, the dispatcher returns the object that holds
    success: False and nothing else, no error among it. *)
Theorem falsy_result_is_bare_failure params s (result : PyVal) (s' : Session) :
  execute_action params s = (Ok result, s') →
  py_truthy result = false →
  execute params s = (bare_failure, s')
  ∧ bare_failure !! "error" = None
  ∧ dom bare_failure = ({[ "success" ]} : gset string).
Proof.
  intros Hrun Hfalsy. unfold execute, respond. rewrite Hrun, Hfalsy.
  rewrite dict_display_bare. split; [done|]. split; [apply bare_failure_no_error|].
  unfold bare_failure. apply dom_singleton_L.
Qed.

(** A click whose locator matches no element is such a step. *)
Lemma click_on_missing_element params s (action : string) (index : PyKey)
    (xpath : PyVal) (s' : Session) :
  p_action params = Some action →
  click_like action = true →
  p_index params = Some index →
  resolve_index params s = (Ok xpath, s) →
  get_element (current_page s) xpath s = (Ok None, s') →
  execute_action params s = (Ok (VBool false), s').
Proof.
  intros Haction Hclick Hindex Hresolve Hnone. unfold execute_action.
  rewrite Haction, Hindex. cbn [required].
  rewrite bind_ret, bind_get_current_page, bind_unfold, Hresolve.
  assert (String.eqb action "open_url" = false) as ->.
  { apply String.eqb_neq. intros ->. by vm_compute in Hclick. }
  assert (String.eqb action "input_text" = false) as ->.
  { apply String.eqb_neq. intros ->. by vm_compute in Hclick. }
  rewrite Hclick, bind_ret, bind_unfold, Hnone. reflexivity.
Qed.

(** So is [get_dropdown_options] when the page finds no select. *)
Lemma dropdown_options_of_missing_select params s (index : PyKey) (xpath : PyVal)
    (s' : Session) :
  p_action params = Some "get_dropdown_options" →
  p_index params = Some index →
  resolve_index params s = (Ok xpath, s) →
  get_dropdown_options (current_page s) xpath s = (Ok VNone, s') →
  execute_action params s = (Ok VNone, s').
Proof.
  intros Haction Hindex Hresolve Hnone. unfold execute_action.
  rewrite Haction, Hindex. cbn [required].
  rewrite bind_ret, bind_get_current_page, bind_unfold, Hresolve.
  cbn [String.eqb Ascii.eqb Bool.eqb click_like].
  replace (click_like "get_dropdown_options") with false by (by vm_compute).
  by rewrite bind_ret.
Qed.

(** *** Navigation *)

(** The run of [open_url]: either the driver raises on the way, or the new
    page becomes the current page; the selector map is not touched. *)
Lemma open_url_run (url : string) s :
  ctx_selector_map (open_url url s).2 = ctx_selector_map s
  ∧ ∀ page, (open_url url s).1 = Ok page →
      (drv_new_page (world s)).1 = Ok page
      ∧ current_page (open_url url s).2 = Some page.
Proof.
  unfold open_url. rewrite call_unfold.
  destruct (drv_new_page (world s)) as [[page|m] w]; [|by split].
  rewrite call_unfold. cbn [set_world world].
  destruct (drv_goto page url w) as [[[]|m] w1]; [|by split].
  rewrite call_unfold. cbn [set_world world].
  destruct (drv_wait_for_load_state page w1) as [[[]|m] w2]; [|by split].
  cbn. split; [done|]. by intros ? [= <-].
Qed.

(** C4, as amended: every successful [open_url] command replaces the
    session's current page with the newly opened page and leaves the
    session's selector map as it was, so that every index resolves after the
    navigation as it did before it. *)
Theorem successful_open_url_keeps_selector_map params s
    (response : gmap string PyVal) (s' : Session) :
  p_action params = Some "open_url" →
  execute params s = (response, s') →
  response !! "success" = Some (VBool true) →
  (∃ page, (drv_new_page (world s)).1 = Ok page ∧ current_page s' = Some page)
  ∧ ctx_selector_map s' = ctx_selector_map s
  ∧ ∀ request, (resolve_index request s').1 = (resolve_index request s).1.
Proof.
  intros Haction Hrun Hsuccess.
  assert (∀ message, response ≠ error_response message) as Hok.
  { intros message ->. by rewrite error_response_success in Hsuccess. }
  cut ((∃ page, (drv_new_page (world s)).1 = Ok page ∧ current_page s' = Some page)
       ∧ ctx_selector_map s' = ctx_selector_map s).
  { intros [Hpage Hmap]. split; [done|]. split; [done|].
    intros request. by apply resolve_index_selector_map. }
  revert Hrun. unfold execute, execute_action. rewrite Haction.
  cbn [required]. rewrite bind_ret, bind_get_current_page, bind_unfold.
  pose proof (resolve_index_session params s) as Hs.
  destruct (resolve_index params s) as [[xpath|message] s0]; cbn in Hs; subst s0;
    [|rewrite dict_display_error; intros [= <- <-]; by destruct (Hok message)].
  cbn [String.eqb Ascii.eqb Bool.eqb].
  destruct (p_text params) as [url|]; cbn [required];
    [|rewrite bind_unfold; unfold raise; rewrite dict_display_error;
      intros [= <- <-]; by destruct (Hok "text (url) parameter is required")].
  rewrite bind_ret, bind_unfold.
  destruct (open_url_run url s) as [Hmap Hpage].
  destruct (open_url url s) as [[page|message] s1]; cbn [fst snd] in *;
    [|rewrite dict_display_error; intros [= <- <-]; by destruct (Hok message)].
  destruct (Hpage page eq_refl) as [Hnew Hcur].
  rewrite call_unfold.
  destruct (drv_title page (world s1)) as [[title|message] w];
    [|rewrite dict_display_error; intros [= <- <-]; by destruct (Hok message)].
  cbn. intros [= <- <-]. cbn. split; [by exists page|done].
Qed.

(** *** Before any page is open *)

Lemma keeps_page_ret {A} (a : A) : keeps_page (mret a).
Proof. done. Qed.

Lemma keeps_page_raise {A} (message : string) : keeps_page (raise (A := A) message).
Proof. done. Qed.

Lemma keeps_page_call {A} (op : World → Outcome A * World) : keeps_page (call op).
Proof. intros s. unfold call. by destruct (op (world s)). Qed.

Lemma keeps_page_bind {A B} (m : Exec A) (k : A → Exec B) :
  keeps_page m → (∀ a, keeps_page (k a)) → keeps_page (m ≫= k).
Proof.
  intros Hm Hk s. rewrite bind_unfold. specialize (Hm s).
  destruct (m s) as [[a|message] s1]; cbn in *; [|done].
  by rewrite Hk.
Qed.

Lemma keeps_page_bind_ret {A B} (a : A) (k : A → Exec B) :
  keeps_page (k a) → keeps_page (mret a ≫= k).
Proof. done. Qed.

Lemma keeps_page_required {A} (field : option A) (message : string) :
  keeps_page (required field message).
Proof. by destruct field. Qed.

Lemma keeps_page_method_of (page : option Page) (method : string) :
  keeps_page (method_of page method).
Proof. by destruct page. Qed.

Lemma keeps_page_resolve_index params : keeps_page (resolve_index params).
Proof. intros s. by rewrite resolve_index_session. Qed.

Lemma keeps_page_set_selector_map m : keeps_page (set_selector_map m).
Proof. done. Qed.

Lemma keeps_page_get_current_page : keeps_page get_current_page.
Proof. done. Qed.

Lemma keeps_page_page_url (page : Page) : keeps_page (page_url page).
Proof. done. Qed.

Create HintDb keeps_page.
#[local] Hint Resolve keeps_page_ret keeps_page_raise keeps_page_call
  keeps_page_required keeps_page_method_of keeps_page_resolve_index
  keeps_page_set_selector_map keeps_page_get_current_page keeps_page_page_url
  : keeps_page.

Ltac keeps_page :=
  repeat first
    [ apply keeps_page_bind; [|intros ?]
    | progress auto with keeps_page
    | match goal with
      | |- keeps_page (if ?b then _ else _) => destruct b
      | |- keeps_page (match ?x with _ => _ end) => destruct x
      end ].

(** Only [open_url] sets the current page. *)
Lemma keeps_page_execute_action params :
  p_action params ≠ Some "open_url" → keeps_page (execute_action params).
Proof.
  intros Hnot. unfold execute_action.
  destruct (p_action params) as [action|]; cbn [required];
    [apply keeps_page_bind_ret|done].
  apply keeps_page_bind; [auto with keeps_page|]. intros page.
  apply keeps_page_bind; [auto with keeps_page|]. intros selector_xpath.
  destruct (String.eqb action "open_url") eqn:Hopen.
  { apply String.eqb_eq in Hopen as ->. done. }
  unfold get_element, extract_html_content, get_dropdown_options,
    select_dropdown_option, _inject_dom_builder, _ensure_page, sleep.
  keeps_page.
Qed.

Lemma fruitless_unsuccessful params s :
  fruitless (execute_action params s).1 →
  (execute params s).1 !! "success" = Some (VBool false).
Proof.
  unfold execute.
  destruct (execute_action params s) as [[v|message] s']; cbn [fst fruitless].
  - intros Hv. unfold respond. rewrite Hv, dict_display_bare.
    apply lookup_singleton_eq.
  - intros _. by rewrite dict_display_error, error_response_success.
Qed.

Lemma execute_action_without_page params s :
  current_page s = None →
  p_action params ≠ Some "open_url" →
  fruitless (execute_action params s).1.
Proof.
  intros Hnone Hnot. unfold execute_action.
  destruct (p_action params) as [action|]; cbn [required]; [|done].
  rewrite bind_ret, bind_get_current_page, Hnone, bind_unfold.
  pose proof (resolve_index_session params s) as Hs.
  destruct (resolve_index params s) as [[xpath|message] s0]; cbn in Hs; subst s0;
    [|done].
  destruct (String.eqb action "open_url") eqn:Hopen.
  { apply String.eqb_eq in Hopen as ->. done. }
  unfold get_element, extract_html_content, get_dropdown_options,
    select_dropdown_option, _inject_dom_builder, _ensure_page, sleep.
  repeat match goal with
         | |- context [if ?b then _ else _] => destruct b
         end;
    destruct (p_index params), (p_text params); cbn; try done;
    rewrite ?bind_ret, ?bind_unfold; unfold get_current_page; cbn;
    rewrite ?Hnone; done.
Qed.

(** Before any page is open, every command but [open_url] fails and leaves
    the session without a page. *)
Lemma commands_without_page params s :
  current_page s = None →
  p_action params ≠ Some "open_url" →
  (execute params s).1 !! "success" = Some (VBool false)
  ∧ current_page (execute params s).2 = None.
Proof.
  intros Hnone Hnot. split.
  - by apply fruitless_unsuccessful, execute_action_without_page.
  - pose proof (keeps_page_execute_action params Hnot s) as Hkeep.
    unfold execute. destruct (execute_action params s) as [[v|message] s'];
      cbn in *; congruence.
Qed.

(** C6, the code at the failing input: before any page is open and before
    any snapshot, a click returns the bare failure, which holds no error and
    so says nothing of a page that is not open. *)
Theorem click_without_page_is_bare_failure (index : PyKey) (w : World) :
  let s := {| current_page := None; ctx_selector_map := None; world := w |} in
  execute (request "click" (Some index) None) s = (bare_failure, s)
  ∧ bare_failure !! "error" = None.
Proof.
  split; [|apply bare_failure_no_error].
  unfold execute, execute_action, request. cbn [p_action required].
  rewrite bind_ret, bind_get_current_page, bind_unfold.
  rewrite resolve_index_skipped by done.
  cbn -[respond]. unfold respond. cbn [py_truthy]. by rewrite dict_display_bare.
Qed.
End dispatcher_facts.

(** *** The dispatcher on the example driver *)

(** C9, witness: the action fly. *)
Lemma unrecognized_action_named_in_error_witness :
  ("fly" ∉ command_names)
  ∧ execute (request "fly" None None) (example_session (Some 1%nat) None 1%nat)
    = (error_response (invalid_action "fly"), example_session (Some 1%nat) None 1%nat).
Proof.
  assert ("fly" ∉ command_names) as Hnot.
  { unfold command_names. rewrite !not_elem_of_cons. repeat split; try discriminate.
    apply not_elem_of_nil. }
  split; [exact Hnot|].
  exact (unrecognized_action_named_in_error (request "fly" None None)
           (example_session (Some 1%nat) None 1%nat) "fly" eq_refl Hnot).
Defined.

(** C9, counterexample: for the action fly the error is not the bare phrase
    Invalid action. *)
Lemma unrecognized_action_error_is_longer :
  ("fly" ∉ command_names)
  ∧ execute (request "fly" None None) (example_session (Some 1%nat) None 1%nat)
    = (error_response (invalid_action "fly"), example_session (Some 1%nat) None 1%nat)
  ∧ error_response (invalid_action "fly") ≠ error_response "Invalid action".
Proof.
  split; [|split].
  - unfold command_names. rewrite !not_elem_of_cons. repeat split; try discriminate.
    apply not_elem_of_nil.
  - vm_compute. reflexivity.
  - intros Heq%error_response_inj. vm_compute in Heq. discriminate.
Qed.

(** C2, witness: index 5 after a snapshot that indexed one element. *)
Lemma absent_index_in_nonempty_map_is_hard_error_witness :
  example_selector_map ≠ ∅
  ∧ index_absent (Some example_selector_map) (KInt 5)
  ∧ execute (request "click" (Some (KInt 5)) None)
            (example_session (Some 1%nat) (Some example_selector_map) 1%nat)
    = (error_response "Element does not exist",
       example_session (Some 1%nat) (Some example_selector_map) 1%nat).
Proof.
  assert (example_selector_map ≠ ∅) as Hne by apply insert_non_empty.
  assert (index_absent (Some example_selector_map) (KInt 5)) as Habsent.
  { intros m [= <-]. split; vm_compute; reflexivity. }
  split; [exact Hne|]. split; [exact Habsent|].
  exact (absent_index_in_nonempty_map_is_hard_error
           (request "click" (Some (KInt 5)) None)
           (example_session (Some 1%nat) (Some example_selector_map) 1%nat)
           "click" (KInt 5) example_selector_map eq_refl eq_refl eq_refl Hne Habsent).
Defined.

(** C2, counterexample: before the first snapshot the session has no
    selector map, so every index is absent; a click is answered with the
    bare failure, not with Element does not exist. *)
Lemma absent_index_without_map_is_bare_failure :
  index_absent None (KInt 0)
  ∧ execute (request "click" (Some (KInt 0)) None)
            (example_session (Some 1%nat) None 1%nat)
    = (bare_failure, example_session (Some 1%nat) None 1%nat)
  ∧ bare_failure ≠ error_response "Element does not exist".
Proof.
  split; [by intros m [=]|]. split; [vm_compute; reflexivity|].
  apply bare_failure_not_error.
Qed.

(** C4, witness: the first navigation after a snapshot. *)
Lemma successful_open_url_keeps_selector_map_witness :
  (execute (request "open_url" None (Some "https://example.test/"))
           (example_session (Some 1%nat) (Some example_selector_map) 1%nat)).1
    !! "success" = Some (VBool true)
  ∧ ctx_selector_map
      (execute (request "open_url" None (Some "https://example.test/"))
               (example_session (Some 1%nat) (Some example_selector_map) 1%nat)).2
    = Some example_selector_map.
Proof.
  assert ((execute (request "open_url" None (Some "https://example.test/"))
             (example_session (Some 1%nat) (Some example_selector_map) 1%nat)).1
            !! "success" = Some (VBool true)) as Hsuccess
    by (vm_compute; reflexivity).
  split; [exact Hsuccess|].
  exact (proj1 (proj2 (successful_open_url_keeps_selector_map
           (request "open_url" None (Some "https://example.test/"))
           (example_session (Some 1%nat) (Some example_selector_map) 1%nat)
           _ _ eq_refl (surjective_pairing _) Hsuccess))).
Defined.

(** C4, counterexample: after a successful navigation the selector map of
    the earlier snapshot is still in place, not empty, and index 0 of that
    snapshot still resolves; a click on it goes through on the new page. *)
Lemma open_url_leaves_old_index_resolvable :
  (execute (request "open_url" None (Some "https://example.test/"))
           (example_session (Some 1%nat) (Some example_selector_map) 1%nat))
  = (dict_display [("success", VBool true); ("title", VStr "Example Domain");
                   ("url", VStr "https://example.test/")],
     example_session (Some 2%nat) (Some example_selector_map) 2%nat)
  ∧ example_selector_map ≠ ∅
  ∧ (resolve_index (request "click" (Some (KInt 0)) None)
       (example_session (Some 2%nat) (Some example_selector_map) 2%nat)).1
    = Ok (VStr "html/body/button")
  ∧ (execute (request "click" (Some (KInt 0)) None)
       (example_session (Some 2%nat) (Some example_selector_map) 2%nat)).1
    = dict_display [("success", VBool true); ("result", VBool true)].
Proof.
  split; [vm_compute; reflexivity|]. split; [apply insert_non_empty|].
  split; vm_compute; reflexivity.
Qed.

(** C10, witness: a click on an index whose locator matches nothing. *)
Lemma falsy_result_is_bare_failure_witness :
  execute_action (request "click" (Some (KInt 7)) None)
    (example_session (Some 1%nat)
       (Some {[ KStr "7" := {[ "xpath" := VStr "html/body/gone" ]} ]}) 1%nat)
  = (Ok (VBool false),
     example_session (Some 1%nat)
       (Some {[ KStr "7" := {[ "xpath" := VStr "html/body/gone" ]} ]}) 1%nat)
  ∧ execute (request "click" (Some (KInt 7)) None)
      (example_session (Some 1%nat)
         (Some {[ KStr "7" := {[ "xpath" := VStr "html/body/gone" ]} ]}) 1%nat)
    = (bare_failure,
       example_session (Some 1%nat)
         (Some {[ KStr "7" := {[ "xpath" := VStr "html/body/gone" ]} ]}) 1%nat).
Proof.
  assert (execute_action (request "click" (Some (KInt 7)) None)
    (example_session (Some 1%nat)
       (Some {[ KStr "7" := {[ "xpath" := VStr "html/body/gone" ]} ]}) 1%nat)
  = (Ok (VBool false),
     example_session (Some 1%nat)
       (Some {[ KStr "7" := {[ "xpath" := VStr "html/body/gone" ]} ]}) 1%nat)) as Hrun
    by (vm_compute; reflexivity).
  split; [exact Hrun|].
  exact (proj1 (falsy_result_is_bare_failure _ _ _ _ Hrun eq_refl)).
Defined.

(** ** Selector index and serialization of one snapshot *)

Lemma nodes_preorder_indices (t : ElementTree) :
  omap index_of (nodes_preorder t) = highlight_indices t.
Proof.
  unfold highlight_indices.
  induction t as [text v|f children IH] using ElementTree_deep_ind; [done|].
  cbn [nodes_preorder elements_preorder]. rewrite !omap_cons_app.
  cbn [index_of]. f_equal.
  induction IH as [|child rest Hchild _ IHrest]; [done|].
  cbn [flat_map]. by rewrite !omap_app, Hchild, IHrest.
Qed.

Lemma foldl_flat_map {A B C} (f : A → B → A) (g : C → list B) (l : list C) (a : A) :
  foldl f a (flat_map g l) = foldl (λ a c, foldl f a (g c)) a l.
Proof.
  revert a. induction l as [|c l IH]; intros a; [done|].
  cbn [flat_map foldl]. by rewrite foldl_app, IH.
Qed.

(** [create_selector_map] passes over the nodes in pre-order. *)
Lemma SelectorMap_process_node_fold (t : ElementTree) :
  snapshot_tree_wf t = true →
  ∀ m, SelectorMap.process_node t m = foldl record_node m (nodes_preorder t).
Proof.
  induction t as [text v|f children IH] using ElementTree_deep_ind; intros Hwf m;
    [done|].
  cbn [snapshot_tree_wf] in Hwf. apply andb_true_iff in Hwf as [Hhead Hchildren].
  cbn [SelectorMap.process_node nodes_preorder foldl].
  destruct (truthy (en_tagName f)) eqn:Htag.
  - rewrite foldl_flat_map.
    change (match en_highlightIndex f with
            | Some i => <[i:=ElementBranch f children]> m
            | None => m
            end) with (record_node m (ElementBranch f children)).
    generalize (record_node m (ElementBranch f children)). clear Hhead.
    induction IH as [|child rest Hchild _ IHrest]; intros m0; [done|].
    cbn [forallb] in Hchildren. apply andb_true_iff in Hchildren as [Hc Hr].
    cbn [foldl]. rewrite (Hchild Hc). by apply IHrest.
  - cbn [orb] in Hhead. apply andb_true_iff in Hhead as [Hnil Hidx].
    apply bool_decide_eq_true in Hnil as ->. cbn [flat_map foldl].
    unfold record_node, carries_index in *. cbn [index_of].
    destruct (en_highlightIndex f); [|done].
    by rewrite bool_decide_eq_true_2 in Hidx.
Qed.

Lemma record_node_dom (l : list ElementTree) (m : gmap Z ElementTree) :
  dom (foldl record_node m l) = dom m ∪ list_to_set (omap index_of l).
Proof.
  revert m. induction l as [|n l IH]; intros m; cbn [foldl].
  { cbn. by rewrite union_empty_r_L. }
  rewrite IH, omap_cons_app. unfold record_node.
  destruct (index_of n) as [i|]; cbn [app]; [|done].
  rewrite dom_insert_L, list_to_set_cons.
  by rewrite (comm_L (∪) {[i]} (dom m)), (assoc_L (∪)).
Qed.

Lemma record_node_lookup (l : list ElementTree) (i : Z) (node : ElementTree) :
  NoDup (omap index_of l) →
  foldl record_node ∅ l !! i = Some node ↔ node ∈ l ∧ index_of node = Some i.
Proof.
  induction l as [|n l IH] using rev_ind; intros Hnodup.
  { cbn. rewrite lookup_empty. split; [done|]. by intros [?%elem_of_nil _]. }
  rewrite omap_app in Hnodup. apply NoDup_app in Hnodup as (Hl & Hsep & _).
  rewrite foldl_app. cbn [foldl]. unfold record_node at 1.
  rewrite elem_of_app, list_elem_of_singleton.
  destruct (index_of n) as [j|] eqn:Hn.
  - destruct (decide (i = j)) as [->|Hij].
    + rewrite lookup_insert_eq. split.
      * intros [= <-]. by split; [right|].
      * intros [[Hin| ->] Hidx]; [|done]. exfalso.
        apply (Hsep j).
        -- apply list_elem_of_omap. by exists node.
        -- cbn. rewrite Hn. cbn. left.
    + rewrite lookup_insert_ne by done. rewrite (IH Hl). split.
      * intros [? ?]. by split; [left|].
      * intros [[Hin| ->] Hidx]; [done|]. congruence.
  - rewrite (IH Hl). split.
    + intros [? ?]. by split; [left|].
    + intros [[Hin| ->] Hidx]; [done|]. congruence.
Qed.

(** The indices of a snapshot, read in pre-order, are 0, 1, 2, ... *)
Lemma snapshot_indices_dense (w : Window) (doHighlightElements : bool)
    (t : ElementTree) :
  snapshot w doHighlightElements = Some t →
  highlight_indices t = seqZ 0 (Z.of_nat (length (highlight_indices t))).
Proof.
  unfold snapshot, build_dom_tree, parse_node. intros Hsnap.
  destruct (win_body w) as [body|]; [|done].
  pose proof (buildDomTree_counted (win_innerHeight w) doHighlightElements body
                (win_body_walk w) false initial_state) as (Hle & Hseq & _).
  destruct (buildDomTree _ _ body _ _ _) as [[node_data|] st]; [|done].
  cbn in Hsnap. injection Hsnap as <-. cbn [fst snd elements_of] in *.
  change (bs_highlightIndex initial_state) with 0 in *. rewrite Z.sub_0_r in Hseq.
  fold (highlight_indices (parse_node_data node_data)) in Hseq.
  rewrite Hseq at 1. rewrite Hseq, length_seqZ. f_equal. lia.
Qed.

(** X1: the selector map of a snapshot sends an index to a node exactly
    when the node is an element of the snapshot that carries this index. *)
Theorem selector_map_holds_the_indexed_elements (w : Window)
    (doHighlightElements : bool) (t : ElementTree) :
  snapshot w doHighlightElements = Some t →
  from_option dom_named true (win_body w) = true →
  ∀ (i : Z) (node : ElementTree),
    create_selector_map t !! i = Some node
    ↔ node ∈ nodes_preorder t ∧ index_of node = Some i.
Proof.
  intros Hsnap Hnamed i node. unfold create_selector_map.
  rewrite SelectorMap_process_node_fold by (by eapply snapshot_is_wf).
  apply record_node_lookup. rewrite nodes_preorder_indices.
  rewrite (snapshot_indices_dense _ _ _ Hsnap). apply NoDup_seqZ.
Qed.

(** X1, witness: in the snapshot of the example page, index 1 is the
    button. *)
Lemma selector_map_holds_the_indexed_elements_witness :
  snapshot example_window true = Some example_snapshot
  ∧ from_option dom_named true (win_body example_window) = true
  ∧ ∃ node, create_selector_map example_snapshot !! 1 = Some node
            ∧ node ∈ nodes_preorder example_snapshot
            ∧ index_of node = Some 1.
Proof.
  assert (snapshot example_window true = Some example_snapshot) as Hsnap
    by (vm_compute; reflexivity).
  assert (from_option dom_named true (win_body example_window) = true) as Hnamed
    by (vm_compute; reflexivity).
  split; [exact Hsnap|]. split; [exact Hnamed|].
  destruct (create_selector_map example_snapshot !! 1) as [node|] eqn:Hnode;
    [|by vm_compute in Hnode].
  exists node. split; [done|].
  exact (proj1 (selector_map_holds_the_indexed_elements
                  example_window true example_snapshot Hsnap Hnamed 1 node) Hnode).
Defined.


(** ** The builder, element by element *)

Lemma atoms_parse_children (children : list (option NodeData)) :
  flat_map atoms (parse_children children) = flat_map atoms_of children.
Proof.
  induction children as [|[child|] rest IH]; [done|..]; cbn; by rewrite IH.
Qed.

Lemma atoms_elements (t : ElementTree) :
  omap atom_fields (atoms t) = elements_preorder t.
Proof.
  induction t as [text v|f children IH] using ElementTree_deep_ind; [done|].
  cbn [atoms elements_preorder]. rewrite omap_cons_app. cbn [atom_fields app].
  f_equal.
  induction IH as [|child rest Hchild _ IHrest]; [done|].
  cbn [flat_map]. by rewrite omap_app, Hchild, IHrest.
Qed.

Lemma atoms_indices (t : ElementTree) :
  omap atom_index (atoms t) = highlight_indices t.
Proof.
  unfold highlight_indices. rewrite <-atoms_elements.
  induction (atoms t) as [|a l IH]; [done|].
  rewrite !omap_cons_app, IH. destruct a as [text v|f]; [done|].
  cbn [atom_fields app]. rewrite omap_cons_app. unfold atom_index. cbn.
  by destruct (en_highlightIndex f).
Qed.

Lemma atoms_text (t : ElementTree) (text : string) (isVisible : bool) :
  TextLeaf text isVisible ∈ nodes_preorder t → AText text isVisible ∈ atoms t.
Proof.
  induction t as [text' v|f children IH] using ElementTree_deep_ind.
  { cbn. rewrite !list_elem_of_singleton. by intros [= -> ->]. }
  cbn [nodes_preorder atoms]. rewrite !elem_of_cons. intros [?|Hin]; [discriminate|].
  right. revert Hin.
  induction IH as [|child rest Hchild _ IHrest]; [by intros ?%elem_of_nil|].
  cbn [flat_map]. rewrite !elem_of_app. intros [?|?]; auto.
Qed.

Section builder_invariant.
Variables (innerHeight : Z) (doHighlightElements : bool).
Variable R : BuildState → list Atom → BuildState → Prop.

Hypothesis R_nil : ∀ st, R st [] st.
Hypothesis R_app : ∀ st1 st2 st3 l1 l2,
  R st1 l1 st2 → R st2 l2 st3 → R st1 (l1 ++ l2) st3.
Hypothesis R_text : ∀ t st,
  truthy (Some (trim (tx_textContent t))) = true →
  isTextNodeVisible innerHeight t = true →
  R st [AText (trim (tx_textContent t)) true] st.
Hypothesis R_other : ∀ st, R st [AElement other_fields] st.
Hypothesis R_element : ∀ el walk shadowRoot parentIframe st rest st',
  isElementAccepted el = true →
  R (classified doHighlightElements el parentIframe st) rest st' →
  R st
    (AElement (element_fields el walk shadowRoot
                 (if meets_criteria el then Some (bs_highlightIndex st) else None))
     :: rest)
    st'.

Abbreviation build := (buildDomTree innerHeight doHighlightElements).
Abbreviation build_all := (buildChildren innerHeight doHighlightElements).

Lemma buildChildren_invariant (nodes : list DomNode) :
  Forall (node_invariant innerHeight doHighlightElements R) nodes →
  ∀ parent up previous parentIframe st,
    R st (flat_map atoms_of (build_all nodes parent up previous parentIframe st).1)
      (build_all nodes parent up previous parentIframe st).2.
Proof.
  induction 1 as [|child rest Hchild _ IH]; intros parent up previous pif st.
  { apply R_nil. }
  cbn [buildChildren].
  match goal with |- context [build child ?w pif st] =>
    specialize (Hchild w pif st); destruct (build child w pif st) as [data st1]
  end.
  specialize (IH parent up (sibling_name child :: previous) pif st1).
  destruct (build_all rest _ _ _ _ st1) as [others st2].
  cbn [fst snd flat_map] in *. by eapply R_app.
Qed.

(** Whatever holds of nothing, is kept by sequencing, and holds of each kind
    of node given it holds of what the node contains, holds of every run of
    the builder. *)
Lemma buildDomTree_invariant (node : DomNode) :
  node_invariant innerHeight doHighlightElements R node.
Proof.
  induction node as [t| |el shadowRoot frameBody childNodes Hshadow Hframe Hlight]
    using DomNode_deep_ind; intros walk pif st.
  - cbn [buildDomTree].
    destruct (truthy _) eqn:Htext; cbn [andb]; [|apply R_nil].
    destruct (isTextNodeVisible _ _) eqn:Hvisible; [|apply R_nil].
    by apply R_text.
  - apply R_other.
  - rewrite buildDomTree_element.
    destruct (isElementAccepted el) eqn:Haccepted; cbn [negb]; [|apply R_nil].
    unfold buildElement.
    fold (meets_criteria el).
    assert (∃ index st1,
      (if meets_criteria el
       then let '(index, st) :=
              assign_highlight doHighlightElements el pif st in (Some index, st)
       else (None, st)) = (index, st1)
      ∧ index = (if meets_criteria el then Some (bs_highlightIndex st) else None)
      ∧ st1 = classified doHighlightElements el pif st)
      as (index & st1 & -> & -> & ->).
    { unfold classified. destruct (meets_criteria el).
      - pose proof (assign_highlight_index doHighlightElements el pif st) as [Hi _].
        destruct (assign_highlight _ el pif st) as [i st1]. cbn in *.
        exists (Some i), st1. by subst.
      - by exists None, st. }
    set (st1 := classified doHighlightElements el pif st).
    assert (∃ shadowChildren st2,
      match shadowRoot with
      | Some nodes => build_all nodes (shadow_kind pif) [] [] pif st1
      | None => ([], st1)
      end = (shadowChildren, st2)
      ∧ R st1 (flat_map atoms_of shadowChildren) st2)
      as (shadowChildren & st2 & -> & H2).
    { destruct shadowRoot as [nodes|].
      - pose proof (buildChildren_invariant nodes (Hshadow nodes eq_refl)
                      (shadow_kind pif) [] [] pif st1) as Hc.
        destruct (build_all nodes _ _ _ _ st1) as [cs st2]. by exists cs, st2.
      - exists [], st1. split; [done|apply R_nil]. }
    assert (∃ lightChildren st3,
      (if String.eqb (el_nodeName el) "IFRAME"
       then match frameBody with
            | Some (body_walk, nodes) =>
                build_all nodes ParentElement body_walk [] true st2
            | None => ([], st2)
            end
       else build_all childNodes (child_kind (el_is_iframe el)) walk [] pif st2)
      = (lightChildren, st3)
      ∧ R st2 (flat_map atoms_of lightChildren) st3)
      as (lightChildren & st3 & -> & H3).
    { destruct (String.eqb _ _); [destruct frameBody as [[body_walk nodes]|]|].
      - pose proof (buildChildren_invariant nodes (Hframe body_walk nodes eq_refl)
                      ParentElement body_walk [] true st2) as Hc.
        destruct (build_all nodes _ _ _ _ st2) as [cs st3]. by exists cs, st3.
      - exists [], st2. split; [done|apply R_nil].
      - pose proof (buildChildren_invariant childNodes Hlight
                      (child_kind (el_is_iframe el)) walk [] pif st2) as Hc.
        destruct (build_all childNodes _ _ _ _ st2) as [cs st3]. by exists cs, st3. }
    cbn [fst snd atoms_of]. rewrite parse_node_data_node. cbn [atoms].
    rewrite atoms_parse_children, flat_map_app.
    apply (R_element el walk (bool_decide (is_Some shadowRoot)) pif st _ st3 Haccepted).
    by eapply R_app.
Qed.
End builder_invariant.

(** ** Strings *)

Lemma string_append_cons (c : ascii) (s1 s2 : string) :
  String c s1 +:+ s2 = String c (s1 +:+ s2).
Proof. reflexivity. Qed.

Lemma string_append_nil_l (s : string) : "" +:+ s = s.
Proof. reflexivity. Qed.

Lemma string_append_nil_r (s : string) : s +:+ "" = s.
Proof. induction s as [|c s IH]; [done|]. by rewrite string_append_cons, IH. Qed.

Lemma string_append_assoc (s1 s2 s3 : string) : (s1 +:+ s2) +:+ s3 = s1 +:+ s2 +:+ s3.
Proof. induction s1 as [|c s1 IH]; [done|]. by rewrite !string_append_cons, IH. Qed.

Lemma string_rev_app_append (s1 s2 : string) : String.rev_app s1 s2 = String.rev s1 +:+ s2.
Proof.
  revert s2. induction s1 as [|c s1 IH]; intros s2; [done|].
  unfold String.rev. cbn [String.rev_app].
  by rewrite (IH (String c s2)), (IH (String c "")), string_append_assoc.
Qed.

Lemma string_rev_cons (c : ascii) (s : string) :
  String.rev (String c s) = String.rev s +:+ String c "".
Proof. unfold String.rev at 1. cbn [String.rev_app]. apply string_rev_app_append. Qed.

Lemma string_rev_append (s1 s2 : string) :
  String.rev (s1 +:+ s2) = String.rev s2 +:+ String.rev s1.
Proof.
  induction s1 as [|c s1 IH]; [by rewrite string_append_nil_l, string_append_nil_r|].
  by rewrite string_append_cons, !string_rev_cons, IH, string_append_assoc.
Qed.

Lemma string_rev_involutive (s : string) : String.rev (String.rev s) = s.
Proof.
  induction s as [|c s IH]; [done|]. by rewrite string_rev_cons, string_rev_append, IH.
Qed.

(** *** [trim] *)

Lemma trimStart_clean (s : string) : starts_clean (trimStart s).
Proof.
  induction s as [|c s IH]; [done|]. cbn [trimStart].
  by destruct (Ascii.is_space c) eqn:Hc.
Qed.

Lemma trimStart_of_clean (s : string) : starts_clean s → trimStart s = s.
Proof.
  destruct s as [|c s]; [done|]. cbn [starts_clean trimStart]. by intros ->.
Qed.

Lemma trimStart_keeps_last (s : string) (c : ascii) :
  Ascii.is_space c = false →
  ∃ kept, trimStart (s +:+ String c "") = kept +:+ String c "".
Proof.
  intros Hc. induction s as [|d s IH].
  - exists "". rewrite string_append_nil_l. cbn [trimStart]. by rewrite Hc.
  - rewrite string_append_cons. cbn [trimStart]. destruct (Ascii.is_space d); [done|].
    by exists (String d s).
Qed.

Lemma trim_of_clean (s : string) :
  starts_clean s → starts_clean (String.rev s) → trim s = s.
Proof.
  intros Hs Hr. unfold trim.
  by rewrite (trimStart_of_clean s Hs), (trimStart_of_clean _ Hr), string_rev_involutive.
Qed.

Lemma trim_clean (s : string) :
  starts_clean (trim s) ∧ starts_clean (String.rev (trim s)).
Proof.
  unfold trim. rewrite string_rev_involutive. split; [|apply trimStart_clean].
  pose proof (trimStart_clean s) as Hclean.
  destruct (trimStart s) as [|c a]; [done|]. cbn [starts_clean] in Hclean.
  rewrite string_rev_cons.
  destruct (trimStart_keeps_last (String.rev a) c Hclean) as [kept ->].
  by rewrite string_rev_append.
Qed.

(** [trim] leaves nothing to trim. *)
Lemma trim_idempotent (s : string) : trim (trim s) = trim s.
Proof. apply trim_of_clean; apply trim_clean. Qed.

(** ** What the builder keeps *)

Lemma toLowerCase_idempotent (s : string) :
  toLowerCase (toLowerCase s) = toLowerCase s.
Proof.
  induction s as [|c s IH]; [done|]. cbn [toLowerCase]. rewrite IH. f_equal.
  unfold ascii_toLowerCase.
  destruct ((65 <=? N_of_ascii c)%N && (N_of_ascii c <=? 90)%N) eqn:Hupper;
    [|by rewrite Hupper].
  apply andb_true_iff in Hupper as [Hlo%N.leb_le Hhi%N.leb_le].
  rewrite N_ascii_embedding by lia.
  replace ((65 <=? N_of_ascii c + 32)%N && (N_of_ascii c + 32 <=? 90)%N)
    with false; [done|].
  symmetry. apply andb_false_iff. right. apply N.leb_gt. lia.
Qed.

Lemma buildDomTree_kept (innerHeight : Z) (doHighlightElements : bool)
    (node : DomNode) (walk : list PathStep) (parentIframe : bool) (st : BuildState) :
  Forall kept_atom
    (atoms_of (buildDomTree innerHeight doHighlightElements node walk
                            parentIframe st).1).
Proof.
  apply (buildDomTree_invariant innerHeight doHighlightElements
           (λ _ l _, Forall kept_atom l)).
  - by intros st0.
  - intros st1 st2 st3 l1 l2 H1 H2. by apply Forall_app.
  - intros t st0 Htext _. repeat constructor.
    + intros Hempty. by rewrite Hempty in Htext.
    + apply trim_idempotent.
  - intros st0. by repeat constructor.
  - intros el walk0 shadowRoot pif st0 rest st1 Haccepted Hrest.
    constructor; [|done]. cbn. intros tag Htag.
    destruct (negb _); [|done]. injection Htag as <-.
    unfold isElementAccepted in Haccepted.
    by apply negb_true_iff, bool_decide_eq_false in Haccepted.
Qed.

Lemma snapshot_atoms_kept (w : Window) (doHighlightElements : bool)
    (t : ElementTree) :
  snapshot w doHighlightElements = Some t → Forall kept_atom (atoms t).
Proof.
  unfold snapshot, build_dom_tree, parse_node. intros Hsnap.
  destruct (win_body w) as [body|]; [|done].
  pose proof (buildDomTree_kept (win_innerHeight w) doHighlightElements body
                (win_body_walk w) false initial_state) as Hkept.
  destruct (buildDomTree _ _ body _ _ _) as [[node_data|] st]; [|done].
  by injection Hsnap as <-.
Qed.

(** *** Nothing below a denied element is seen *)

Section pruning.
Variables (innerHeight : Z) (doHighlightElements : bool).
Implicit Types (node : DomNode) (nodes : list DomNode) (st : BuildState).

Abbreviation build := (buildDomTree innerHeight doHighlightElements).
Abbreviation build_all := (buildChildren innerHeight doHighlightElements).

Lemma sibling_name_prune_denied node :
  sibling_name (prune_denied node) = sibling_name node.
Proof.
  destruct node as [t| |el shadowRoot frameBody childNodes]; [done..|].
  cbn. by destruct (isElementAccepted el).
Qed.

Lemma buildChildren_prune_denied nodes :
  Forall (prune_unseen innerHeight doHighlightElements) nodes →
  ∀ parent up previous parentIframe st,
    build_all (map prune_denied nodes) parent up previous parentIframe st
    = build_all nodes parent up previous parentIframe st.
Proof.
  induction 1 as [|child rest Hchild _ IH]; intros parent up previous pif st;
    [done|].
  cbn [map buildChildren].
  rewrite sibling_name_prune_denied, Hchild.
  assert (sibling_name <$> map prune_denied rest = sibling_name <$> rest) as ->.
  { clear. induction rest as [|node rest IH]; [done|].
    cbn [map]. by rewrite !fmap_cons, sibling_name_prune_denied, IH. }
  destruct (build child _ pif st) as [data st1]. by rewrite IH.
Qed.

Lemma buildDomTree_prune_denied node :
  prune_unseen innerHeight doHighlightElements node.
Proof.
  induction node as [t| |el shadowRoot frameBody childNodes Hshadow Hframe Hlight]
    using DomNode_deep_ind; intros walk pif st; [done..|].
  cbn [prune_denied]. destruct (isElementAccepted el) eqn:Haccepted.
  - rewrite !buildDomTree_element, Haccepted. cbn [negb]. unfold buildElement.
    destruct (if isInteractiveElement el && isElementVisible el && isTopElement el
              then _ else _) as [highlightIndex st1].
    assert (bool_decide (is_Some match shadowRoot with
                                 | Some nodes => Some (map prune_denied nodes)
                                 | None => None
                                 end)
            = bool_decide (is_Some shadowRoot)) as ->
      by (by destruct shadowRoot).
    assert (match match shadowRoot with
                  | Some nodes => Some (map prune_denied nodes)
                  | None => None
                  end with
            | Some nodes => build_all nodes (shadow_kind pif) [] [] pif st1
            | None => ([], st1)
            end
            = match shadowRoot with
              | Some nodes => build_all nodes (shadow_kind pif) [] [] pif st1
              | None => ([], st1)
              end) as ->.
    { destruct shadowRoot as [nodes|]; [|done].
      apply buildChildren_prune_denied, (Hshadow nodes eq_refl). }
    destruct (match shadowRoot with Some _ => _ | None => _ end)
      as [shadowChildren st2].
    destruct (String.eqb (el_nodeName el) "IFRAME").
    + destruct frameBody as [[body_walk nodes]|]; [|done].
      by rewrite (buildChildren_prune_denied nodes (Hframe body_walk nodes eq_refl)).
    + by rewrite (buildChildren_prune_denied childNodes Hlight).
  - by rewrite !buildDomTree_element, Haccepted.
Qed.
End pruning.

(** X3: no element of a snapshot has a tag name on the deny list ([svg],
    [script], [style], [link], [meta]), and such an element is dropped with
    everything below it: wherever the builder meets one it returns null
    and leaves the counter, the registry and the overlay as they are, and
    the run of the builder on a document is its run on the document with
    everything below the denied elements taken away. *)
Theorem snapshot_holds_no_denied_element (w : Window) (doHighlightElements : bool) :
  (∀ t f tag,
      snapshot w doHighlightElements = Some t →
      f ∈ elements_preorder t →
      en_tagName f = Some tag →
      tag ∉ leafElementDenyList)
  ∧ (∀ el shadowRoot frameBody childNodes walk parentIframe st,
        toLowerCase (el_nodeName el) ∈ leafElementDenyList →
        buildDomTree (win_innerHeight w) doHighlightElements
                     (ElementNode el shadowRoot frameBody childNodes)
                     walk parentIframe st
        = (None, st))
  ∧ build_dom_tree (pruned_window w) doHighlightElements
    = build_dom_tree w doHighlightElements.
Proof.
  split; [|split].
  - intros t f tag Hsnap Hf Htag.
    pose proof (snapshot_atoms_kept w doHighlightElements t Hsnap) as Hkept.
    rewrite <-atoms_elements in Hf. apply list_elem_of_omap in Hf as (a & Ha & Hfa).
    destruct a as [|f']; [done|]. injection Hfa as ->.
    by apply (proj1 (Forall_forall _ _) Hkept _ Ha).
  - intros el shadowRoot frameBody childNodes walk pif st Hdenied.
    rewrite buildDomTree_element. unfold isElementAccepted.
    by rewrite (bool_decide_eq_true_2 _ Hdenied).
  - unfold build_dom_tree, pruned_window. cbn [win_body win_innerHeight win_body_walk].
    destruct (win_body w) as [body|]; [|done]. cbn [fmap option_fmap option_map].
    apply buildDomTree_prune_denied.
Qed.

(** X3, witness: the example page holds a [script] with a text in it.  The
    snapshot has no element of that name, and taking the text away changes
    the document and not the run of the builder. *)
Lemma snapshot_holds_no_denied_element_witness :
  omap en_tagName (elements_preorder example_snapshot)
  = ["body"; "input"; "button"; "span"; "div"; "a"]
  ∧ pruned_window example_window ≠ example_window
  ∧ build_dom_tree (pruned_window example_window) true
    = build_dom_tree example_window true.
Proof.
  split; [vm_compute; reflexivity|]. split.
  - intros Heq. apply (f_equal win_body) in Heq. vm_compute in Heq. discriminate.
  - exact (proj2 (proj2 (snapshot_holds_no_denied_element example_window true))).
Defined.

(** X4: every text node of a snapshot holds a non-empty text that neither
    starts nor ends with white space, and is flagged visible. *)
Theorem snapshot_texts_are_trimmed_and_visible (w : Window)
    (doHighlightElements : bool) (t : ElementTree) (text : string)
    (isVisible : bool) :
  snapshot w doHighlightElements = Some t →
  TextLeaf text isVisible ∈ nodes_preorder t →
  isVisible = true ∧ text ≠ "" ∧ trimmed text.
Proof.
  intros Hsnap Hleaf%atoms_text.
  pose proof (snapshot_atoms_kept w doHighlightElements t Hsnap) as Hkept.
  by apply (proj1 (Forall_forall _ _) Hkept _ Hleaf).
Qed.

(** X4, witness: the greeting of the example page, stored without the
    blanks around it. *)
Lemma snapshot_texts_are_trimmed_and_visible_witness :
  snapshot example_window true = Some example_snapshot
  ∧ TextLeaf "Welcome" true ∈ nodes_preorder example_snapshot
  ∧ trimmed "Welcome".
Proof.
  assert (snapshot example_window true = Some example_snapshot) as Hsnap
    by (vm_compute; reflexivity).
  assert (TextLeaf "Welcome" true ∈ nodes_preorder example_snapshot) as Hleaf.
  { vm_compute. right. left. }
  split; [exact Hsnap|]. split; [exact Hleaf|].
  exact (proj2 (proj2 (snapshot_texts_are_trimmed_and_visible
                         example_window true example_snapshot "Welcome" true
                         Hsnap Hleaf))).
Defined.

(** ** The registry of live elements and the overlay *)

Lemma registered_nil (st : BuildState) : registered st [] st.
Proof.
  split; [lia|]. split; [done|]. split; [lia|].
  by intros f i ?%elem_of_nil.
Qed.

Lemma registered_app (st1 st2 st3 : BuildState) (l1 l2 : list Atom) :
  registered st1 l1 st2 → registered st2 l2 st3 → registered st1 (l1 ++ l2) st3.
Proof.
  intros (Hle1 & Hframe1 & Hfull1 & Hel1) (Hle2 & Hframe2 & Hfull2 & Hel2).
  split; [lia|]. split; [|split].
  - intros i Hi. rewrite Hframe2 by lia. apply Hframe1. lia.
  - intros i Hi. destruct (decide (i < bs_highlightIndex st2)).
    + rewrite Hframe2 by lia. apply Hfull1. lia.
    + apply Hfull2. lia.
  - intros f i [Hf|Hf]%elem_of_app Hidx.
    + destruct (Hel1 f i Hf Hidx) as (Hrange & el & Hlook & Hdesc).
      split; [lia|]. exists el. split; [|done]. by rewrite Hframe2 by lia.
    + destruct (Hel2 f i Hf Hidx) as (Hrange & el & Hlook & Hdesc).
      split; [lia|]. by exists el.
Qed.

Lemma classified_unfold (doHighlightElements : bool) (el : ElementData)
    (parentIframe : bool) (st : BuildState) :
  bs_highlightIndex (classified doHighlightElements el parentIframe st)
  = bs_highlightIndex st + (if meets_criteria el then 1 else 0)
  ∧ bs_clickable_elements (classified doHighlightElements el parentIframe st)
    = (if meets_criteria el
       then <[bs_highlightIndex st := el]> (bs_clickable_elements st)
       else bs_clickable_elements st)
  ∧ bs_overlay (classified doHighlightElements el parentIframe st)
    = bs_overlay st
      ++ (if meets_criteria el && doHighlightElements
          then [(bs_highlightIndex st, parentIframe)] else []).
Proof.
  unfold classified, assign_highlight, highlightElement.
  destruct (meets_criteria el), doHighlightElements; cbn;
    rewrite ?app_nil_r, ?Z.add_0_r; done.
Qed.

Lemma buildDomTree_registered (innerHeight : Z) (doHighlightElements : bool)
    (node : DomNode) (walk : list PathStep) (parentIframe : bool) (st : BuildState) :
  registered st
    (atoms_of (buildDomTree innerHeight doHighlightElements node walk
                            parentIframe st).1)
    (buildDomTree innerHeight doHighlightElements node walk parentIframe st).2.
Proof.
  apply (buildDomTree_invariant innerHeight doHighlightElements registered).
  - apply registered_nil.
  - apply registered_app.
  - intros t st0 _ _. split; [lia|]. split; [done|]. split; [lia|].
    intros f i Hf. apply list_elem_of_singleton in Hf. discriminate.
  - intros st0. split; [lia|]. split; [done|]. split; [lia|].
    intros f i Hf. apply list_elem_of_singleton in Hf. by injection Hf as ->.
  - intros el walk0 shadowRoot pif st0 rest st1 _ (Hle & Hframe & Hfull & Hel).
    destruct (classified_unfold doHighlightElements el pif st0) as (Hi & Hc & _).
    rewrite Hi in *. clear Hi.
    destruct (meets_criteria el) eqn:Hq.
    + split; [lia|]. split; [|split].
      * intros i Hi. rewrite Hframe by lia. rewrite Hc.
        apply lookup_insert_ne. lia.
      * intros i Hi. destruct (decide (i = bs_highlightIndex st0)) as [->|Hne].
        -- rewrite Hframe by lia. rewrite Hc, lookup_insert_eq. by eexists.
        -- apply Hfull. lia.
      * intros f i [Hf|Hf]%elem_of_cons Hidx.
        -- injection Hf as ->. cbn in Hidx. injection Hidx as <-.
           split; [lia|]. exists el. split.
           ++ rewrite Hframe by lia. by rewrite Hc, lookup_insert_eq.
           ++ by exists walk0, shadowRoot.
        -- destruct (Hel f i Hf Hidx) as (Hrange & Hfound). split; [lia|done].
    + rewrite Z.add_0_r in *. rewrite Hc in *.
      split; [lia|]. split; [done|]. split; [done|].
      intros f i [Hf|Hf]%elem_of_cons Hidx; [|by apply Hel].
      injection Hf as ->. discriminate.
Qed.

(** A node found in the selector map is a node of the tree that carries the
    key as its index. *)
Lemma SelectorMap_process_node_sound (t : ElementTree) :
  ∀ (m : gmap Z ElementTree) (i : Z) (node : ElementTree),
    SelectorMap.process_node t m !! i = Some node →
    m !! i = Some node ∨ (node ∈ nodes_preorder t ∧ index_of node = Some i).
Proof.
  induction t as [text v|f children IH] using ElementTree_deep_ind;
    intros m i node; [by left|].
  cbn [SelectorMap.process_node nodes_preorder].
  destruct (truthy (en_tagName f)); [|by left].
  assert (∀ m0, foldl (λ m child, SelectorMap.process_node child m) m0 children
                !! i = Some node →
                m0 !! i = Some node
                ∨ (node ∈ flat_map nodes_preorder children
                   ∧ index_of node = Some i)) as Hfold.
  { induction IH as [|child rest Hchild _ IHrest]; intros m0; [by left|].
    cbn [foldl flat_map]. intros [Hm|[Hin Hidx]]%IHrest.
    - apply Hchild in Hm as [?|[Hin Hidx]]; [by left|].
      right. split; [|done]. apply elem_of_app. by left.
    - right. split; [|done]. apply elem_of_app. by right. }
  intros [Hm|[Hin Hidx]]%Hfold.
  - destruct (en_highlightIndex f) as [j|] eqn:Hj; [|by left].
    destruct (decide (i = j)) as [->|Hne].
    + rewrite lookup_insert_eq in Hm. injection Hm as <-.
      right. split; [left|done].
    + rewrite lookup_insert_ne in Hm by done. by left.
  - right. split; [by right|done].
Qed.

Lemma atoms_element (t : ElementTree) (f : ElementFields)
    (children : list ElementTree) :
  ElementBranch f children ∈ nodes_preorder t → AElement f ∈ atoms t.
Proof.
  induction t as [text v|f' children' IH] using ElementTree_deep_ind.
  { cbn. rewrite list_elem_of_singleton. discriminate. }
  cbn [nodes_preorder atoms]. rewrite !elem_of_cons.
  intros [Heq|Hin]; [left; congruence|].
  right. revert Hin.
  induction IH as [|child rest Hchild _ IHrest]; [by intros ?%elem_of_nil|].
  cbn [flat_map]. rewrite !elem_of_app. intros [?|?]; auto.
Qed.

(** What [get_clickable_elements] returns is made from the snapshot. *)
Lemma get_clickable_elements_returns (w : Window) (doHighlightElements : bool)
    (includeAttributes : option (list string)) (r : ClickableElements)
    (st : BuildState) :
  get_clickable_elements w doHighlightElements includeAttributes = (Returns r, st) →
  ∃ t, snapshot w doHighlightElements = Some t
       ∧ st = (build_dom_tree w doHighlightElements).2
       ∧ element_str r = clickable_elements_to_string t includeAttributes
       ∧ selector_map r = create_selector_map t.
Proof.
  unfold get_clickable_elements, snapshot.
  destruct (build_dom_tree w doHighlightElements) as [page_tree st0].
  cbn [fst snd]. destruct (parse_node page_tree) as [t|]; [|done].
  intros [= <- <-]. by exists t.
Qed.

Lemma build_dom_tree_registered (w : Window) (doHighlightElements : bool)
    (t : ElementTree) :
  snapshot w doHighlightElements = Some t →
  registered initial_state (atoms t) (build_dom_tree w doHighlightElements).2
  ∧ bs_highlightIndex (build_dom_tree w doHighlightElements).2
    = Z.of_nat (length (highlight_indices t)).
Proof.
  unfold snapshot, build_dom_tree, parse_node. intros Hsnap.
  destruct (win_body w) as [body|]; [|done].
  pose proof (buildDomTree_registered (win_innerHeight w) doHighlightElements body
                (win_body_walk w) false initial_state) as Hreg.
  pose proof (buildDomTree_counted (win_innerHeight w) doHighlightElements body
                (win_body_walk w) false initial_state) as (Hle & Hseq & _).
  destruct (buildDomTree _ _ body _ _ _) as [[node_data|] st]; [|done].
  injection Hsnap as <-. cbn [fst snd atoms_of elements_of] in *.
  split; [done|].
  fold (highlight_indices (parse_node_data node_data)) in Hseq.
  rewrite Hseq, length_seqZ. change (bs_highlightIndex initial_state) with 0 in *.
  lia.
Qed.

(** X5: after [get_clickable_elements] has returned, [get_highlight_element]
    returns, for every key of the selector map, the live element that the
    entry describes; over a document whose elements all have a node name it
    returns an element for exactly the keys of the selector map. *)
Theorem get_highlight_element_agrees_with_selector_map (w : Window)
    (doHighlightElements : bool) (includeAttributes : option (list string))
    (r : ClickableElements) (st : BuildState) :
  get_clickable_elements w doHighlightElements includeAttributes = (Returns r, st) →
  (∀ (i : Z) (f : ElementFields) (children : list ElementTree),
      selector_map r !! i = Some (ElementBranch f children) →
      ∃ el, get_highlight_element (Some (bs_clickable_elements st)) (Some i)
            = Returns (Some el)
            ∧ describes el f)
  ∧ (from_option dom_named true (win_body w) = true →
     ∀ i, is_Some (selector_map r !! i)
          ↔ ∃ el, get_highlight_element (Some (bs_clickable_elements st)) (Some i)
                  = Returns (Some el)).
Proof.
  intros (t & Hsnap & -> & _ & ->)%get_clickable_elements_returns.
  destruct (build_dom_tree_registered w doHighlightElements t Hsnap)
    as ((_ & Hframe & Hfull & Hel) & Hcount).
  change (bs_highlightIndex initial_state) with 0 in *.
  split.
  - intros i f children Hlook. unfold create_selector_map in Hlook.
    apply SelectorMap_process_node_sound in Hlook as [Hempty|[Hin Hidx]];
      [by rewrite lookup_empty in Hempty|].
    apply atoms_element in Hin. cbn [index_of] in Hidx.
    destruct (Hel f i Hin Hidx) as (_ & el & Hfound & Hdesc).
    exists el. split; [|done]. cbn. by rewrite Hfound.
  - intros Hnamed i.
    assert (dom (create_selector_map t) = list_to_set (highlight_indices t)) as Hdom.
    { unfold create_selector_map.
      rewrite SelectorMap_process_node_fold by (by eapply snapshot_is_wf).
      rewrite record_node_dom, nodes_preorder_indices, dom_empty_L.
      by rewrite union_empty_l_L. }
    rewrite <-elem_of_dom, Hdom, elem_of_list_to_set.
    rewrite (snapshot_indices_dense _ _ _ Hsnap), elem_of_seqZ, <-Hcount.
    cbn. split.
    + intros Hi. destruct (Hfull i) as [el Hfound]; [lia|]. exists el.
      by rewrite Hfound.
    + intros [el Hfound].
      destruct (decide (0 ≤ i < bs_highlightIndex (build_dom_tree w doHighlightElements).2))
        as [?|Hout]; [lia|].
      rewrite Hframe in Hfound by lia.
      change (bs_clickable_elements initial_state) with (∅ : gmap Z ElementData)
        in Hfound.
      by rewrite lookup_empty in Hfound.
Qed.

(** X5, witness: on the example page, key 1 of the selector map is the
    button, and [get_highlight_element(1)] returns the live button. *)
Lemma get_highlight_element_agrees_with_selector_map_witness :
  ∃ r st el,
    example_result = (Returns r, st)
    ∧ get_highlight_element (Some (bs_clickable_elements st)) (Some 1)
      = Returns (Some el)
    ∧ el_nodeName el = "BUTTON".
Proof.
  unfold example_result.
  assert (match (get_clickable_elements example_window true None).1 with
          | Returns r => index_of <$> selector_map r !! 1
          | Throws _ => None
          end = Some (Some 1)) as Hkey by (vm_compute; reflexivity).
  assert (el_nodeName
            <$> bs_clickable_elements
                  (get_clickable_elements example_window true None).2 !! 1
          = Some "BUTTON") as Hlive by (vm_compute; reflexivity).
  destruct (get_clickable_elements example_window true None) as [[r|message] st]
    eqn:Hrun; [|discriminate].
  cbn [fst snd] in Hkey, Hlive.
  destruct (selector_map r !! 1) as [[text v|f children]|] eqn:Hentry;
    [discriminate| |discriminate].
  destruct (proj1 (get_highlight_element_agrees_with_selector_map
                     example_window true None r st Hrun) 1 f children Hentry)
    as (el & Hfound & _).
  exists r, st, el. split; [done|]. split; [done|].
  cbn in Hfound. destruct (bs_clickable_elements st !! 1) as [el'|]; [|discriminate].
  injection Hfound as ->. by injection Hlive.
Defined.

Lemma buildDomTree_boxed (innerHeight : Z) (doHighlightElements : bool)
    (node : DomNode) (walk : list PathStep) (parentIframe : bool) (st : BuildState) :
  boxed doHighlightElements st
    (atoms_of (buildDomTree innerHeight doHighlightElements node walk
                            parentIframe st).1)
    (buildDomTree innerHeight doHighlightElements node walk parentIframe st).2.
Proof.
  apply (buildDomTree_invariant innerHeight doHighlightElements
           (boxed doHighlightElements)); unfold boxed.
  - intros st0. by destruct doHighlightElements; rewrite app_nil_r.
  - intros st1 st2 st3 l1 l2 -> ->. rewrite <-app_assoc, omap_app.
    by destruct doHighlightElements.
  - intros t st0 _ _. by destruct doHighlightElements; rewrite app_nil_r.
  - intros st0. by destruct doHighlightElements; rewrite app_nil_r.
  - intros el walk0 shadowRoot pif st0 rest st1 _ ->.
    destruct (classified_unfold doHighlightElements el pif st0) as (_ & _ & ->).
    rewrite fmap_app, <-app_assoc. f_equal. rewrite omap_cons_app.
    unfold atom_index at 1. cbn.
    by destruct (meets_criteria el), doHighlightElements.
Qed.

(** X6: with highlighting on, the overlay holds one box per indexed element
    of the snapshot, labelled with the element's index, in the order of the
    indices; with highlighting off it holds none. *)
Theorem overlay_boxes_follow_the_indices (w : Window) (doHighlightElements : bool)
    (t : ElementTree) :
  snapshot w doHighlightElements = Some t →
  (bs_overlay (build_dom_tree w doHighlightElements).2).*1
  = if doHighlightElements then highlight_indices t else [].
Proof.
  unfold snapshot, build_dom_tree, parse_node. intros Hsnap.
  destruct (win_body w) as [body|]; [|done].
  pose proof (buildDomTree_boxed (win_innerHeight w) doHighlightElements body
                (win_body_walk w) false initial_state) as Hboxed.
  destruct (buildDomTree _ _ body _ _ _) as [[node_data|] st]; [|done].
  injection Hsnap as <-. unfold boxed in Hboxed. cbn [fst snd atoms_of] in *.
  by rewrite Hboxed, atoms_indices.
Qed.

(** X6, witness: the four boxes drawn over the example page. *)
Lemma overlay_boxes_follow_the_indices_witness :
  snapshot example_window true = Some example_snapshot
  ∧ (bs_overlay (build_dom_tree example_window true).2).*1
    = highlight_indices example_snapshot
  ∧ highlight_indices example_snapshot = [0; 1; 2; 3].
Proof.
  assert (snapshot example_window true = Some example_snapshot) as Hsnap
    by (vm_compute; reflexivity).
  split; [exact Hsnap|]. split; [|vm_compute; reflexivity].
  exact (overlay_boxes_follow_the_indices example_window true example_snapshot
           Hsnap).
Defined.

(** ** Highlighting and the snapshot *)

Section core.
Variable innerHeight : Z.

Lemma classified_core (d1 d2 : bool) (el : ElementData) (parentIframe : bool)
    (st1 st2 : BuildState) :
  same_core st1 st2 →
  same_core (classified d1 el parentIframe st1) (classified d2 el parentIframe st2).
Proof.
  intros [Hi Hc]. unfold same_core.
  destruct (classified_unfold d1 el parentIframe st1) as (-> & -> & _).
  destruct (classified_unfold d2 el parentIframe st2) as (-> & -> & _).
  by rewrite Hi, Hc.
Qed.

(** [buildElement], stage by stage. *)
Lemma buildElement_stages (d : bool) children (el : ElementData)
    (shadowRoot : option (list DomNode))
    (frameBody : option (list PathStep * list DomNode))
    (childNodes : list DomNode) (walk : list PathStep) (parentIframe : bool)
    (st : BuildState) :
  buildElement d children el shadowRoot frameBody childNodes walk parentIframe st
  = let st1 := classified d el parentIframe st in
    let shadow :=
      match shadowRoot with
      | Some nodes => children nodes (shadow_kind parentIframe) [] [] parentIframe st1
      | None => ([], st1)
      end in
    let light :=
      if String.eqb (el_nodeName el) "IFRAME"
      then match frameBody with
           | Some (body_walk, nodes) =>
               children nodes ParentElement body_walk [] true shadow.2
           | None => ([], shadow.2)
           end
      else children childNodes (child_kind (el_is_iframe el)) walk []
                    parentIframe shadow.2 in
    (Some (NdNode
             {| nd_tagName := if truthy (Some (el_nodeName el))
                              then Some (toLowerCase (el_nodeName el)) else None;
                nd_attributes := copy_attributes el;
                nd_xpath := Some (getXPathTree walk true);
                nd_isInteractive := Some (isInteractiveElement el);
                nd_isVisible := Some (isElementVisible el);
                nd_isTopElement := Some (isTopElement el);
                nd_highlightIndex :=
                  if meets_criteria el then Some (bs_highlightIndex st) else None;
                nd_shadowRoot := bool_decide (is_Some shadowRoot) |}
             (shadow.1 ++ light.1)),
     light.2).
Proof.
  unfold buildElement, classified. fold (meets_criteria el).
  assert ((if meets_criteria el
           then let '(index, st0) := assign_highlight d el parentIframe st in
                (Some index, st0)
           else (None, st))
          = (if meets_criteria el then Some (bs_highlightIndex st) else None,
             if meets_criteria el
             then (assign_highlight d el parentIframe st).2 else st)) as ->.
  { destruct (meets_criteria el); [|done].
    pose proof (assign_highlight_index d el parentIframe st) as [Hi _].
    destruct (assign_highlight d el parentIframe st) as [i st1]. cbn in *.
    by subst. }
  cbn zeta.
  destruct (match shadowRoot with Some _ => _ | None => _ end) as [shadow st2].
  cbn [fst snd].
  by destruct (if String.eqb (el_nodeName el) "IFRAME" then _ else _)
    as [light st3].
Qed.

Lemma buildChildren_core (nodes : list DomNode) :
  Forall (core_independent innerHeight) nodes →
  ∀ d1 d2 parent up previous parentIframe st1 st2,
    same_core st1 st2 →
    (buildChildren innerHeight d1 nodes parent up previous parentIframe st1).1
    = (buildChildren innerHeight d2 nodes parent up previous parentIframe st2).1
    ∧ same_core
        (buildChildren innerHeight d1 nodes parent up previous parentIframe st1).2
        (buildChildren innerHeight d2 nodes parent up previous parentIframe st2).2.
Proof.
  induction 1 as [|child rest Hchild _ IH];
    intros d1 d2 parent up previous pif st1 st2 Hcore; [done|].
  cbn [buildChildren].
  match goal with |- context [buildDomTree _ d1 child ?w pif st1] =>
    specialize (Hchild d1 d2 w pif st1 st2 Hcore);
    destruct (buildDomTree innerHeight d1 child w pif st1) as [data1 st1'];
    destruct (buildDomTree innerHeight d2 child w pif st2) as [data2 st2']
  end.
  cbn [fst snd] in Hchild. destruct Hchild as [-> Hcore'].
  specialize (IH d1 d2 parent up (sibling_name child :: previous) pif st1' st2' Hcore').
  destruct (buildChildren innerHeight d1 rest _ _ _ _ st1') as [others1 st1''].
  destruct (buildChildren innerHeight d2 rest _ _ _ _ st2') as [others2 st2''].
  cbn [fst snd] in *. destruct IH as [-> ?]. done.
Qed.

Lemma buildDomTree_core (node : DomNode) : core_independent innerHeight node.
Proof.
  induction node as [t| |el shadowRoot frameBody childNodes Hshadow Hframe Hlight]
    using DomNode_deep_ind; intros d1 d2 walk pif st1 st2 Hcore.
  - cbn [buildDomTree]. by destruct (_ && _).
  - done.
  - rewrite !buildDomTree_element.
    destruct (negb (isElementAccepted el)); [done|].
    rewrite !buildElement_stages. cbn zeta.
    pose proof (classified_core d1 d2 el pif st1 st2 Hcore) as Hcore1.
    assert (bs_highlightIndex st1 = bs_highlightIndex st2) as -> by apply Hcore.
    set (a1 := classified d1 el pif st1) in *.
    set (a2 := classified d2 el pif st2) in *.
    assert (∃ shadow b1 b2,
      match shadowRoot with
      | Some nodes => buildChildren innerHeight d1 nodes (shadow_kind pif) [] [] pif a1
      | None => ([], a1)
      end = (shadow, b1)
      ∧ match shadowRoot with
        | Some nodes => buildChildren innerHeight d2 nodes (shadow_kind pif) [] [] pif a2
        | None => ([], a2)
        end = (shadow, b2)
      ∧ same_core b1 b2) as (shadow & b1 & b2 & -> & -> & Hcore2).
    { destruct shadowRoot as [nodes|].
      - pose proof (buildChildren_core nodes (Hshadow nodes eq_refl) d1 d2
                      (shadow_kind pif) [] [] pif a1 a2 Hcore1) as [Heq Hc].
        destruct (buildChildren innerHeight d1 nodes _ _ _ _ a1) as [s1 b1].
        destruct (buildChildren innerHeight d2 nodes _ _ _ _ a2) as [s2 b2].
        cbn [fst snd] in *. subst. by exists s2, b1, b2.
      - by exists [], a1, a2. }
    cbn [fst snd].
    assert (∃ light c1 c2,
      (if String.eqb (el_nodeName el) "IFRAME"
       then match frameBody with
            | Some (body_walk, nodes) =>
                buildChildren innerHeight d1 nodes ParentElement body_walk [] true b1
            | None => ([], b1)
            end
       else buildChildren innerHeight d1 childNodes (child_kind (el_is_iframe el))
                          walk [] pif b1) = (light, c1)
      ∧ (if String.eqb (el_nodeName el) "IFRAME"
         then match frameBody with
              | Some (body_walk, nodes) =>
                  buildChildren innerHeight d2 nodes ParentElement body_walk [] true b2
              | None => ([], b2)
              end
         else buildChildren innerHeight d2 childNodes (child_kind (el_is_iframe el))
                            walk [] pif b2) = (light, c2)
      ∧ same_core c1 c2) as (light & c1 & c2 & -> & -> & Hcore3).
    { destruct (String.eqb _ _); [destruct frameBody as [[body_walk nodes]|]|].
      - pose proof (buildChildren_core nodes (Hframe body_walk nodes eq_refl) d1 d2
                      ParentElement body_walk [] true b1 b2 Hcore2) as [Heq Hc].
        destruct (buildChildren innerHeight d1 nodes _ _ _ _ b1) as [s1 c1].
        destruct (buildChildren innerHeight d2 nodes _ _ _ _ b2) as [s2 c2].
        cbn [fst snd] in *. subst. by exists s2, c1, c2.
      - by exists [], b1, b2.
      - pose proof (buildChildren_core childNodes Hlight d1 d2
                      (child_kind (el_is_iframe el)) walk [] pif b1 b2 Hcore2)
          as [Heq Hc].
        destruct (buildChildren innerHeight d1 childNodes _ _ _ _ b1) as [s1 c1].
        destruct (buildChildren innerHeight d2 childNodes _ _ _ _ b2) as [s2 c2].
        cbn [fst snd] in *. subst. by exists s2, c1, c2. }
    done.
Qed.
End core.

(** X7: highlighting changes nothing but the overlay: with it on or off,
    [get_clickable_elements] returns the same serialization and the same
    selector map (or throws alike) and registers the same live elements;
    with it off, nothing is drawn. *)
Theorem highlighting_changes_only_the_overlay (w : Window)
    (includeAttributes : option (list string)) :
  (get_clickable_elements w true includeAttributes).1
  = (get_clickable_elements w false includeAttributes).1
  ∧ bs_clickable_elements (get_clickable_elements w true includeAttributes).2
    = bs_clickable_elements (get_clickable_elements w false includeAttributes).2
  ∧ bs_overlay (get_clickable_elements w false includeAttributes).2 = [].
Proof.
  unfold get_clickable_elements, build_dom_tree.
  destruct (win_body w) as [body|]; [|done].
  pose proof (buildDomTree_core (win_innerHeight w) body true false
                (win_body_walk w) false initial_state initial_state
                (conj eq_refl eq_refl)) as [Htree [_ Hreg]].
  pose proof (buildDomTree_boxed (win_innerHeight w) false body
                (win_body_walk w) false initial_state) as Hboxed.
  unfold boxed in Hboxed. rewrite app_nil_r in Hboxed.
  apply fmap_nil_inv in Hboxed.
  destruct (buildDomTree _ true body _ _ _) as [tree1 st1].
  destruct (buildDomTree _ false body _ _ _) as [tree2 st2].
  cbn [fst snd] in *. subst tree2.
  by destruct (parse_node tree1).
Qed.

(** ** The colours of the overlay *)

Lemma baseColor_defined (index : Z) :
  0 ≤ index → ∃ color, baseColor index = Some color ∧ color ∈ colors.
Proof.
  intros Hindex. unfold baseColor. cbn zeta.
  pose proof (Z.rem_bound_pos index (Z.of_nat (length colors)) Hindex) as Hrem.
  change (Z.of_nat (length colors)) with 12 in *.
  rewrite (proj2 (Z.ltb_ge _ _)) by lia.
  destruct (colors !! Z.to_nat (Z.rem index 12)) as [color|] eqn:Hcolor.
  - exists color. split; [done|]. by eapply list_elem_of_lookup_2.
  - apply lookup_ge_None_1 in Hcolor. cbn [length colors] in Hcolor. lia.
Qed.

(** X8: every box that [build_dom_tree] draws gets a colour of the
    palette: the index it is drawn for is never negative, so that the
    position [index % 12] always lies in the palette. *)
Theorem every_box_has_a_palette_colour (w : Window) (t : ElementTree)
    (index : Z) (parentIframe : bool) :
  snapshot w true = Some t →
  (index, parentIframe) ∈ bs_overlay (build_dom_tree w true).2 →
  ∃ color, baseColor index = Some color ∧ color ∈ colors.
Proof.
  intros Hsnap Hbox. apply baseColor_defined.
  assert (index ∈ highlight_indices t) as Hindex.
  { revert Hsnap Hbox. unfold snapshot, build_dom_tree, parse_node.
    destruct (win_body w) as [body|]; [|done].
    pose proof (buildDomTree_boxed (win_innerHeight w) true body
                  (win_body_walk w) false initial_state) as Hboxed.
    destruct (buildDomTree _ _ body _ _ _) as [[node_data|] st]; [|done].
    intros [= <-] Hbox. unfold boxed in Hboxed. cbn [fst snd atoms_of] in *.
    assert ((bs_overlay st).*1 = omap atom_index (atoms (parse_node_data node_data)))
      as Hlabels by exact Hboxed.
    rewrite <-atoms_indices, <-Hlabels. apply list_elem_of_fmap.
    by exists (index, parentIframe). }
  rewrite (snapshot_indices_dense _ _ _ Hsnap) in Hindex.
  apply elem_of_seqZ in Hindex. lia.
Qed.

(** X8, witness: the second box drawn over the example page is green. *)
Lemma every_box_has_a_palette_colour_witness :
  snapshot example_window true = Some example_snapshot
  ∧ (1, false) ∈ bs_overlay (build_dom_tree example_window true).2
  ∧ baseColor 1 = Some "#00FF00"
  ∧ ∃ color, baseColor 1 = Some color ∧ color ∈ colors.
Proof.
  assert (snapshot example_window true = Some example_snapshot) as Hsnap
    by (vm_compute; reflexivity).
  assert ((1, false) ∈ bs_overlay (build_dom_tree example_window true).2) as Hbox.
  { apply (bool_decide_unpack _). vm_compute. exact I. }
  split; [exact Hsnap|]. split; [exact Hbox|]. split; [vm_compute; reflexivity|].
  exact (every_box_has_a_palette_colour example_window example_snapshot 1 false
           Hsnap Hbox).
Defined.

(** ** Locators of siblings *)

Lemma string_append_inj_r (s1 s2 t : string) : s1 +:+ t = s2 +:+ t → s1 = s2.
Proof.
  intros Heq. apply (f_equal String.rev) in Heq. rewrite !string_rev_append in Heq.
  apply (inj (String.app _)) in Heq.
  by rewrite <-(string_rev_involutive s1), Heq, string_rev_involutive.
Qed.

Lemma same_name_before_app (name : string) (l1 l2 : list (option string)) :
  same_name_before name (l1 ++ l2)
  = same_name_before name l1 + same_name_before name l2.
Proof.
  induction l1 as [|[n|] l1 IH]; [done|..]; cbn [app same_name_before]; lia.
Qed.

Lemma same_name_before_nonneg (name : string) (l : list (option string)) :
  0 ≤ same_name_before name l.
Proof. rewrite same_name_before_length. lia. Qed.

Lemma same_name_before_self (name : string) (l : list (option string)) :
  same_name_before name (Some name :: l) = 1 + same_name_before name l.
Proof. cbn [same_name_before]. by rewrite String.eqb_refl. Qed.

Lemma getXPathTree_segments_app (walk : list PathStep) (stopAtBoundary : bool)
    (segments : list string) :
  getXPathTree_segments walk stopAtBoundary segments
  = getXPathTree_segments walk stopAtBoundary [] ++ segments.
Proof.
  revert segments. induction walk as [|step up IH]; intros segments; [done|].
  cbn [getXPathTree_segments]. destruct (_ && _); [done|].
  destruct (ps_parent step); try done;
    by rewrite IH, (IH [xpath_segment step]), <-app_assoc.
Qed.

Lemma join_snoc_inj (sep : string) (l : list string) (a b : string) :
  join sep (l ++ [a]) = join sep (l ++ [b]) → a = b.
Proof.
  induction l as [|x l IH]; [done|]. cbn [app join].
  destruct (l ++ [a]) as [|y1 l1] eqn:H1; [by destruct l|].
  destruct (l ++ [b]) as [|y2 l2] eqn:H2; [by destruct l|].
  intros Heq. apply (inj (String.app _)), (inj (String.app _)) in Heq. auto.
Qed.

Lemma xpath_segment_distinct (earlier later : PathStep)
    (between : list (option string)) :
  ps_nodeName later = ps_nodeName earlier →
  ps_previous later = between ++ Some (ps_nodeName earlier) :: ps_previous earlier →
  xpath_segment earlier ≠ xpath_segment later.
Proof.
  intros Hname Hprev. unfold xpath_segment. rewrite Hname, Hprev.
  rewrite same_name_before_app, same_name_before_self.
  pose proof (same_name_before_nonneg (ps_nodeName earlier) between) as Hb.
  pose proof (same_name_before_nonneg (ps_nodeName earlier) (ps_previous earlier))
    as He.
  set (b := same_name_before _ between) in *.
  set (e := same_name_before _ (ps_previous earlier)) in *.
  intros Heq%(inj (String.app _)).
  assert ((0 <? b + (1 + e)) = true) as Hlater by (apply Z.ltb_lt; lia).
  rewrite Hlater in Heq.
  destruct (0 <? e); [|done].
  injection Heq as Heq. rewrite !string_append_nil_l in Heq.
  apply string_append_inj_r, (inj pretty) in Heq. lia.
Qed.

(** X9: of two element siblings with the same node name, the later one gets
    a locator different from the earlier one's, unless their parent is a
    shadow root or a frame element and the walk stops there. *)
Theorem same_tag_siblings_get_distinct_locators (earlier later : PathStep)
    (between : list (option string)) (up : list PathStep) (stopAtBoundary : bool) :
  ps_nodeName later = ps_nodeName earlier →
  ps_previous later = between ++ Some (ps_nodeName earlier) :: ps_previous earlier →
  ps_parent later = ps_parent earlier →
  stopAtBoundary && is_boundary (ps_parent earlier) = false →
  getXPathTree (earlier :: up) stopAtBoundary
  ≠ getXPathTree (later :: up) stopAtBoundary.
Proof.
  intros Hname Hprev Hparent Hopen. unfold getXPathTree.
  cbn [getXPathTree_segments]. rewrite Hparent, Hopen.
  pose proof (xpath_segment_distinct earlier later between Hname Hprev) as Hseg.
  destruct (ps_parent earlier).
  - rewrite (getXPathTree_segments_app up _ [xpath_segment earlier]),
      (getXPathTree_segments_app up _ [xpath_segment later]).
    by intros ?%join_snoc_inj.
  - rewrite (getXPathTree_segments_app up _ [xpath_segment earlier]),
      (getXPathTree_segments_app up _ [xpath_segment later]).
    by intros ?%join_snoc_inj.
  - done.
  - done.
Qed.

(** X9, witness: two sibling [div]s directly below the document are located
    as [div] and [div[2]]. *)
Lemma same_tag_siblings_get_distinct_locators_witness :
  getXPathTree [first_of_two_divs] true = "div"
  ∧ getXPathTree [second_of_two_divs] true = "div[2]"
  ∧ getXPathTree [first_of_two_divs] true ≠ getXPathTree [second_of_two_divs] true.
Proof.
  split; [vm_compute; reflexivity|]. split; [vm_compute; reflexivity|].
  apply (same_tag_siblings_get_distinct_locators
           first_of_two_divs second_of_two_divs [] [] true);
    vm_compute; reflexivity.
Defined.

(** ** Lines of the serialization *)

Lemma chars_append (s1 s2 : string) :
  list_ascii_of_string (s1 +:+ s2)
  = list_ascii_of_string s1 ++ list_ascii_of_string s2.
Proof.
  induction s1 as [|c s1 IH]; [done|].
  rewrite string_append_cons. cbn [list_ascii_of_string app]. by rewrite IH.
Qed.

Lemma single_line_append (s1 s2 : string) :
  single_line (s1 +:+ s2) ↔ single_line s1 ∧ single_line s2.
Proof. unfold single_line. rewrite chars_append, not_elem_of_app. done. Qed.

Lemma replace_newline_runs_single_line (in_run : bool) (s : string) :
  single_line (replace_newline_runs in_run s).
Proof.
  unfold single_line. revert in_run. induction s as [|c s IH]; intros in_run.
  { apply not_elem_of_nil. }
  cbn [replace_newline_runs]. destruct (Ascii.eqb c newline) eqn:Hc.
  - destruct in_run; [apply IH|].
    cbn [list_ascii_of_string]. apply not_elem_of_cons. split; [done|apply IH].
  - cbn [list_ascii_of_string]. apply not_elem_of_cons. split; [|apply IH].
    intros <-. by rewrite Ascii.eqb_refl in Hc.
Qed.

Lemma pretty_N_char_single (x : N) : pretty_N_char x ≠ newline.
Proof. unfold pretty_N_char. by repeat case_match. Qed.

Lemma pretty_N_go_single_line (x : N) : ∀ s,
  single_line s → single_line (pretty_N_go x s).
Proof.
  induction (N.lt_wf_0 x) as [x _ IH]. intros s Hs.
  destruct (decide (x = 0)%N) as [->|Hx]; [by rewrite pretty_N_go_0|].
  rewrite pretty_N_go_step by lia. apply IH.
  - apply N.div_lt; lia.
  - unfold single_line. cbn [list_ascii_of_string]. apply not_elem_of_cons.
    split; [|done]. intros Heq. by apply (pretty_N_char_single (x `mod` 10)).
Qed.

Lemma pretty_N_single_line (x : N) : single_line (pretty x).
Proof.
  unfold pretty, pretty_N. destruct (decide _).
  - unfold single_line. cbn. rewrite list_elem_of_singleton. done.
  - apply pretty_N_go_single_line. apply not_elem_of_nil.
Qed.

Lemma pretty_Z_single_line (z : Z) : single_line (pretty z).
Proof.
  destruct z as [|p|p].
  - unfold single_line. cbn. rewrite list_elem_of_singleton. done.
  - apply pretty_N_single_line.
  - change (pretty (Z.neg p)) with ("-" +:+ pretty (N.pos p)).
    apply single_line_append. split; [|apply pretty_N_single_line].
    unfold single_line. cbn. rewrite list_elem_of_singleton. done.
Qed.

(** X10: the line that the serializer emits for an indexed element holds no
    line break, whatever the element's attributes and the texts below it,
    as long as its tag name holds none. *)
Theorem indexed_line_is_a_single_line (includeAttributes : list string)
    (f : ElementFields) (index : Z) (node : ElementTree) :
  single_line (Serializer.show_tag (en_tagName f)) →
  single_line
    (Serializer.indexed_line includeAttributes f index
       (Serializer.get_all_text_till_next_clickable_element node)).
Proof.
  intros Htag. unfold Serializer.indexed_line.
  assert (∀ s, s ∈ ["["; "]:<"; ">"; "</"] → single_line s) as Hlit.
  { intros s. rewrite !elem_of_cons, elem_of_nil. unfold single_line.
    intros [->|[->|[->|[->|[]]]]]; cbn; rewrite ?elem_of_cons, elem_of_nil;
      intros H; repeat destruct H as [H|H]; discriminate || done. }
  repeat (apply single_line_append; split);
    try (apply Hlit; rewrite !elem_of_cons; tauto);
    try done.
  - apply pretty_Z_single_line.
  - apply replace_newline_runs_single_line.
  - apply replace_newline_runs_single_line.
Qed.

(** X10, witness: a button whose text nodes are Save, a line break, and
    Draft is listed on one line. *)
Lemma indexed_line_is_a_single_line_witness :
  let f := element_fields (rendered_element "BUTTON" []) [] false (Some 0) in
  let node := ElementBranch f [TextLeaf "Save" true;
                               TextLeaf (String newline "") true;
                               TextLeaf "Draft" true] in
  Serializer.indexed_line [] f 0
    (Serializer.get_all_text_till_next_clickable_element node)
  = "[0]:<button>Save Draft</button>"
  ∧ single_line
      (Serializer.indexed_line [] f 0
         (Serializer.get_all_text_till_next_clickable_element node)).
Proof.
  split; [vm_compute; reflexivity|].
  apply indexed_line_is_a_single_line.
  unfold single_line. apply (bool_decide_unpack _). vm_compute. exact I.
Defined.

(** ** Listeners *)

(** X11: unless [window.getEventListeners] exists and throws, the handler
    properties [onmousedown], [onmouseup], [ontouchstart] and [ontouchend]
    have no part in the classification: only [onclick] among the handler
    properties is consulted. *)
Theorem pointer_handlers_count_only_when_the_probe_throws (el : ElementData)
    (onmousedown onmouseup ontouchstart ontouchend : bool) :
  el_listeners el ≠ ProbeThrows →
  isInteractiveElement
    (with_pointer_handlers el onmousedown onmouseup ontouchstart ontouchend)
  = isInteractiveElement el.
Proof.
  intros Hprobe.
  unfold isInteractiveElement, hasInteractiveRole, hasAriaProps, hasClickHandler,
    hasClickListeners, getEventListeners, isDraggable, hasAttribute, getAttribute.
  cbn [with_pointer_handlers el_nodeName el_attributes el_onclick el_listeners
       el_draggable].
  by destruct (el_listeners el) as [|[t|]|].
Qed.

(** X11, witness: in a page without the probe, a span whose only signal is
    a [mousedown] handler property is not interactive. *)
Lemma pointer_handlers_count_only_when_the_probe_throws_witness :
  el_listeners (rendered_element "SPAN" []) ≠ ProbeThrows
  ∧ isInteractiveElement span_with_mousedown = false.
Proof.
  assert (el_listeners (rendered_element "SPAN" []) ≠ ProbeThrows) as Hprobe
    by discriminate.
  split; [exact Hprobe|].
  unfold span_with_mousedown.
  rewrite (pointer_handlers_count_only_when_the_probe_throws
             (rendered_element "SPAN" []) true false false false Hprobe).
  vm_compute. reflexivity.
Defined.

(** ** The strings of the serialization *)

(** *** Trimmed texts in a line *)

Lemma starts_clean_append (a b : string) :
  a ≠ "" → starts_clean a → starts_clean (a +:+ b).
Proof. by destruct a. Qed.

Lemma string_rev_empty (s : string) : String.rev s = "" → s = "".
Proof. intros Hrev. by rewrite <-(string_rev_involutive s), Hrev. Qed.

Lemma string_append_empty (a b : string) : a +:+ b = "" → a = "".
Proof. by destruct a. Qed.

Lemma trimmed_clean (s : string) :
  trimmed s → starts_clean s ∧ starts_clean (String.rev s).
Proof. intros Hs. rewrite <-Hs. apply trim_clean. Qed.

Lemma join_cons (sep x y : string) (rest : list string) :
  join sep (x :: y :: rest) = x +:+ sep +:+ join sep (y :: rest).
Proof. reflexivity. Qed.

Lemma join_empty (sep : string) (x : string) (rest : list string) :
  x ≠ "" → join sep (x :: rest) ≠ "".
Proof.
  intros Hx. destruct rest as [|y rest]; [done|].
  rewrite join_cons. by intros ?%string_append_empty.
Qed.

(** A join of trimmed texts has nothing to trim. *)
Lemma join_clean (sep : string) (texts : list string) :
  Forall (λ s, s ≠ "" ∧ trimmed s) texts →
  starts_clean (join sep texts) ∧ starts_clean (String.rev (join sep texts)).
Proof.
  induction 1 as [|x rest [Hx Htrim] Hrest IH]; [done|].
  destruct (trimmed_clean x Htrim) as [Hstart Hend].
  destruct rest as [|y rest]; [done|].
  rewrite join_cons. split; [by apply starts_clean_append|].
  rewrite !string_rev_append, string_append_assoc.
  apply starts_clean_append; [|apply IH].
  intros Hempty%string_rev_empty. revert Hempty. apply join_empty.
  by apply Forall_cons in Hrest as [[? _] _].
Qed.

(** A string that does not end with white space ends with a character that
    is no line break. *)
Lemma ends_with_last (a : string) :
  a ≠ "" → starts_clean (String.rev a) →
  ∃ front c, a = front +:+ String c "" ∧ Ascii.is_space c = false.
Proof.
  intros Ha Hclean. destruct (String.rev a) as [|c x] eqn:Hrev.
  { by apply string_rev_empty in Hrev. }
  exists (String.rev x), c. split; [|done].
  by rewrite <-string_rev_cons, <-Hrev, string_rev_involutive.
Qed.

Lemma replace_newline_runs_after (front : string) (c : ascii) (b : string) :
  Ascii.is_space c = false →
  ∀ in_run,
    replace_newline_runs in_run ((front +:+ String c "") +:+ b)
    = replace_newline_runs in_run (front +:+ String c "")
      +:+ replace_newline_runs false b.
Proof.
  intros Hc. assert (Ascii.eqb c newline = false) as Hline.
  { destruct (Ascii.eqb c newline) eqn:E; [|done].
    apply Ascii.eqb_eq in E as ->. done. }
  induction front as [|d front IH]; intros in_run.
  - rewrite !string_append_nil_l.
    change (String c "" +:+ b) with (String c b). cbn [replace_newline_runs].
    by rewrite Hline.
  - rewrite !string_append_cons. cbn [replace_newline_runs].
    destruct (Ascii.eqb d newline); [destruct in_run|]; by rewrite IH.
Qed.

Lemma replace_newline_runs_clean (b : string) :
  starts_clean b → replace_newline_runs true b = replace_newline_runs false b.
Proof.
  destruct b as [|c b]; [done|]. cbn [starts_clean replace_newline_runs].
  intros Hc. destruct (Ascii.eqb c newline) eqn:E; [|done].
  apply Ascii.eqb_eq in E as ->. done.
Qed.

(** Between trimmed texts, the line breaks of the join become single
    spaces. *)
Lemma collapse_newlines_join (texts : list string) :
  Forall (λ s, s ≠ "" ∧ trimmed s) texts →
  collapse_newlines (join (String newline "") texts)
  = join " " (collapse_newlines <$> texts).
Proof.
  unfold collapse_newlines.
  induction 1 as [|x rest [Hx Htrim] Hrest IH]; [done|].
  destruct rest as [|y rest]; [done|].
  rewrite join_cons, !fmap_cons, join_cons, <-fmap_cons, <-IH.
  destruct (trimmed_clean x Htrim) as [_ Hend].
  destruct (ends_with_last x Hx Hend) as (front & c & -> & Hc).
  rewrite (replace_newline_runs_after front c _ Hc). f_equal.
  change (String newline "" +:+ ?s) with (String newline s).
  cbn [replace_newline_runs]. rewrite Ascii.eqb_refl.
  change (String " " ?s) with (" " +:+ s). f_equal.
  apply replace_newline_runs_clean, (join_clean _ _ Hrest).
Qed.

Lemma line_text_trimmed (texts : list string) :
  Forall (λ s, s ≠ "" ∧ trimmed s) texts →
  line_text texts = join " " (collapse_newlines <$> texts).
Proof.
  intros Htexts. unfold line_text.
  destruct (join_clean (String newline "") texts Htexts) as [Hstart Hend].
  by rewrite trim_of_clean, collapse_newlines_join.
Qed.

(** *** The lines and their strings *)

(** The strings that [Serializer.process_node] pushes are the strings of the
    lines. *)
Lemma line_string_format (includeAttributes : list string) (l : Trace.Line) :
  line_string includeAttributes l = Trace.format includeAttributes l.
Proof. by destruct l. Qed.

Lemma Trace_collect_text_nonempty (node : ElementTree) : ∀ is_element_node,
  Forall (λ r : run, r.2 ≠ "") (Trace.collect_text is_element_node node).
Proof.
  induction node as [text v|f children IH] using ElementTree_deep_ind;
    intros is_element_node.
  { cbn [Trace.collect_text]. destruct (truthy (Some text)) eqn:Htext; [|done].
    repeat constructor. cbn. intros ->. done. }
  rewrite Trace_collect_text_branch. destruct (_ && _ && _); [done|].
  destruct (truthy _); [|done].
  generalize 0%nat. induction IH as [|child rest Hchild _ IHrest]; intros i; [done|].
  cbn [Trace.collect_among]. apply Forall_app. split; [|apply IHrest].
  apply Forall_fmap. eapply Forall_impl; [apply Hchild|]. done.
Qed.

Lemma Trace_process_node_holds_texts (node : ElementTree) : ∀ here ancestors,
  Forall holds_texts (Trace.process_node here ancestors node).
Proof.
  induction node as [text v|f children IH] using ElementTree_deep_ind;
    intros here ancestors.
  { cbn [Trace.process_node]. destruct (negb _); by repeat constructor. }
  rewrite Trace_process_node_branch. apply Forall_app. split.
  - destruct (en_highlightIndex f) as [index|]; [|done].
    repeat constructor. cbn [holds_texts]. apply Forall_fmap.
    eapply Forall_impl; [apply Trace_collect_text_nonempty|]. done.
  - generalize 0%nat. induction IH as [|child rest Hchild _ IHrest]; intros i; [done|].
    cbn [Trace.process_among]. apply Forall_app. split; [apply Hchild|apply IHrest].
Qed.

(** C3: the serialization of a snapshot tree is made of the strings of its
    lines, joined by line breaks: for an indexed element the string
    [[index]:<tag attributes>text</tag>], whose text is made of the texts of
    the runs that the line holds, and for a text node the string [[]:text].
    The lines hold the text runs of the tree, each exactly once, and each in
    the line of its nearest ancestor that carries a highlight index, or in a
    bare line when it has none: the text runs held by the lines, each with
    its line, are, up to order, the text runs of the tree, each with its
    nearest indexed ancestor, and no text run is listed twice.  Where the
    texts of a line are trimmed, as the builder leaves them, the text of the
    line is these texts, each with its line breaks turned into spaces, with
    single spaces between them.  By [snapshot_is_wf] the trees of the
    builder are well formed. *)
Theorem text_runs_attributed_to_nearest_indexed_ancestor
    (includeAttributes : option (list string)) (element_tree : ElementTree) :
  snapshot_tree_wf element_tree = true →
  let lines := Trace.process_node [] [] element_tree in
  clickable_elements_to_string element_tree includeAttributes
  = join (String newline "")
      (line_string (default defaultIncludeAttributes includeAttributes) <$> lines)
  ∧ attributions lines ≡ₚ runs_with_owner element_tree [] None
  ∧ NoDup ((runs_with_owner element_tree [] None).*2.*1)
  ∧ ∀ line_at f index parts,
      Trace.Indexed line_at f index parts ∈ lines →
      Forall trimmed (parts.*2) →
      line_text (parts.*2) = join " " (collapse_newlines <$> parts.*2).
Proof.
  intros Hwf lines. split; [|split; [|split]].
  - unfold clickable_elements_to_string. f_equal.
    rewrite <-(Trace_process_node_format _ element_tree [] []).
    apply list_fmap_ext. intros _ l _. symmetry. apply line_string_format.
  - pose proof (attributed_node element_tree Hwf [] [] None (λ _, eq_refl)) as Hperm.
    cbn [Serializer.has_parent_with_highlight_index] in Hperm.
    rewrite app_nil_r in Hperm. by symmetry.
  - apply distinct_node.
  - intros line_at f index parts Hin Htrimmed. apply line_text_trimmed.
    pose proof (Trace_process_node_holds_texts element_tree [] []) as Hholds.
    apply (proj1 (Forall_forall _ _) Hholds) in Hin. cbn [holds_texts] in Hin.
    rewrite Forall_fmap in Htrimmed. apply Forall_fmap, Forall_forall.
    intros r Hr. split.
    + by apply (proj1 (Forall_forall _ _) Hin).
    + by apply (proj1 (Forall_forall _ _) Htrimmed).
Qed.

(** C3, witness: the snapshot of the example page, where the button's line
    holds its own text and not the text of the span inside it, which has a
    line of its own; and a link with three text runs, one of them below a
    [b] and one with a line break in it, whose line holds the three texts
    with single spaces between and in them. *)
Lemma text_runs_attributed_to_nearest_indexed_ancestor_witness :
  snapshot_tree_wf example_snapshot = true
  ∧ clickable_elements_to_string example_snapshot (Some [])
    = join (String newline "")
        [ "[]:Welcome"; "[0]:<input></input>"; "[1]:<button>Go</button>";
          "[2]:<span>now</span>"; "[3]:<a>home</a>"; "[]:tail" ]
  ∧ attributions (Trace.process_node [] [] example_snapshot)
    ≡ₚ runs_with_owner example_snapshot [] None
  ∧ runs_with_owner example_snapshot [] None
    = [ (None, ([0], "Welcome"));
        (Some [2], ([2; 0], "Go"));
        (Some [2; 1], ([2; 1; 0], "now"));
        (Some [4; 0], ([4; 0; 0], "home"));
        (None, ([4; 1], "tail")) ]%nat
  ∧ snapshot_tree_wf example_link_snapshot = true
  ∧ attributions (Trace.process_node [] [] example_link_snapshot)
    = [ (Some [0], ([0; 0], "Read"));
        (Some [0], ([0; 1; 0], "much"));
        (Some [0], ([0; 2], "more" +:+ String newline "here")) ]%nat
  ∧ clickable_elements_to_string example_link_snapshot (Some [])
    = "[0]:<a>Read much more here</a>"
  ∧ line_text ["Read"; "much"; "more" +:+ String newline "here"]
    = join " " ["Read"; "much"; "more here"].
Proof.
  assert (snapshot_tree_wf example_snapshot = true) as Hwf
    by (vm_compute; reflexivity).
  assert (snapshot_tree_wf example_link_snapshot = true) as Hwf_link
    by (vm_compute; reflexivity).
  destruct (text_runs_attributed_to_nearest_indexed_ancestor
              (Some []) example_snapshot Hwf) as (Hstring & Hruns & _ & _).
  destruct (text_runs_attributed_to_nearest_indexed_ancestor
              (Some []) example_link_snapshot Hwf_link)
    as (Hstring_link & _ & _ & Htext).
  split; [exact Hwf|].
  split; [rewrite Hstring; vm_compute; reflexivity|].
  split; [exact Hruns|]. split; [vm_compute; reflexivity|].
  split; [exact Hwf_link|]. split; [vm_compute; reflexivity|].
  split; [rewrite Hstring_link; vm_compute; reflexivity|].
  assert (∃ f, Trace.process_node [] [] example_link_snapshot
               = [ Trace.Indexed [0%nat] f 0
                     [ ([0; 0], "Read"); ([0; 1; 0], "much");
                       ([0; 2], "more" +:+ String newline "here") ]%nat ])
    as [f Hlines] by (eexists; vm_compute; reflexivity).
  rewrite Hlines in Htext.
  apply (Htext [0%nat] f 0
           [ ([0; 0], "Read"); ([0; 1; 0], "much");
             ([0; 2], "more" +:+ String newline "here") ]%nat).
  - left.
  - repeat constructor; vm_compute; reflexivity.
Defined.

(** *** The labels of the lines *)











(** ** Requests and responses of the dispatcher *)

Section dispatcher_requests.
Context `{Driver}.
Implicit Types (s : Session) (params : Params).

Lemma resolve_index_no_index params s :
  p_index params = None → resolve_index params s = (Ok VNone, s).
Proof. intros Hindex. unfold resolve_index. rewrite bind_unfold. cbn. by rewrite Hindex. Qed.

Lemma raise_bind {A B} (message : string) (k : A → Exec B) s :
  (raise message ≫= k) s = (Raise message, s).
Proof. reflexivity. Qed.

Lemma resolve_index_ok params s (xpath : PyVal) :
  (resolve_index params s).1 = Ok xpath → resolve_index params s = (Ok xpath, s).
Proof.
  intros Hok. pose proof (resolve_index_session params s) as Hs.
  destruct (resolve_index params s) as [r s0]. cbn in *. by subst.
Qed.

(** X12: a command that asks for an index and is given none fails with the
    error [index parameter is required], before any call on the browser. *)
Theorem missing_index_is_reported params s (action : string) :
  p_action params = Some action →
  action ∈ index_commands →
  p_index params = None →
  execute params s = (error_response "index parameter is required", s).
Proof.
  intros Haction Hin Hindex. unfold execute, execute_action.
  rewrite Haction. cbn [required].
  rewrite bind_ret, bind_get_current_page, bind_unfold.
  rewrite (resolve_index_no_index params s Hindex), Hindex. cbn [required].
  unfold index_commands in Hin. rewrite !elem_of_cons, elem_of_nil in Hin.
  destruct Hin as [->|[->|[->|[->|[->|[->|[->|[]]]]]]]];
    cbn [String.eqb Ascii.eqb Bool.eqb];
    try (replace (click_like _) with true by (by vm_compute));
    try (replace (click_like _) with false by (by vm_compute));
    rewrite raise_bind; by rewrite dict_display_error.
Qed.

(** X13: a command that asks for a text and is given none fails with the
    error that names the missing text, before any call on the browser; the
    index, where one is asked for, is looked at first. *)
Theorem missing_text_is_reported params s (action : string) (xpath : PyVal) :
  p_action params = Some action →
  action ∈ text_commands →
  p_text params = None →
  (resolve_index params s).1 = Ok xpath →
  (action ≠ "open_url" → is_Some (p_index params)) →
  execute params s = (error_response (missing_text action), s).
Proof.
  intros Haction Hin Htext Hresolve%resolve_index_ok Hindex.
  unfold execute, execute_action. rewrite Haction. cbn [required].
  rewrite bind_ret, bind_get_current_page, bind_unfold, Hresolve, Htext.
  unfold text_commands in Hin. rewrite !elem_of_cons, elem_of_nil in Hin.
  destruct Hin as [->|[->|[->|[]]]];
    cbn [String.eqb Ascii.eqb Bool.eqb missing_text required].
  - rewrite raise_bind. by rewrite dict_display_error.
  - destruct Hindex as [index ->]; [done|]. cbn [required].
    rewrite bind_ret, raise_bind. by rewrite dict_display_error.
  - replace (click_like _) with false by (by vm_compute).
    destruct Hindex as [index ->]; [done|]. cbn [required].
    rewrite bind_ret, raise_bind. by rewrite dict_display_error.
Qed.

(** *** Dict displays *)

Lemma dict_display_fold (items : list (string * PyVal)) (m : gmap string PyVal)
    (k : string) :
  k ∉ items.*1 → foldl (λ m kv, <[kv.1 := kv.2]> m) m items !! k = m !! k.
Proof.
  revert m. induction items as [|[k' v'] items IH]; intros m Hk; [done|].
  cbn [foldl fst snd]. rewrite fmap_cons, not_elem_of_cons in Hk.
  destruct Hk as [Hne Hk]. rewrite IH by done. by rewrite lookup_insert_ne.
Qed.

Lemma dict_display_fold_in (items : list (string * PyVal)) (m : gmap string PyVal)
    (k : string) (v : PyVal) :
  NoDup items.*1 → (k, v) ∈ items →
  foldl (λ m kv, <[kv.1 := kv.2]> m) m items !! k = Some v.
Proof.
  revert m. induction items as [|[k' v'] items IH]; intros m Hnodup Hin.
  { by apply elem_of_nil in Hin. }
  rewrite fmap_cons in Hnodup. apply NoDup_cons in Hnodup as [Hfresh Hnodup].
  cbn [foldl fst snd]. apply elem_of_cons in Hin as [[= <- <-]|Hin].
  - rewrite dict_display_fold by done. apply lookup_insert_eq.
  - by apply IH.
Qed.

Lemma dict_display_fold_keeps (items : list (string * PyVal))
    (m : gmap string PyVal) (k : string) :
  is_Some (m !! k) → is_Some (foldl (λ m kv, <[kv.1 := kv.2]> m) m items !! k).
Proof.
  revert m. induction items as [|[k' v'] items IH]; intros m Hm; [done|].
  cbn [foldl fst snd]. apply IH.
  destruct (decide (k' = k)) as [->|Hne].
  - rewrite lookup_insert_eq. by eexists.
  - by rewrite lookup_insert_ne.
Qed.

Lemma dict_display_success (b : bool) (items : list (string * PyVal)) :
  is_Some (dict_display (("success", VBool b) :: items) !! "success").
Proof.
  unfold dict_display. cbn [foldl fst snd]. apply dict_display_fold_keeps.
  rewrite lookup_insert_eq. by eexists.
Qed.

(** X14: every response holds an entry [success]. *)
Theorem every_response_reports_success params s :
  is_Some ((execute params s).1 !! "success").
Proof.
  unfold execute. destruct (execute_action params s) as [[result|message] s'];
    cbn [fst].
  - unfold respond. destruct (py_truthy result).
    + destruct result; apply dict_display_success.
    + apply dict_display_success.
  - apply dict_display_success.
Qed.

(** X15: when the result of a command is a non-empty dict, the response
    holds every entry of the result as it is; [success] is [True] only if the
    result has no entry [success] of its own. *)
Theorem result_dict_entries_override params s (items : list (string * PyVal))
    (s' : Session) :
  execute_action params s = (Ok (VDict items), s') →
  items ≠ [] →
  NoDup items.*1 →
  (∀ k v, (k, v) ∈ items → (execute params s).1 !! k = Some v)
  ∧ (∀ k, k ∉ items.*1 →
          (execute params s).1 !! k
          = if decide (k = "success") then Some (VBool true) else None).
Proof.
  intros Hrun Hne Hnodup. unfold execute. rewrite Hrun. cbn [fst].
  unfold respond.
  assert (py_truthy (VDict items) = true) as -> by (by destruct items).
  unfold dict_display. cbn [foldl]. split.
  - intros k v Hin. by apply dict_display_fold_in.
  - intros k Hk. rewrite dict_display_fold by done. cbn [fst snd].
    destruct (decide (k = "success")) as [->|Hks].
    + apply lookup_insert_eq.
    + by rewrite lookup_insert_ne.
Qed.
End dispatcher_requests.

(** ** What the commands change *)

Section dispatcher_frame.
Context `{Driver}.
Implicit Types (s : Session) (params : Params).

Lemma keeps_map_ret {A} (a : A) : keeps_map (mret a).
Proof. done. Qed.

Lemma keeps_map_raise {A} (message : string) : keeps_map (raise (A := A) message).
Proof. done. Qed.

Lemma keeps_map_call {A} (op : World → Outcome A * World) : keeps_map (call op).
Proof. intros s. unfold call. by destruct (op (world s)). Qed.

Lemma keeps_map_bind {A B} (m : Exec A) (k : A → Exec B) :
  keeps_map m → (∀ a, keeps_map (k a)) → keeps_map (m ≫= k).
Proof.
  intros Hm Hk s. rewrite bind_unfold. specialize (Hm s).
  destruct (m s) as [[a|message] s1]; cbn in *; [|done].
  by rewrite Hk.
Qed.

Lemma keeps_map_bind_ret {A B} (a : A) (k : A → Exec B) :
  keeps_map (k a) → keeps_map (mret a ≫= k).
Proof. done. Qed.

Lemma keeps_map_required {A} (field : option A) (message : string) :
  keeps_map (required field message).
Proof. by destruct field. Qed.

Lemma keeps_map_method_of (page : option Page) (method : string) :
  keeps_map (method_of page method).
Proof. by destruct page. Qed.

Lemma keeps_map_resolve_index params : keeps_map (resolve_index params).
Proof. intros s. by rewrite resolve_index_session. Qed.

Lemma keeps_map_set_current_page page : keeps_map (set_current_page page).
Proof. done. Qed.

Lemma keeps_map_get_current_page : keeps_map get_current_page.
Proof. done. Qed.

Lemma keeps_map_page_url (page : Page) : keeps_map (page_url page).
Proof. done. Qed.

Create HintDb keeps_map.
#[local] Hint Resolve keeps_map_ret keeps_map_raise keeps_map_call
  keeps_map_required keeps_map_method_of keeps_map_resolve_index
  keeps_map_set_current_page keeps_map_get_current_page keeps_map_page_url
  : keeps_map.

Ltac keeps_map :=
  repeat first
    [ apply keeps_map_bind; [|intros ?]
    | progress auto with keeps_map
    | match goal with
      | |- keeps_map (if ?b then _ else _) => destruct b
      | |- keeps_map (match ?x with _ => _ end) => destruct x
      end ].

(** Only [screenshot_extract_element] sets the selector map. *)
Lemma keeps_map_execute_action params :
  p_action params ≠ Some "screenshot_extract_element" →
  keeps_map (execute_action params).
Proof.
  intros Hnot. unfold execute_action.
  destruct (p_action params) as [action|]; cbn [required];
    [apply keeps_map_bind_ret|done].
  apply keeps_map_bind; [auto with keeps_map|]. intros page.
  apply keeps_map_bind; [auto with keeps_map|]. intros selector_xpath.
  destruct (String.eqb action "screenshot_extract_element") eqn:Hshot.
  { apply String.eqb_eq in Hshot as ->. done. }
  unfold open_url, get_element, extract_html_content, get_dropdown_options,
    select_dropdown_option, sleep.
  keeps_map.
Qed.

(** X16: no command but [open_url] changes the current page, and no command
    but [screenshot_extract_element] changes the selector map. *)
Theorem commands_leave_page_and_map_alone params s :
  (p_action params ≠ Some "open_url" →
   current_page (execute params s).2 = current_page s)
  ∧ (p_action params ≠ Some "screenshot_extract_element" →
     ctx_selector_map (execute params s).2 = ctx_selector_map s).
Proof.
  split; intros Hnot.
  - pose proof (keeps_page_execute_action params Hnot s) as Hkeep.
    unfold execute. by destruct (execute_action params s) as [[v|message] s'].
  - pose proof (keeps_map_execute_action params Hnot s) as Hkeep.
    unfold execute. by destruct (execute_action params s) as [[v|message] s'].
Qed.

(** *** Navigation that fails *)

(** X17: when the navigation of [open_url] raises, the response carries the
    driver's message, and the page that was current stays current; the page
    that was opened for the navigation is not closed. *)
Theorem failed_navigation_keeps_the_page params s (url : string) (xpath : PyVal)
    (page : Page) (w1 w2 : World) (message : string) :
  p_action params = Some "open_url" →
  p_text params = Some url →
  (resolve_index params s).1 = Ok xpath →
  drv_new_page (world s) = (Ok page, w1) →
  drv_goto page url w1 = (Raise message, w2) →
  execute params s = (error_response message, set_world s w2).
Proof.
  intros Haction Htext Hresolve%resolve_index_ok Hnew Hgoto.
  unfold execute, execute_action. rewrite Haction, Htext. cbn [required].
  rewrite bind_ret, bind_get_current_page, bind_unfold, Hresolve.
  cbn [String.eqb Ascii.eqb Bool.eqb]. rewrite bind_ret, bind_unfold.
  unfold open_url. rewrite call_unfold, Hnew, call_unfold.
  cbn [set_world world]. rewrite Hgoto. cbn [set_world].
  by rewrite dict_display_error.
Qed.

Lemma open_url_loaded s (url : string) (page : Page) (w1 w2 w3 : World) :
  drv_new_page (world s) = (Ok page, w1) →
  drv_goto page url w1 = (Ok (), w2) →
  drv_wait_for_load_state page w2 = (Ok (), w3) →
  open_url url s = (Ok page, on_page s page w3).
Proof.
  intros Hnew Hgoto Hwait. unfold open_url.
  rewrite call_unfold, Hnew, call_unfold. cbn [set_world world].
  rewrite Hgoto, call_unfold. cbn [set_world world]. by rewrite Hwait.
Qed.

(** X18: [open_url] makes the new page current as soon as it has loaded: if
    reading its title then raises, the response is a failure, yet the new
    page is the current page. *)
Theorem page_is_replaced_before_the_title_is_read params s (url : string)
    (xpath : PyVal) (page : Page) (w1 w2 w3 w4 : World) (message : string) :
  p_action params = Some "open_url" →
  p_text params = Some url →
  (resolve_index params s).1 = Ok xpath →
  drv_new_page (world s) = (Ok page, w1) →
  drv_goto page url w1 = (Ok (), w2) →
  drv_wait_for_load_state page w2 = (Ok (), w3) →
  drv_title page w3 = (Raise message, w4) →
  execute params s = (error_response message, on_page s page w4).
Proof.
  intros Haction Htext Hresolve%resolve_index_ok Hnew Hgoto Hwait Htitle.
  unfold execute, execute_action. rewrite Haction, Htext. cbn [required].
  rewrite bind_ret, bind_get_current_page, bind_unfold, Hresolve.
  cbn [String.eqb Ascii.eqb Bool.eqb]. rewrite bind_ret, bind_unfold.
  rewrite (open_url_loaded s url page w1 w2 w3 Hnew Hgoto Hwait).
  rewrite call_unfold. cbn [on_page world]. rewrite Htitle.
  by rewrite dict_display_error.
Qed.

(** *** Snapshots *)

Lemma _inject_dom_builder_session s (s1 : Session) :
  _inject_dom_builder s = (Ok (), s1) →
  ∃ page, current_page s = Some page
          ∧ current_page s1 = Some page
          ∧ ctx_selector_map s1 = ctx_selector_map s.
Proof.
  unfold _inject_dom_builder, _ensure_page.
  rewrite bind_unfold, bind_get_current_page.
  destruct (current_page s) as [page|] eqn:Hpage; [|done].
  cbn [mret Exec_ret]. rewrite call_unfold.
  destruct (drv_evaluate page HasDomBuilder [] (world s)) as [[present|m] w1];
    [|done].
  destruct (negb (py_truthy present)).
  - rewrite call_unfold. cbn [set_world world].
    destruct (drv_evaluate_handle page w1) as [[window|m] w2]; [|done].
    rewrite call_unfold. cbn [set_world world].
    destruct (drv_evaluate page InjectDomBuilder [window] w2) as [[r|m] w3];
      [|done].
    rewrite call_unfold. cbn [set_world world].
    destruct (drv_evaluate page GetHighlightElement [] w3) as [[r'|m] w4];
      [|done].
    intros [= <-]. exists page. cbn. by rewrite Hpage.
  - intros [= <-]. exists page. cbn. by rewrite Hpage.
Qed.

(** X19: [screenshot_extract_element] replaces the selector map as soon as
    the page script has returned, with the map the script returned (the
    empty map if it returned none), whether or not the screenshot and the
    removal of the overlay then succeed. *)
Theorem selector_map_is_replaced_before_the_screenshot params s (xpath : PyVal)
    (page : Page) (s1 : Session) (element_result : ElementResult) (w2 : World) :
  p_action params = Some "screenshot_extract_element" →
  (resolve_index params s).1 = Ok xpath →
  current_page s = Some page →
  _inject_dom_builder s = (Ok (), s1) →
  drv_get_clickable_elements page (world s1) = (Ok element_result, w2) →
  ctx_selector_map (execute params s).2
  = Some (default ∅ (er_selector_map element_result)).
Proof.
  intros Haction Hresolve%resolve_index_ok Hpage Hinject Hscript.
  unfold execute, execute_action. rewrite Haction. cbn [required].
  rewrite bind_ret, bind_get_current_page, bind_unfold, Hresolve, Hpage.
  cbn [String.eqb Ascii.eqb Bool.eqb].
  replace (click_like _) with false by (by vm_compute).
  unfold sleep. rewrite bind_ret, bind_unfold, Hinject, bind_ret.
  cbn [method_of]. rewrite bind_ret, call_unfold, Hscript.
  rewrite bind_unfold. cbn [set_selector_map set_world current_page
                            ctx_selector_map world].
  rewrite call_unfold. cbn [world].
  destruct (drv_screenshot page w2) as [[bytes|m] w3]; [|done].
  rewrite call_unfold. cbn [set_world world].
  by destruct (drv_evaluate page RemoveHighlight [] w3) as [[r|m] w4].
Qed.

(** *** Index lookup *)

(** X20: an index given as an integer finds the entry stored under its
    decimal string, which is looked up first; when there is no such entry,
    or it is empty, the entry stored under the integer itself is used. *)
Theorem integer_index_finds_the_string_key params s (z : Z)
    (m : gmap PyKey (gmap string PyVal)) (entry : gmap string PyVal)
    (xpath : PyVal) :
  p_index params = Some (KInt z) →
  ctx_selector_map s = Some m →
  entry ≠ ∅ →
  entry !! "xpath" = Some xpath →
  py_truthy xpath = true →
  (m !! KStr (pretty z) = Some entry
   ∨ (dict_truthy (m !! KStr (pretty z)) = false ∧ m !! KInt z = Some entry)) →
  resolve_index params s = (Ok xpath, s).
Proof.
  intros Hindex Hmap Hentry Hxpath Htruthy Hfound.
  assert (m ≠ ∅) as Hne.
  { intros ->. rewrite !lookup_empty in Hfound. by destruct Hfound as [?|[_ ?]]. }
  unfold resolve_index. rewrite bind_unfold. cbn [get_selector_map].
  rewrite Hindex, Hmap. cbn [dict_truthy default py_str_key].
  rewrite (bool_decide_eq_false_2 _ Hne). cbn [negb id].
  assert (py_or (m !! KStr (pretty z)) (m !! KInt z) = Some entry) as ->.
  { unfold py_or. destruct Hfound as [->|[-> ->]]; [|done].
    cbn [dict_truthy]. by rewrite (bool_decide_eq_false_2 _ Hentry). }
  cbn [dict_truthy]. rewrite (bool_decide_eq_false_2 _ Hentry).
  cbn [negb mbind option_bind]. rewrite Hxpath. cbn [default id].
  by rewrite Htruthy.
Qed.

(** *** Clicks *)

(** X21: a click command whose element is found makes one call on the
    element, with the left button for [click], the right button for
    [right_click] and a double click for [double_click], and when the call
    returns it responds with [success] and the result [True]. *)
Theorem click_commands_use_their_button params s (action : string)
    (index : PyKey) (xpath : PyVal) (page : Page) (element : ElementHandle)
    (w1 w2 : World) :
  p_action params = Some action →
  click_like action = true →
  p_index params = Some index →
  (resolve_index params s).1 = Ok xpath →
  py_truthy xpath = true →
  current_page s = Some page →
  drv_query_selector page xpath (world s) = (Ok (Some element), w1) →
  click_operation action element w1 = (Ok (), w2) →
  execute params s
  = ({[ "success" := VBool true; "result" := VBool true ]}, set_world s w2).
Proof.
  intros Haction Hclick Hindex Hresolve%resolve_index_ok Htruthy Hpage Hquery Hop.
  unfold execute, execute_action. rewrite Haction, Hindex. cbn [required].
  rewrite bind_ret, bind_get_current_page, bind_unfold, Hresolve, Hpage.
  assert (String.eqb action "open_url" = false) as ->.
  { apply String.eqb_neq. intros ->. by vm_compute in Hclick. }
  assert (String.eqb action "input_text" = false) as ->.
  { apply String.eqb_neq. intros ->. by vm_compute in Hclick. }
  rewrite Hclick, bind_ret, bind_unfold.
  unfold get_element. rewrite Htruthy. cbn [negb method_of].
  rewrite bind_ret. unfold call at 1. rewrite Hquery.
  rewrite bind_unfold.
  assert ((if String.eqb action "click"
           then call (drv_click element LeftButton)
           else if String.eqb action "right_click"
           then call (drv_click element RightButton)
           else if String.eqb action "double_click"
           then call (drv_dblclick element)
           else mret ())
          = call (click_operation action element)) as ->.
  { unfold click_operation.
    destruct (String.eqb action "click") eqn:H1; [done|].
    destruct (String.eqb action "right_click") eqn:H2; [done|].
    destruct (String.eqb action "double_click") eqn:H3; [done|].
    exfalso. unfold click_like in Hclick. apply bool_decide_eq_true in Hclick.
    rewrite !elem_of_cons, elem_of_nil in Hclick.
    destruct Hclick as [->|[->|[->|[]]]]; done. }
  rewrite call_unfold. cbn [set_world world]. rewrite Hop.
  cbv beta iota delta [sleep mret Exec_ret mbind Exec_bind].
  cbn [set_world world current_page ctx_selector_map].
  unfold respond. cbn [py_truthy]. by f_equal.
Qed.
End dispatcher_frame.

(** X12, witness: a click without an index. *)
Lemma missing_index_is_reported_witness :
  (execute (request "click" None None) (example_session (Some 1%nat) None 1%nat)).1
    !! "error"
  = Some (VStr "index parameter is required").
Proof.
  rewrite (missing_index_is_reported (request "click" None None)
             (example_session (Some 1%nat) None 1%nat) "click" eq_refl).
  - reflexivity.
  - unfold index_commands. apply (bool_decide_unpack _). vm_compute. exact I.
  - reflexivity.
Defined.

(** X13, witness: [input_text] with an index and no text. *)
Lemma missing_text_is_reported_witness :
  (execute (request "input_text" (Some (KInt 0)) None)
           (example_session (Some 1%nat) (Some example_selector_map) 1%nat)).1
    !! "error"
  = Some (VStr "text parameter is required").
Proof.
  rewrite (missing_text_is_reported
             (request "input_text" (Some (KInt 0)) None)
             (example_session (Some 1%nat) (Some example_selector_map) 1%nat)
             "input_text" (VStr "html/body/button") eq_refl).
  - reflexivity.
  - unfold text_commands. apply (bool_decide_unpack _). vm_compute. exact I.
  - reflexivity.
  - vm_compute. reflexivity.
  - intros _. by eexists.
Defined.

(** X15, witness: the failure that the script of [select_dropdown_option]
    reports comes back as the response, [success] included. *)
Lemma result_dict_entries_override_witness :
  let d := scripted_driver (Ok ()) (Ok "Example Domain") (VDict option_not_found) in
  let s := scripted_session d (Some 1%nat) (Some example_selector_map) 1%nat in
  let params := request "select_dropdown_option" (Some (KInt 0)) (Some "Blue") in
  (@execute d params s).1 !! "success" = Some (VBool false)
  ∧ (@execute d params s).1 !! "error" = Some (VStr "Option not found")
  ∧ (@execute d params s).1 !! "result" = None.
Proof.
  intros d s params.
  assert (@execute_action d params s = (Ok (VDict option_not_found), s)) as Hrun
    by (vm_compute; reflexivity).
  assert (option_not_found ≠ []) as Hne by discriminate.
  assert (NoDup option_not_found.*1) as Hnodup.
  { apply (bool_decide_unpack _). vm_compute. exact I. }
  destruct (@result_dict_entries_override d params s option_not_found s
              Hrun Hne Hnodup) as [Hin Hout].
  split; [|split].
  - apply Hin. left.
  - apply Hin. right. left.
  - rewrite Hout; [done|]. apply (bool_decide_unpack _). vm_compute. exact I.
Defined.

(** X17, witness: a navigation that cannot resolve the host. *)
Lemma failed_navigation_keeps_the_page_witness :
  let d := scripted_driver (Raise "net::ERR_NAME_NOT_RESOLVED")
             (Ok "Example Domain") VNone in
  let s := scripted_session d (Some 1%nat) None 1%nat in
  let params := request "open_url" None (Some "https://nowhere.test/") in
  (@execute d params s).1 !! "error" = Some (VStr "net::ERR_NAME_NOT_RESOLVED")
  ∧ @current_page d (@execute d params s).2 = Some 1%nat.
Proof.
  intros d s params.
  rewrite (@failed_navigation_keeps_the_page d params s "https://nowhere.test/"
             VNone 2%nat 2%nat 2%nat "net::ERR_NAME_NOT_RESOLVED"
             eq_refl eq_refl eq_refl eq_refl eq_refl).
  split; [apply error_response_error|reflexivity].
Defined.

(** X18, witness: a page that closes before its title is read. *)
Lemma page_is_replaced_before_the_title_is_read_witness :
  let d := scripted_driver (Ok ()) (Raise "Target page has been closed") VNone in
  let s := scripted_session d (Some 1%nat) None 1%nat in
  let params := request "open_url" None (Some "https://example.test/") in
  (@execute d params s).1 !! "success" = Some (VBool false)
  ∧ @current_page d (@execute d params s).2 = Some 2%nat.
Proof.
  intros d s params.
  rewrite (@page_is_replaced_before_the_title_is_read d params s
             "https://example.test/" VNone 2%nat 2%nat 2%nat 2%nat 2%nat
             "Target page has been closed"
             eq_refl eq_refl eq_refl eq_refl eq_refl eq_refl eq_refl).
  split; [apply error_response_success|reflexivity].
Defined.

(** X19, witness: a snapshot of the example page replaces an older map. *)
Lemma selector_map_is_replaced_before_the_screenshot_witness :
  let s := example_session (Some 1%nat)
             (Some {[ KStr "7" := {[ "xpath" := VStr "html/body/a" ]} ]}) 1%nat in
  let params := request "screenshot_extract_element" None None in
  @ctx_selector_map example_driver (execute params s).2
  = Some example_selector_map.
Proof.
  intros s params.
  exact (@selector_map_is_replaced_before_the_screenshot example_driver params s
           VNone 1%nat s
           {| er_selector_map := Some example_selector_map;
              er_element_str := Some (VStr "[0]:<button>OK</button>") |}
           1%nat eq_refl eq_refl eq_refl eq_refl eq_refl).
Defined.

(** X20, witness: index 0, given as an integer, finds the entry that the
    page script stored under the string 0. *)
Lemma integer_index_finds_the_string_key_witness :
  let s := example_session (Some 1%nat) (Some example_selector_map) 1%nat in
  @resolve_index example_driver (request "click" (Some (KInt 0)) None) s
  = (Ok (VStr "html/body/button"), s).
Proof.
  intros s.
  apply (@integer_index_finds_the_string_key example_driver
           (request "click" (Some (KInt 0)) None) s 0 example_selector_map
           {[ "xpath" := VStr "html/body/button" ]} (VStr "html/body/button")).
  - reflexivity.
  - reflexivity.
  - intros Hempty.
    assert (({[ "xpath" := VStr "html/body/button" ]} : gmap string PyVal)
            !! "xpath" = None) as Hnone by (by rewrite Hempty).
    by vm_compute in Hnone.
  - vm_compute. reflexivity.
  - reflexivity.
  - left. vm_compute. reflexivity.
Defined.

(** X21, witness: a right click on the button of the example page. *)
Lemma click_commands_use_their_button_witness :
  let s := example_session (Some 1%nat) (Some example_selector_map) 1%nat in
  @execute example_driver (request "right_click" (Some (KInt 0)) None) s
  = ({[ "success" := VBool true; "result" := VBool true ]}, s).
Proof.
  intros s.
  exact (@click_commands_use_their_button example_driver
           (request "right_click" (Some (KInt 0)) None) s "right_click" (KInt 0)
           (VStr "html/body/button") 1%nat "button" 1%nat 1%nat
           eq_refl eq_refl eq_refl eq_refl eq_refl eq_refl eq_refl eq_refl).
Defined.

(** ** More of the dispatcher *)

Section dispatcher_more.
Context `{Driver}.
Implicit Types (s : Session) (params : Params).

(** X22: [input_text] on an element that is found first fills the element
    with the empty text and then with the text of the request; when both
    calls return it responds with [success] and the result [True]. *)
Theorem input_text_clears_before_it_fills params s (index : PyKey) (text : string)
    (xpath : PyVal) (page : Page) (element : ElementHandle) (w1 w2 w3 : World) :
  p_action params = Some "input_text" →
  p_index params = Some index →
  p_text params = Some text →
  (resolve_index params s).1 = Ok xpath →
  py_truthy xpath = true →
  current_page s = Some page →
  drv_query_selector page xpath (world s) = (Ok (Some element), w1) →
  drv_fill element "" w1 = (Ok (), w2) →
  drv_fill element text w2 = (Ok (), w3) →
  execute params s
  = ({[ "success" := VBool true; "result" := VBool true ]}, set_world s w3).
Proof.
  intros Haction Hindex Htext Hresolve%resolve_index_ok Htruthy Hpage Hquery
    Hclear Hfill.
  unfold execute, execute_action. rewrite Haction, Hindex, Htext. cbn [required].
  rewrite bind_ret, bind_get_current_page, bind_unfold, Hresolve, Hpage.
  cbn [String.eqb Ascii.eqb Bool.eqb]. rewrite !bind_ret, bind_unfold.
  unfold get_element. rewrite Htruthy. cbn [negb method_of].
  rewrite bind_ret. unfold call at 1. rewrite Hquery.
  rewrite bind_unfold, call_unfold. cbn [set_world world]. rewrite Hclear.
  rewrite call_unfold. cbn [set_world world]. rewrite Hfill.
  cbv beta iota delta [sleep mret Exec_ret mbind Exec_bind].
  cbn [set_world world current_page ctx_selector_map].
  unfold respond. cbn [py_truthy]. by f_equal.
Qed.

(** X23: while no page is open, a command other than [open_url] whose index
    resolves and whose required fields are there (the index for the commands
    that ask for one, the text for [input_text] and
    [select_dropdown_option]; nothing else is asked of the request) answers
    as follows: the commands that look an element up return the bare failure
    if there is no locator and otherwise the AttributeError of
    [query_selector]; [scroll_to] and the commands that run a page script
    return the AttributeError of the method they call on the page; only
    [screenshot_extract_element] says that no page is open.  The session
    stays as it is. *)
Theorem commands_without_page_answer params s (action : string) (xpath : PyVal) :
  current_page s = None →
  p_action params = Some action →
  action ∈ command_names →
  action ≠ "open_url" →
  (resolve_index params s).1 = Ok xpath →
  (action ∈ index_commands → is_Some (p_index params)) →
  (action ∈ text_commands → is_Some (p_text params)) →
  execute params s = (without_page action xpath, s).
Proof.
  intros Hpage Haction Hin Hnot Hresolve%resolve_index_ok Hindex Htext.
  unfold execute, execute_action. rewrite Haction. cbn [required].
  rewrite bind_ret, bind_get_current_page, bind_unfold, Hresolve, Hpage.
  unfold command_names in Hin. rewrite !elem_of_cons, elem_of_nil in Hin.
  unfold without_page, get_element, extract_html_content, get_dropdown_options,
    select_dropdown_option, _inject_dom_builder, _ensure_page, sleep.
  destruct Hin as [->|[->|[->|[->|[->|[->|[->|[->|[->|[->|[]]]]]]]]]]];
    try done;
    try (destruct Hindex as [index ->];
         [apply (bool_decide_unpack _); vm_compute; exact I|]);
    try (destruct Htext as [text ->];
         [apply (bool_decide_unpack _); vm_compute; exact I|]);
    cbn [required String.eqb Ascii.eqb Bool.eqb];
    try (replace (click_like _) with true by (by vm_compute));
    try (replace (click_like _) with false by (by vm_compute));
    try (rewrite (bool_decide_eq_true_2 (_ ∈ _))
           by (rewrite !elem_of_cons; tauto));
    try (rewrite (bool_decide_eq_false_2 (_ ∈ _))
           by (rewrite !elem_of_cons, elem_of_nil;
               intros Hfalse; repeat destruct Hfalse as [Hfalse|Hfalse];
               discriminate || done));
    try (destruct (py_truthy xpath); cbn [negb]);
    repeat first
      [ rewrite Hpage
      | progress cbv beta iota delta
          [get_current_page mret Exec_ret mbind Exec_bind raise method_of] ];
    rewrite ?dict_display_error; unfold respond; cbn [py_truthy];
    rewrite ?dict_display_bare; reflexivity.
Qed.
End dispatcher_more.

(** X22, witness: typing into the button of the example page. *)
Lemma input_text_clears_before_it_fills_witness :
  let s := example_session (Some 1%nat) (Some example_selector_map) 1%nat in
  @execute example_driver (request "input_text" (Some (KInt 0)) (Some "hello")) s
  = ({[ "success" := VBool true; "result" := VBool true ]}, s).
Proof.
  intros s.
  exact (@input_text_clears_before_it_fills example_driver
           (request "input_text" (Some (KInt 0)) (Some "hello")) s (KInt 0) "hello"
           (VStr "html/body/button") 1%nat "button" 1%nat 1%nat 1%nat
           eq_refl eq_refl eq_refl eq_refl eq_refl eq_refl eq_refl eq_refl eq_refl).
Defined.

(** X23, witness: before any page is open, [scroll_to] with an index and no
    text answers with the AttributeError of [eval_on_selector], and
    [screenshot_extract_element] with neither says that no page is open. *)
Lemma commands_without_page_answer_witness :
  let s := example_session None None 0%nat in
  (@execute example_driver (request "scroll_to" (Some (KInt 0)) None) s).1
    !! "error"
  = Some (VStr "'NoneType' object has no attribute 'eval_on_selector'")
  ∧ (@execute example_driver (request "screenshot_extract_element" None None) s).1
    !! "error"
  = Some (VStr "No page open; call open_url first.").
Proof.
  intros s. split.
  - rewrite (@commands_without_page_answer example_driver
               (request "scroll_to" (Some (KInt 0)) None) s "scroll_to" VNone
               eq_refl eq_refl).
    + reflexivity.
    + apply (bool_decide_unpack _). vm_compute. exact I.
    + discriminate.
    + reflexivity.
    + by eexists.
    + intros Hin. exfalso. apply (bool_decide_pack _) in Hin. exact Hin.
  - rewrite (@commands_without_page_answer example_driver
               (request "screenshot_extract_element" None None) s
               "screenshot_extract_element" VNone eq_refl eq_refl).
    + reflexivity.
    + apply (bool_decide_unpack _). vm_compute. exact I.
    + discriminate.
    + reflexivity.
    + intros Hin. exfalso. apply (bool_decide_pack _) in Hin. exact Hin.
    + intros Hin. exfalso. apply (bool_decide_pack _) in Hin. exact Hin.
Defined.

(** ** Shutting down *)

Section shutdown_facts.
Context `{Launcher}.

(** X24: when [destroy] returns, the selector map is gone from the context,
    and if there was a browser, the browser, its context and the current
    page are forgotten; a second [destroy] then changes nothing and makes no
    call on the driver. *)
Theorem destroy_clears_and_is_idempotent (h h' : Handles) (s s' : Session) :
  destroy h s = (Ok (), (h', s')) →
  ctx_selector_map s' = None
  ∧ (is_Some (browser h) →
     browser h' = None ∧ browser_context h' = None ∧ current_page s' = None)
  ∧ destroy h' s' = (Ok (), (h', s')).
Proof.
  unfold destroy. destruct (browser h) as [b|] eqn:Hb.
  - cbn [world]. destruct (drv_close b (world s)) as [[[]|m] w]; [|done].
    cbn [playwright world]. destruct (playwright h) as [p|]; [|done].
    destruct (drv_stop p w) as [[[]|m] w']; [|done].
    intros [= <- <-]. cbn. done.
  - intros [= <- <-]. cbn. rewrite Hb. split; [done|]. split; [|done].
    by intros [? ?].
Qed.

End shutdown_facts.

(** X24, witness: shutting the example browser down twice. *)
Lemma destroy_clears_and_is_idempotent_witness :
  let s := example_session (Some 1%nat) (Some example_selector_map) 1%nat in
  ∃ h' s',
    @destroy example_driver example_launcher example_handles s = (Ok (), (h', s'))
    ∧ @destroy example_driver example_launcher h' s' = (Ok (), (h', s'))
    ∧ @current_page example_driver s' = None.
Proof.
  intros s.
  destruct (@destroy example_driver example_launcher example_handles s)
    as [[[]|m] [h' s']] eqn:Hrun; [|by vm_compute in Hrun].
  destruct (@destroy_clears_and_is_idempotent example_driver example_launcher
              example_handles h' s s' Hrun) as (_ & Hcleared & Hagain).
  exists h', s'. split; [done|]. split; [done|].
  by destruct Hcleared as (_ & _ & ?); [by eexists|].
Defined.

(** ** The dropdown scripts *)

Lemma find_text_listed (options : list OptionData) (text : string) :
  text ∈ (λ opt, trim (opt_text opt)) <$> options →
  ∃ option,
    List.find (λ opt, String.eqb (trim (opt_text opt)) text) options = Some option
    ∧ option ∈ options ∧ trim (opt_text option) = text.
Proof.
  intros (opt & -> & Hopt)%list_elem_of_fmap.
  destruct (List.find _ options) as [option|] eqn:Hfind.
  - apply find_some in Hfind as [Hin Heq]. apply String.eqb_eq in Heq.
    exists option. by rewrite <-list_elem_of_In in Hin.
  - apply list_elem_of_In in Hopt.
    pose proof (find_none _ _ Hfind opt Hopt) as Hne. cbn in Hne.
    by rewrite String.eqb_refl in Hne.
Qed.

Lemma find_text_unlisted (options : list OptionData) (text : string) :
  text ∉ (λ opt, trim (opt_text opt)) <$> options →
  List.find (λ opt, String.eqb (trim (opt_text opt)) text) options = None.
Proof.
  intros Hnot. destruct (List.find _ options) as [option|] eqn:Hfind; [|done].
  apply find_some in Hfind as [Hin Heq]. apply String.eqb_eq in Heq.
  destruct Hnot. apply list_elem_of_fmap. exists option.
  by rewrite <-list_elem_of_In in Hin.
Qed.

Lemma select_script_found (select : SelectData) (options : list OptionData)
    (text : string) :
  toUpperCase (sel_tagName select) = "SELECT" →
  sel_options select = Some options →
  text ∈ listed_texts select →
  ∃ option,
    List.find (λ opt, String.eqb (trim (opt_text opt)) text) options = Some option
    ∧ select_dropdown_option_script (Some select) text
      = Returns (JsObject [("success", JsBool true);
                           ("selectedValue", JsString (opt_value option));
                           ("selectedText", JsString text)],
                 Some (opt_value option)).
Proof.
  intros Htag Hoptions. unfold select_dropdown_option_script, listed_texts.
  rewrite Htag, Hoptions. cbn [String.eqb Ascii.eqb Bool.eqb negb default id].
  intros (option & Hfind & _ & Htext)%find_text_listed.
  exists option. split; [done|]. by rewrite Hfind, Htext.
Qed.

Lemma select_script_not_found (select : SelectData) (text : string) :
  toUpperCase (sel_tagName select) = "SELECT" →
  is_Some (sel_options select) →
  text ∉ listed_texts select →
  select_dropdown_option_script (Some select) text
  = Returns (JsObject [("success", JsBool false);
                       ("error", JsString "Option not found");
                       ("availableOptions",
                        JsArray (JsString <$> listed_texts select))],
             None).
Proof.
  intros Htag [options Hoptions].
  unfold select_dropdown_option_script, listed_texts.
  rewrite Htag, Hoptions. cbn [String.eqb Ascii.eqb Bool.eqb negb default id].
  intros Hfind%find_text_unlisted. rewrite Hfind.
  by rewrite <-list_fmap_compose.
Qed.

(** X25: on a select element the script of [select_dropdown_option] chooses
    by the trimmed text of the options: if some option has the text asked
    for, the first such option is chosen, its value is assigned and reported;
    otherwise nothing is assigned and the texts of all options are
    reported. *)
Theorem option_is_chosen_by_its_trimmed_text (select : SelectData)
    (options : list OptionData) (text : string) :
  toUpperCase (sel_tagName select) = "SELECT" →
  sel_options select = Some options →
  (text ∈ listed_texts select →
   ∃ option,
     List.find (λ opt, String.eqb (trim (opt_text opt)) text) options = Some option
     ∧ select_dropdown_option_script (Some select) text
       = Returns (JsObject [("success", JsBool true);
                            ("selectedValue", JsString (opt_value option));
                            ("selectedText", JsString text)],
                  Some (opt_value option)))
  ∧ (text ∉ listed_texts select →
     select_dropdown_option_script (Some select) text
     = Returns (JsObject [("success", JsBool false);
                          ("error", JsString "Option not found");
                          ("availableOptions",
                           JsArray (JsString <$> listed_texts select))],
                None)).
Proof.
  intros Htag Hoptions. split.
  - by apply select_script_found.
  - apply select_script_not_found; [done|]. by rewrite Hoptions.
Qed.

(** X25, witness: on the example select, Red chooses the first option,
    whose text has blanks around it. *)
Lemma option_is_chosen_by_its_trimmed_text_witness :
  select_dropdown_option_script (Some example_select) "Red"
  = Returns (JsObject [("success", JsBool true);
                       ("selectedValue", JsString "r");
                       ("selectedText", JsString "Red")],
             Some "r").
Proof.
  destruct (proj1 (option_is_chosen_by_its_trimmed_text example_select
                     (default [] (sel_options example_select)) "Red"
                     eq_refl eq_refl))
    as (option & Hfind & Hrun).
  - apply (bool_decide_unpack _). vm_compute. exact I.
  - vm_compute in Hfind. injection Hfind as <-. exact Hrun.
Defined.

Lemma listed_texts_trimmed (select : SelectData) (text : string) :
  text ∈ listed_texts select → trimmed text.
Proof.
  unfold listed_texts. intros (opt & -> & _)%list_elem_of_fmap.
  apply trim_idempotent.
Qed.

(** X26: a text that starts or ends with white space chooses no option of a
    select element, whatever its options are. *)
Theorem untrimmed_text_chooses_no_option (select : SelectData) (text : string) :
  toUpperCase (sel_tagName select) = "SELECT" →
  is_Some (sel_options select) →
  ¬ trimmed text →
  ∃ available,
    select_dropdown_option_script (Some select) text
    = Returns (JsObject [("success", JsBool false);
                         ("error", JsString "Option not found");
                         ("availableOptions", JsArray available)],
               None).
Proof.
  intros Htag Hoptions Hnot. eexists.
  apply select_script_not_found; [done..|].
  intros Hin. by apply Hnot, (listed_texts_trimmed select).
Qed.

(** X26, witness: Green followed by a blank is not found on the example
    select, which has the option Green. *)
Lemma untrimmed_text_chooses_no_option_witness :
  "Green" ∈ listed_texts example_select
  ∧ ∃ available,
      select_dropdown_option_script (Some example_select) "Green "
      = Returns (JsObject [("success", JsBool false);
                           ("error", JsString "Option not found");
                           ("availableOptions", JsArray available)],
                 None).
Proof.
  split; [apply (bool_decide_unpack _); vm_compute; exact I|].
  apply (untrimmed_text_chooses_no_option example_select "Green ");
    [reflexivity|by eexists|].
  unfold trimmed. vm_compute. discriminate.
Defined.

(** X27: every text that the script of [get_dropdown_options] lists for a
    select element chooses an option when it is handed to the script of
    [select_dropdown_option], and comes back as the selected text. *)
Theorem every_listed_option_can_be_selected (select : SelectData)
    (result : JsVal) (text : string) :
  toUpperCase (sel_tagName select) = "SELECT" →
  get_dropdown_options_script (Some select) = Returns result →
  text ∈ texts_of result →
  ∃ value,
    select_dropdown_option_script (Some select) text
    = Returns (JsObject [("success", JsBool true);
                         ("selectedValue", JsString value);
                         ("selectedText", JsString text)],
               Some value).
Proof.
  intros Htag Hlist Hin. unfold get_dropdown_options_script in Hlist.
  destruct (sel_options select) as [options|] eqn:Hoptions; [|done].
  injection Hlist as <-.
  assert (text ∈ listed_texts select) as Hlisted.
  { unfold listed_texts. rewrite Hoptions. cbn [default id].
    unfold texts_of in Hin. cbn in Hin.
    apply list_elem_of_omap in Hin as (entry & Hentry & Htext).
    apply list_elem_of_fmap in Hentry as (opt & -> & Hopt).
    cbn in Htext. injection Htext as <-.
    apply list_elem_of_fmap. by exists opt. }
  destruct (select_script_found select options text Htag Hoptions Hlisted)
    as (option & _ & Hrun).
  by exists (opt_value option).
Qed.

(** X27, witness: the texts listed for the example select, and Green chosen
    from them. *)
Lemma every_listed_option_can_be_selected_witness :
  ∃ result,
    get_dropdown_options_script (Some example_select) = Returns result
    ∧ texts_of result = ["Red"; "Green"; "Red"]
    ∧ ∃ value,
        select_dropdown_option_script (Some example_select) "Green"
        = Returns (JsObject [("success", JsBool true);
                             ("selectedValue", JsString value);
                             ("selectedText", JsString "Green")],
                   Some value).
Proof.
  destruct (get_dropdown_options_script (Some example_select)) as [result|m]
    eqn:Hrun; [|by vm_compute in Hrun].
  assert (texts_of result = ["Red"; "Green"; "Red"]) as Htexts.
  { vm_compute in Hrun. injection Hrun as <-. vm_compute. reflexivity. }
  exists result. split; [done|]. split; [exact Htexts|].
  apply (every_listed_option_can_be_selected example_select result "Green");
    [reflexivity|exact Hrun|].
  rewrite Htexts. right. left.
Defined.

(** ** The script of [extract_html_content] *)

Lemma trimStart_suffix (s : string) : ∃ dropped, s = dropped +:+ trimStart s.
Proof.
  induction s as [|c s [dropped IH]]; [by exists ""|].
  cbn [trimStart]. destruct (Ascii.is_space c).
  - exists (String c dropped). by rewrite string_append_cons, <-IH.
  - by exists "".
Qed.

(** [trim] cuts a piece out of the string. *)
Lemma trim_substring (s : string) : ∃ before after, s = before +:+ trim s +:+ after.
Proof.
  unfold trim. destruct (trimStart_suffix s) as [before Hs].
  destruct (trimStart_suffix (String.rev (trimStart s))) as [dropped Hr].
  exists before, (String.rev dropped).
  rewrite <-string_rev_append, <-Hr, string_rev_involutive. exact Hs.
Qed.

Lemma no_double_substring (c : ascii) (before s after : string) :
  no_double c (before +:+ s +:+ after) → no_double c s.
Proof.
  unfold no_double. intros Hs l1 l2 Heq.
  apply (Hs (list_ascii_of_string before ++ l1) (l2 ++ list_ascii_of_string after)).
  rewrite !chars_append, Heq, <-!app_assoc. done.
Qed.

Lemma no_double_trim (c : ascii) (s : string) : no_double c s → no_double c (trim s).
Proof.
  intros Hs. destruct (trim_substring s) as (before & after & Heq).
  rewrite Heq in Hs. by eapply no_double_substring.
Qed.

Lemma no_double_tail (c a : ascii) (s : string) :
  no_double c (String a s) → no_double c s.
Proof.
  unfold no_double. intros Hs l1 l2 Heq. apply (Hs (a :: l1) l2).
  cbn [list_ascii_of_string app]. by rewrite Heq.
Qed.

(** Within a run, what is left of the run is dropped. *)
Lemma squeeze_runs_in_run (c : ascii) (s : string) :
  head (list_ascii_of_string (squeeze_runs c true s)) ≠ Some c.
Proof.
  induction s as [|a s IH]; [done|]. cbn [squeeze_runs].
  destruct (Ascii.eqb a c) eqn:Hac; [done|].
  cbn. intros [= ->]. by rewrite Ascii.eqb_refl in Hac.
Qed.

Lemma squeeze_runs_no_double (c : ascii) (s : string) (in_run : bool) :
  no_double c (squeeze_runs c in_run s).
Proof.
  unfold no_double. revert in_run.
  induction s as [|a s IH]; intros in_run before after.
  { cbn. by destruct before. }
  cbn [squeeze_runs]. destruct (Ascii.eqb a c) eqn:Hac.
  - destruct in_run; [apply IH|].
    cbn [list_ascii_of_string]. destruct before as [|x before]; cbn [app].
    + intros [= Heq]. pose proof (squeeze_runs_in_run c s) as Hhead.
      by rewrite Heq in Hhead.
    + intros [= _ Heq]. by apply (IH true before after).
  - cbn [list_ascii_of_string]. destruct before as [|x before]; cbn [app].
    + intros [= -> _]. by rewrite Ascii.eqb_refl in Hac.
    + intros [= _ Heq]. by apply (IH false before after).
Qed.

(** Outside a run, what comes first stays first unless it is the squeezed
    character. *)
Lemma squeeze_runs_head (c n : ascii) (s : string) :
  n ≠ c →
  head (list_ascii_of_string (squeeze_runs c false s)) = Some n →
  head (list_ascii_of_string s) = Some n.
Proof.
  intros Hne. destruct s as [|a s]; [done|]. cbn [squeeze_runs].
  destruct (Ascii.eqb a c) eqn:Hac; [|done].
  cbn. intros [= ->]. done.
Qed.

Lemma squeeze_runs_keeps_no_double (c n : ascii) (s : string) (in_run : bool) :
  n ≠ c → no_double n s → no_double n (squeeze_runs c in_run s).
Proof.
  intros Hne. revert in_run.
  induction s as [|a s IH]; intros in_run Hs; [done|].
  pose proof (no_double_tail n a s Hs) as Htail.
  cbn [squeeze_runs]. destruct (Ascii.eqb a c) eqn:Hac.
  - apply Ascii.eqb_eq in Hac as ->.
    destruct in_run; [by apply IH|].
    intros before after. cbn [list_ascii_of_string].
    destruct before as [|x before]; cbn [app].
    + intros [= -> _]. done.
    + intros [= _ Heq]. by apply (IH true Htail before after).
  - intros before after. cbn [list_ascii_of_string].
    destruct before as [|x before]; cbn [app].
    + intros [= -> Heq].
      assert (head (list_ascii_of_string s) = Some n) as Hhead.
      { apply (squeeze_runs_head c n s Hne). by rewrite Heq. }
      destruct s as [|b s]; [done|]. cbn in Hhead. injection Hhead as ->.
      by apply (Hs [] (list_ascii_of_string s)).
    + intros [= _ Heq]. by apply (IH false Htail before after).
Qed.

(** X28: what the script of [extract_html_content] returns holds no two
    line breaks in a row and no two spaces in a row, and neither starts nor
    ends with white space. *)
Theorem extracted_content_is_squeezed_and_trimmed (page : ContentPage) :
  no_double newline (extract_html_content_script page)
  ∧ no_double " " (extract_html_content_script page)
  ∧ trimmed (extract_html_content_script page).
Proof.
  unfold extract_html_content_script. cbn zeta.
  split; [|split].
  - apply no_double_trim, squeeze_runs_keeps_no_double; [done|].
    apply squeeze_runs_no_double.
  - apply no_double_trim, squeeze_runs_no_double.
  - apply trim_idempotent.
Qed.

(** The two articles of the example page, with their blanks squeezed. *)
Example example_extraction :
  extract_html_content_script example_content
  = "One two" +:+ String newline "Three".
Proof. vm_compute. reflexivity. Qed.

(** ** Task distribution *)

Lemma all_tasks_of_cons (domain : string) (examples : list string) (m : TaskTable) :
  all_tasks_of ((domain, examples) :: m) = (pair domain <$> examples) ++ all_tasks_of m.
Proof. reflexivity. Qed.

Lemma all_tasks_of_app (m1 m2 : TaskTable) :
  all_tasks_of (m1 ++ m2) = all_tasks_of m1 ++ all_tasks_of m2.
Proof. unfold all_tasks_of. apply bind_app. Qed.

Lemma add_task_fresh (acc : TaskTable) (domain example_id : string) :
  domain ∉ acc.*1 →
  add_task acc (domain, example_id) = acc ++ [(domain, [example_id])].
Proof.
  intros Hfresh. unfold add_task. cbn [fst snd].
  rewrite bool_decide_eq_false_2 by done. rewrite fmap_app. f_equal.
  - induction acc as [|[d ids] acc IH]; [done|].
    rewrite fmap_cons, not_elem_of_cons in Hfresh. destruct Hfresh as [Hne Hfresh].
    cbn [fmap list_fmap fst snd]. rewrite (proj2 (String.eqb_neq d domain)) by done.
    f_equal. by apply IH.
  - cbn. by rewrite String.eqb_refl.
Qed.

Lemma add_task_last (acc : TaskTable) (domain example_id : string)
    (examples : list string) :
  domain ∉ acc.*1 →
  add_task (acc ++ [(domain, examples)]) (domain, example_id)
  = acc ++ [(domain, examples ++ [example_id])].
Proof.
  intros Hfresh. unfold add_task. cbn [fst snd].
  rewrite bool_decide_eq_true_2
    by (rewrite fmap_app, elem_of_app; right; cbn; left).
  rewrite fmap_app. f_equal.
  - induction acc as [|[d ids] acc IH]; [done|].
    rewrite fmap_cons, not_elem_of_cons in Hfresh. destruct Hfresh as [Hne Hfresh].
    cbn [fmap list_fmap fst snd]. rewrite (proj2 (String.eqb_neq d domain)) by done.
    f_equal. by apply IH.
  - cbn. by rewrite String.eqb_refl.
Qed.

Lemma add_tasks_of_known_domain (acc : TaskTable) (domain : string)
    (examples : list string) : ∀ known : list string,
  domain ∉ acc.*1 →
  foldl add_task (acc ++ [(domain, known)]) (pair domain <$> examples)
  = acc ++ [(domain, known ++ examples)].
Proof.
  induction examples as [|x examples IH]; intros known Hfresh.
  { by rewrite app_nil_r. }
  rewrite fmap_cons. cbn [foldl]. rewrite add_task_last by done.
  rewrite IH by done. by rewrite <-app_assoc.
Qed.

(** The tasks of one domain, added to a table that does not have it. *)
Lemma add_tasks_of_domain (acc : TaskTable) (domain : string)
    (examples : list string) :
  domain ∉ acc.*1 →
  foldl add_task acc (pair domain <$> examples)
  = if decide (examples = []) then acc else acc ++ [(domain, examples)].
Proof.
  intros Hfresh. destruct examples as [|x examples]; [done|].
  rewrite decide_False by done. rewrite fmap_cons. cbn [foldl].
  rewrite add_task_fresh by done. by rewrite add_tasks_of_known_domain.
Qed.

(** Regrouping tasks that come domain by domain gives them back. *)
Lemma regroup (m acc : TaskTable) :
  NoDup m.*1 →
  (∀ domain, domain ∈ m.*1 → domain ∉ acc.*1) →
  all_tasks_of (foldl add_task acc (all_tasks_of m))
  = all_tasks_of acc ++ all_tasks_of m.
Proof.
  revert acc. induction m as [|[domain examples] m IH]; intros acc Hnodup Hfresh.
  { cbn. by rewrite app_nil_r. }
  rewrite fmap_cons in Hnodup. apply NoDup_cons in Hnodup as [Hd Hnodup].
  rewrite all_tasks_of_cons, foldl_app.
  rewrite add_tasks_of_domain by (apply Hfresh; cbn; left).
  destruct (decide (examples = [])) as [->|Hne].
  - rewrite IH; [done|done|]. intros d Hin. apply Hfresh. cbn. by right.
  - rewrite IH; [|done|].
    + rewrite all_tasks_of_app, <-app_assoc. do 2 f_equal.
      cbn. by rewrite app_nil_r.
    + intros d Hin. rewrite fmap_app, not_elem_of_app. split.
      * apply Hfresh. cbn. by right.
      * cbn. rewrite list_elem_of_singleton. by intros ->.
Qed.

(** A piece of the task list still comes domain by domain. *)
Lemma drop_grouped (m : TaskTable) (n : nat) :
  ∃ m', drop n (all_tasks_of m) = all_tasks_of m' ∧ m'.*1 `sublist_of` m.*1.
Proof.
  revert n. induction m as [|[domain examples] m IH]; intros n.
  { exists []. split; [|done]. change (all_tasks_of []) with (@nil (string * string)).
    apply drop_nil. }
  rewrite all_tasks_of_cons.
  destruct (decide (n ≤ length examples)%nat) as [Hle|Hgt].
  - exists ((domain, drop n examples) :: m). split; [|done].
    rewrite all_tasks_of_cons, drop_app_le by (by rewrite length_fmap).
    by rewrite fmap_drop.
  - destruct (IH (n - length examples)%nat) as (m' & Hdrop & Hsub).
    exists m'. split; [|by apply sublist_cons].
    rewrite drop_app_ge by (rewrite length_fmap; lia).
    by rewrite length_fmap.
Qed.

Lemma take_grouped (m : TaskTable) (n : nat) :
  ∃ m', take n (all_tasks_of m) = all_tasks_of m' ∧ m'.*1 `sublist_of` m.*1.
Proof.
  revert n. induction m as [|[domain examples] m IH]; intros n.
  { exists []. split; [|done]. change (all_tasks_of []) with (@nil (string * string)).
    apply take_nil. }
  rewrite all_tasks_of_cons.
  destruct (IH (n - length examples)%nat) as (m' & Htake & Hsub).
  exists ((domain, take n examples) :: m'). split; [|by apply sublist_skip].
  rewrite all_tasks_of_cons, take_app, length_fmap, Htake.
  by rewrite fmap_take.
Qed.

Lemma slice_regrouped (m : TaskTable) (a b : nat) :
  NoDup m.*1 →
  all_tasks_of (foldl add_task [] (take a (drop b (all_tasks_of m))))
  = take a (drop b (all_tasks_of m)).
Proof.
  intros Hnodup.
  destruct (drop_grouped m b) as (m1 & -> & Hsub1).
  destruct (take_grouped m1 a) as (m2 & -> & Hsub2).
  rewrite regroup; [done| |intros d _; cbn; apply not_elem_of_nil].
  apply (sublist_NoDup (m2.*1) (m.*1)); [done|]. by trans (m1.*1).
Qed.

(** The slices of [distribute_tasks]. *)
Lemma py_slice_chunk {A} (l : list A) (i t : nat) :
  py_slice l (Z.of_nat i * Z.of_nat t)
           (Z.min ((Z.of_nat i + 1) * Z.of_nat t) (Z.of_nat (length l)))
  = take t (drop (i * t) l).
Proof.
  unfold py_slice, py_index.
  rewrite !(proj2 (Z.ltb_ge _ _)) by lia.
  replace (Z.to_nat (Z.min (Z.of_nat i * Z.of_nat t) (Z.of_nat (length l))))
    with (min (i * t) (length l)) by lia.
  destruct (decide (length l ≤ i * t)%nat) as [Hout|Hin].
  - rewrite Nat.min_r by done. rewrite drop_all, (drop_ge l (i * t)) by done.
    by rewrite !take_nil.
  - rewrite Nat.min_l by lia.
    destruct (decide ((i + 1) * t ≤ length l)%nat) as [Hfull|Hshort].
    + f_equal. lia.
    + rewrite !take_ge; [done|rewrite length_drop; lia|rewrite length_drop; lia].
Qed.

Lemma chunks_concat {A} (l : list A) (t k : nat) :
  mjoin ((λ i, take t (drop (i * t) l)) <$> seq 0 k) = take (k * t) l.
Proof.
  induction k as [|k IH]; [done|].
  rewrite seq_S, fmap_app, join_app, IH. cbn [fmap list_fmap mjoin list_join].
  rewrite app_nil_r, take_take_drop. f_equal. lia.
Qed.

Lemma ceil_div_covers (n k : Z) : 0 ≤ n → 1 ≤ k → 0 ≤ ceil_div n k ∧ n ≤ k * ceil_div n k.
Proof.
  intros Hn Hk. unfold ceil_div.
  pose proof (Z.mul_div_le (- n) k) as Hle.
  pose proof (Z.div_lt_upper_bound (- n) k 1) as Hup.
  nia.
Qed.

Lemma seqZ_nat (k : nat) : seqZ 0 (Z.of_nat k) = Z.of_nat <$> seq 0 k.
Proof.
  induction k as [|k IH]; [done|].
  by rewrite seqZ_S, IH, seq_S, fmap_app.
Qed.

(** What [distribute_tasks] returns for a positive number of environments:
    environment [i] holds, regrouped, the tasks from [i * t] on, [t] of them
    at most, where [t] is the ceiling of the quotient. *)
Lemma distribute_tasks_chunks (m : TaskTable) (k t : nat) :
  (1 ≤ k)%nat →
  Z.of_nat t = ceil_div (Z.of_nat (length (all_tasks_of m))) (Z.of_nat k) →
  distribute_tasks m (Z.of_nat k)
  = Ok ((λ i, foldl add_task [] (take t (drop (i * t) (all_tasks_of m))))
        <$> seq 0 k).
Proof.
  intros Hk Ht. unfold distribute_tasks.
  rewrite (proj2 (Z.eqb_neq _ _)) by lia. cbn zeta. f_equal.
  rewrite seqZ_nat, <-list_fmap_compose. apply list_fmap_ext.
  intros _ i _. cbn [compose]. rewrite <-Ht. by rewrite py_slice_chunk.
Qed.

(** X29: for a positive number of environments, [distribute_tasks] gives
    that many tables, and read one after the other, each domain by domain,
    they hold all tasks of the input, each once and in the order of the
    input; no table holds more tasks than the ceiling of the number of
    tasks over the number of environments. *)
Theorem distribute_tasks_loses_and_repeats_nothing (test_all_meta : TaskTable)
    (num_envs : Z) :
  NoDup test_all_meta.*1 →
  1 ≤ num_envs →
  ∃ distributed_tasks,
    distribute_tasks test_all_meta num_envs = Ok distributed_tasks
    ∧ Z.of_nat (length distributed_tasks) = num_envs
    ∧ distributed_tasks ≫= all_tasks_of = all_tasks_of test_all_meta
    ∧ Forall (λ env_tasks,
                Z.of_nat (length (all_tasks_of env_tasks))
                ≤ ceil_div (Z.of_nat (length (all_tasks_of test_all_meta)))
                           num_envs)
             distributed_tasks.
Proof.
  intros Hnodup Hk.
  destruct (ceil_div_covers (Z.of_nat (length (all_tasks_of test_all_meta)))
              num_envs) as [Hpos Hcover]; [lia|lia|].
  set (k := Z.to_nat num_envs).
  set (t := Z.to_nat (ceil_div (Z.of_nat (length (all_tasks_of test_all_meta)))
                               num_envs)).
  assert (num_envs = Z.of_nat k) as Hnum by lia.
  assert (Z.of_nat t
          = ceil_div (Z.of_nat (length (all_tasks_of test_all_meta))) num_envs)
    as Ht by lia.
  exists ((λ i, foldl add_task [] (take t (drop (i * t) (all_tasks_of test_all_meta))))
          <$> seq 0 k).
  split.
  { rewrite Hnum. apply distribute_tasks_chunks; [lia|]. by rewrite <-Hnum. }
  split; [rewrite length_fmap, length_seq; lia|]. split.
  - transitivity (mjoin ((λ i, take t (drop (i * t) (all_tasks_of test_all_meta)))
                         <$> seq 0 k)).
    + induction (seq 0 k) as [|i l IH]; [done|].
      rewrite !fmap_cons, bind_cons, IH. cbn [mjoin list_join].
      by rewrite slice_regrouped.
    + rewrite chunks_concat. apply take_ge. nia.
  - apply Forall_fmap, Forall_forall. intros i _. cbn [compose].
    rewrite slice_regrouped by done. rewrite length_take. lia.
Qed.

(** X29, witness: five tasks of two domains over two environments: three
    tasks for the first, two for the second. *)
Lemma distribute_tasks_loses_and_repeats_nothing_witness :
  distribute_tasks example_meta 2
  = Ok [[("chrome", ["a"; "b"; "c"])]; [("gimp", ["d"; "e"])]]
  ∧ ∃ distributed_tasks,
      distribute_tasks example_meta 2 = Ok distributed_tasks
      ∧ distributed_tasks ≫= all_tasks_of = all_tasks_of example_meta.
Proof.
  split; [vm_compute; reflexivity|].
  destruct (distribute_tasks_loses_and_repeats_nothing example_meta 2)
    as (distributed_tasks & Hrun & _ & Hall & _).
  - apply (bool_decide_unpack _). vm_compute. exact I.
  - lia.
  - by exists distributed_tasks.
Defined.

(** X30: with no environment, [distribute_tasks] raises on the division;
    with a negative number of environments it returns no table at all, so
    that every task is dropped. *)
Theorem distribute_tasks_without_environments (test_all_meta : TaskTable)
    (num_envs : Z) :
  num_envs ≤ 0 →
  distribute_tasks test_all_meta num_envs
  = if decide (num_envs = 0) then Raise "division by zero" else Ok [].
Proof.
  intros Hk. unfold distribute_tasks. destruct (decide (num_envs = 0)) as [->|Hne].
  - done.
  - rewrite (proj2 (Z.eqb_neq _ _)) by done. cbn zeta.
    by rewrite seqZ_nil by lia.
Qed.

(** X30, witness: five tasks and no environment. *)
Lemma distribute_tasks_without_environments_witness :
  distribute_tasks example_meta 0 = Raise "division by zero"
  ∧ distribute_tasks example_meta (-1) = Ok [].
Proof.
  split.
  - exact (distribute_tasks_without_environments example_meta 0 ltac:(lia)).
  - exact (distribute_tasks_without_environments example_meta (-1) ltac:(lia)).
Defined.

